(** * Rimborso KM: client-side trip form, address autocomplete and archive

    A shallow embedding of the browser scripts of the application:
    - [AddressAutocomplete] : address-autocomplete.js (geocoding client and
      debounced autocomplete controller);
    - [Trasferte] : trasferte.js (create and edit forms, reactive estimate,
      attachments);
    - [Archivio] : archivio.js (archive table, selection set, bulk exports);
    - [Distanza], [Popola] : trasferte.js (distance lookup, filling an
      address from a suggestion);
    - [App] : app.js (the JSON client [fetchApi], the bottom bar);
    - [Veicoli] : veicoli.js (vehicle forms);
    - [Clienti] : clienti.js (client dialog, CSV import);
    - [Accessibility] : accessibility.js (arrow-key navigation).

    JavaScript numbers are binary64 values: a finite number is given by
    its rational value, beside NaN, the two infinities and negative zero,
    and parsing and multiplication round to nearest, ties to even, with
    overflow and underflow.  A string is a sequence of code units, one
    [ascii] each, so user input is covered up to U+00FF; the fixed texts
    of the scripts that go beyond it (the euro sign, pictographs) are
    written as their UTF-8 bytes and are only ever compared for
    equality. *)

From Stdlib Require Import ZArith QArith Qround Qabs String Ascii List Lia Bool.
From Stdlib Require Import DecimalString.
Import ListNotations.
Close Scope Q_scope.
Open Scope string_scope.

(* ===================================================================== *)
(** ** JavaScript values and built-ins used by the scripts *)
(* ===================================================================== *)

Module Js.

(** A JavaScript number, that is a binary64 value.  [Fin q] is the finite
    number of value [q] other than negative zero ([Fin 0] is +0), [NegZero]
    is -0.  What the operations below return is a binary64 value written in
    lowest terms. *)
Inductive jsnum : Type :=
| NaN
| Fin (q : Q)
| Inf (negative : bool)
| NegZero.

(** *** Rounding to binary64

    A positive rational [n/d] is rounded to [m * 2^e] with [m <= 2^53]
    and [e >= -1074]: [e] is chosen from the binary logarithm of [n/d] so
    that [(n/d) / 2^e] has 53 bits, and is no lower than the exponent of
    the subnormal numbers; [m] is the integer nearest to [(n/d) / 2^e],
    the even one on a tie.  A result of [2^1024] or more is an infinity,
    a mantissa of zero is a zero. *)

Definition PREC : Z := 53.
Definition EMIN : Z := -1074.
Definition EMAX : Z := 1024.

(** [(n/d) / 2^e] as a fraction of integers. *)
Definition scala (n d e : Z) : Z * Z :=
  (n * 2 ^ Z.max 0 (- e), d * 2 ^ Z.max 0 e)%Z.

(** The integer part of the binary logarithm of [n/d]. *)
Definition ilog2 (n d : positive) : Z :=
  let k := (Z.log2 (Z.pos n) - Z.log2 (Z.pos d))%Z in
  let (num, den) := scala (Z.pos n) (Z.pos d) k in
  if (den <=? num)%Z then k else (k - 1)%Z.

(** [num/den] rounded to the nearest integer, to the even one on a tie. *)
Definition rne (num den : Z) : Z :=
  let q := (num / den)%Z in
  let r := (num mod den)%Z in
  match (2 * r ?= den)%Z with
  | Lt => q
  | Gt => (q + 1)%Z
  | Eq => if Z.even q then q else (q + 1)%Z
  end.

(** Mantissa and exponent of the binary64 value nearest to [n/d], before
    the test for overflow. *)
Definition arrotonda_pos (n d : positive) : Z * Z :=
  let e := Z.max (ilog2 n d - (PREC - 1)) EMIN in
  let (num, den) := scala (Z.pos n) (Z.pos d) e in
  (rne num den, e).

(** [m * 2^e] in lowest terms. *)
Definition diadico (m e : Z) : Q :=
  Qred (if (0 <=? e)%Z then inject_Z (m * 2 ^ e)
        else Qmake m (Z.to_pos (2 ^ (- e)))).

Definition zero (negative : bool) : jsnum :=
  if negative then NegZero else Fin 0.

Definition finito (negative : bool) (m e : Z) : jsnum :=
  if (m =? 0)%Z then zero negative
  else if (0 <=? e)%Z && (2 ^ EMAX <=? m * 2 ^ e)%Z then Inf negative
  else Fin (if negative then Qopp (diadico m e) else diadico m e).

(** The Number value for the real number [q]: round to nearest, ties to
    even, overflow to the infinities, underflow to the zero of the sign of
    [q]. *)
Definition arrotonda (q : Q) : jsnum :=
  match Qnum q with
  | Z0 => Fin 0
  | Z.pos n => let (m, e) := arrotonda_pos n (Qden q) in finito false m e
  | Z.neg n => let (m, e) := arrotonda_pos n (Qden q) in finito true m e
  end.

(** An integer as a Number: exact below [2^53], rounded above.  An
    integer that overflows, which the page holds as an infinity, is
    [2^1024] or its opposite: no finite Number has that value, and two
    infinities of one sign are equal. *)
Definition intero64 (z : Z) : Z :=
  if (Z.abs z <? 2 ^ PREC)%Z then z
  else match arrotonda (inject_Z z) with
       | Fin q => Qnum q
       | Inf negative => if negative then (- 2 ^ EMAX)%Z else (2 ^ EMAX)%Z
       | _ => z
       end.

(** *** Operators *)

(** [!x] for a number: NaN and the zeros are falsy. *)
Definition num_falsy (x : jsnum) : bool :=
  match x with
  | NaN => true
  | Fin q => Qeq_bool q 0
  | Inf _ => false
  | NegZero => true
  end.

(** [x || d] for numbers. *)
Definition num_or (x d : jsnum) : jsnum := if num_falsy x then d else x.

Definition Qsign_neg (q : Q) : bool := (Qnum q <? 0)%Z.

(** The sign bit. *)
Definition segno (x : jsnum) : bool :=
  match x with
  | NaN => false
  | Fin q => Qsign_neg q
  | Inf s => s
  | NegZero => true
  end.

(** [x * y]: the exact product rounded to binary64; a zero factor gives
    the zero whose sign is the product of the signs. *)
Definition mul (x y : jsnum) : jsnum :=
  match x, y with
  | NaN, _ | _, NaN => NaN
  | Inf s, Inf t => Inf (xorb s t)
  | Inf s, z | z, Inf s =>
      if num_falsy z then NaN else Inf (xorb s (segno z))
  | Fin a, Fin b =>
      if Qeq_bool a 0 || Qeq_bool b 0
      then zero (xorb (Qsign_neg a) (Qsign_neg b))
      else arrotonda (a * b)
  | z, w => zero (xorb (segno z) (segno w))
  end.

(** The value of a finite number. *)
Definition valore_finito (x : jsnum) : Q :=
  match x with
  | Fin q => q
  | _ => 0
  end.

(** [x <= y]; every comparison with NaN is false, the two zeros are
    equal. *)
Definition le (x y : jsnum) : bool :=
  match x, y with
  | NaN, _ | _, NaN => false
  | Inf true, _ => true
  | _, Inf false => true
  | Inf false, _ => false
  | _, Inf true => false
  | _, _ => Qle_bool (valore_finito x) (valore_finito y)
  end.

(** [x > y]. *)
Definition gt (x y : jsnum) : bool :=
  match x, y with
  | NaN, _ | _, NaN => false
  | _, _ => negb (le x y)
  end.

(** [!s] for a string: only the empty string is falsy. *)
Definition str_falsy (s : string) : bool :=
  match s with
  | EmptyString => true
  | String _ _ => false
  end.

(** White space and line terminators below U+0100. *)
Definition is_white_space (c : ascii) : bool :=
  let n := nat_of_ascii c in
  ((n =? 9) || (n =? 10) || (n =? 11) || (n =? 12) || (n =? 13)
   || (n =? 32) || (n =? 160))%nat.

Fixpoint trim_start (s : string) : string :=
  match s with
  | EmptyString => EmptyString
  | String c r => if is_white_space c then trim_start r else s
  end.

Fixpoint drop_white (l : list ascii) : list ascii :=
  match l with
  | [] => []
  | c :: r => if is_white_space c then drop_white r else l
  end.

(** [String.prototype.trim]. *)
Definition trim (s : string) : string :=
  string_of_list_ascii
    (rev (drop_white (rev (drop_white (list_ascii_of_string s))))).

Definition is_digit (c : ascii) : bool :=
  let n := nat_of_ascii c in ((48 <=? n) && (n <=? 57))%nat.

Definition digit_value (c : ascii) : Z := Z.of_nat (nat_of_ascii c) - 48.

(** Digit value in base sixteen, when [c] is a hexadecimal digit. *)
Definition hex_value (c : ascii) : option Z :=
  let n := nat_of_ascii c in
  if ((48 <=? n) && (n <=? 57))%nat then Some (Z.of_nat n - 48)%Z
  else if ((65 <=? n) && (n <=? 70))%nat then Some (Z.of_nat n - 55)%Z
  else if ((97 <=? n) && (n <=? 102))%nat then Some (Z.of_nat n - 87)%Z
  else None.

(** Longest prefix of decimal digits, and the rest of the string. *)
Fixpoint take_digits (s : string) : list Z * string :=
  match s with
  | EmptyString => ([], EmptyString)
  | String c r =>
      if is_digit c
      then let (ds, rest) := take_digits r in (digit_value c :: ds, rest)
      else ([], s)
  end.

Fixpoint take_hex_digits (s : string) : list Z :=
  match s with
  | EmptyString => []
  | String c r =>
      match hex_value c with
      | Some d => d :: take_hex_digits r
      | None => []
      end
  end.

Definition digits_value (base : Z) (ds : list Z) : Z :=
  fold_left (fun acc d => base * acc + d)%Z ds 0%Z.

(** An optional sign: [true] for a minus. *)
Definition take_sign (s : string) : bool * string :=
  match s with
  | String "+"%char r => (false, r)
  | String "-"%char r => (true, r)
  | _ => (false, s)
  end.

(** [ExponentPart] of a decimal literal: its value when the indicator is
    followed by at least one digit, zero when there is none. *)
Definition parse_exponent (s : string) : Z :=
  match s with
  | String c r =>
      if (Ascii.eqb c "e" || Ascii.eqb c "E")%char
      then let (neg, r') := take_sign r in
           match fst (take_digits r') with
           | [] => 0%Z
           | ds => if neg then (- digits_value 10 ds)%Z else digits_value 10 ds
           end
      else 0%Z
  | EmptyString => 0%Z
  end.

(** [parseFloat(s)]: leading white space is skipped and the longest prefix
    that is a [StrDecimalLiteral] is read; NaN when there is none.  The
    decimal value read is rounded to binary64, a zero keeps the sign
    written. *)
Definition parseFloat (s : string) : jsnum :=
  let (neg, body) := take_sign (trim_start s) in
  if prefix "Infinity" body then Inf neg
  else
    let (ip, after_int) := take_digits body in
    let (fp, after_frac) :=
      match after_int with
      | String "."%char r => take_digits r
      | _ => ([], after_int)
      end in
    match (ip ++ fp)%list with
    | [] => NaN
    | ds =>
        let e := (parse_exponent after_frac - Z.of_nat (length fp))%Z in
        let q := ((digits_value 10 ds # 1) * Qpower (10 # 1) e)%Q in
        if Qeq_bool q 0 then zero neg
        else arrotonda (if neg then (- q)%Q else q)
    end.

(** [parseInt(s)] without a radix: [None] stands for NaN.  The integer
    read is rounded to binary64. *)
Definition parseInt (s : string) : option Z :=
  let (neg, body) := take_sign (trim_start s) in
  let signed (z : Z) := intero64 (if neg then (- z)%Z else z) in
  match body with
  | String "0"%char (String x r) =>
      if (Ascii.eqb x "x" || Ascii.eqb x "X")%char
      then match take_hex_digits r with
           | [] => None
           | ds => Some (signed (digits_value 16 ds))
           end
      else Some (signed (digits_value 10 (fst (take_digits body))))
  | _ =>
      match fst (take_digits body) with
      | [] => None
      | ds => Some (signed (digits_value 10 ds))
      end
  end.

(** [!n] for the result of [parseInt]. *)
Definition int_falsy (n : option Z) : bool :=
  match n with
  | None => true
  | Some z => (z =? 0)%Z
  end.

(** [/^\d{5}$/.test(s)]: exactly five decimal digits. *)
Definition five_digits (s : string) : bool :=
  let cs := list_ascii_of_string s in
  (length cs =? 5)%nat && forallb is_digit cs.

End Js.

(* ===================================================================== *)
(** ** address-autocomplete.js: geocoding client and autocomplete controller *)
(* ===================================================================== *)

Module AddressAutocomplete.
Import Js.

(** *** Values and effects *)

(** A value produced by [response.json()], or read from such a value. *)
#[local] Unset Elimination Schemes.
Inductive jsval : Type :=
| Undefined
| Null
| Bool (b : bool)
| Number (q : Q)
| Str (s : string)
| Array (elements : list jsval)
| Object (fields : list (string * jsval)).
#[local] Set Elimination Schemes.

Record Errore : Type := { err_name : string; err_message : string }.

Definition TypeError (messaggio : string) : Errore :=
  {| err_name := "TypeError"; err_message := messaggio |}.
Definition SyntaxError (messaggio : string) : Errore :=
  {| err_name := "SyntaxError"; err_message := messaggio |}.
Definition AbortError : Errore :=
  {| err_name := "AbortError"; err_message := "The operation was aborted." |}.

(** How a call ends. *)
Inductive Completion (A : Type) : Type :=
| Returns (a : A)
| Throws (e : Errore).
Arguments Returns {A} a.
Arguments Throws {A} e.

Inductive LogEntry : Type :=
| console_log (msg : string)
| console_warn (msg : string)
| console_error (msg : string).

(** The query string sent to Nominatim; [limit], [format],
    [addressdetails] and [accept_language] are constants of the source. *)
Record Richiesta : Type := {
  q : string;
  countrycodes : option string
}.

(** What a computation leaves behind: console output and issued requests,
    oldest first. *)
Record Mondo : Type := {
  console : list LogEntry;
  rete : list Richiesta
}.

Definition mondo_vuoto : Mondo := {| console := []; rete := [] |}.

(** Computations that log, call the network and may throw. *)
Definition M (A : Type) : Type := Mondo -> Completion A * Mondo.

Definition ret {A} (a : A) : M A := fun w => (Returns a, w).

Definition throw {A} (e : Errore) : M A := fun w => (Throws e, w).

Definition bind {A B} (m : M A) (k : A -> M B) : M B :=
  fun w =>
    match m w with
    | (Returns a, w') => k a w'
    | (Throws e, w') => (Throws e, w')
    end.

Definition try_catch {A} (m : M A) (h : Errore -> M A) : M A :=
  fun w =>
    match m w with
    | (Returns a, w') => (Returns a, w')
    | (Throws e, w') => h e w'
    end.

Notation "x <- c ;; k" := (bind c (fun x => k))
  (at level 61, c at next level, right associativity).
Notation "c ;;; k" := (bind c (fun _ => k))
  (at level 61, right associativity).

Definition emit (e : LogEntry) : M unit :=
  fun w => (Returns tt, {| console := console w ++ [e]; rete := rete w |}).

Definition invia (r : Richiesta) : M unit :=
  fun w => (Returns tt, {| console := console w; rete := rete w ++ [r] |}).

Fixpoint mapM {A B} (f : A -> M B) (l : list A) : M (list B) :=
  match l with
  | [] => ret []
  | x :: r => y <- f x ;; ys <- mapM f r ;; ret (y :: ys)
  end.

(** *** The remote service *)

Inductive CorpoRisposta : Type :=
| json_invalido                (* [response.json()] rejects *)
| json_valore (v : jsval).     (* [response.json()] resolves *)

Record Response : Type := {
  ok : bool;
  status : Z;
  body : CorpoRisposta
}.

Inductive EsitoFetch : Type :=
| rete_errore (e : Errore)     (* the promise of [fetch] rejects *)
| risposta (r : Response).     (* headers arrived *)

(** One exchange with the service: after [durata] milliseconds the call
    would settle with [esito]. *)
Record Scambio : Type := {
  durata : N;
  esito : EsitoFetch
}.

Definition NOMINATIM_TIMEOUT : N := 5000.

(** [await fetch(url, {signal, ...})] under the abort timer: when the timer
    of [NOMINATIM_TIMEOUT] ms runs first, [controller.abort()] rejects the
    call with an [AbortError]. *)
Definition fetch (env : Scambio) (r : Richiesta) : M Response :=
  invia r ;;;
  if (NOMINATIM_TIMEOUT <? durata env)%N then throw AbortError
  else match esito env with
       | rete_errore e => throw e
       | risposta resp => ret resp
       end.

Definition response_json (resp : Response) : M jsval :=
  match body resp with
  | json_invalido => throw (SyntaxError "Unexpected token")
  | json_valore v => ret v
  end.

(** *** Normalisation of a result *)

Fixpoint lookup (k : string) (fields : list (string * jsval)) : jsval :=
  match fields with
  | [] => Undefined
  | (k', v) :: r => if String.eqb k k' then v else lookup k r
  end.

(** [r.k]: throws on [null] and [undefined]; objects answer with the field,
    every other value has no such property. *)
Definition prop (r : jsval) (k : string) : M jsval :=
  match r with
  | Undefined | Null =>
      throw (TypeError "Cannot read properties of null")
  | Object fields => ret (lookup k fields)
  | _ => ret Undefined
  end.

(** [!v]. *)
Definition falsy (v : jsval) : bool :=
  match v with
  | Undefined | Null => true
  | Bool b => negb b
  | Number x => Qeq_bool x 0
  | Str s => str_falsy s
  | Array _ | Object _ => false
  end.

(** [parseFloat(v)]: [v] is converted to a string first.  A number prints
    to a literal that reads back as itself; an array prints its elements
    separated by commas, so only its first element can contribute. *)
Fixpoint parseFloat_val (v : jsval) : jsnum :=
  match v with
  | Str s => parseFloat s
  | Number x => Fin x
  | Array (x :: _) => parseFloat_val x
  | _ => NaN
  end.

(** A normalised suggestion. *)
Record Suggestion : Type := {
  name : jsval;
  address : jsval;
  lat : jsnum;
  lon : jsnum;
  type : jsval
}.

(** The arrow function given to [results.map]. *)
Definition normalizza (r : jsval) : M Suggestion :=
  display_name <- prop r "display_name" ;;
  addr <- prop r "address" ;;
  r_lat <- prop r "lat" ;;
  r_lon <- prop r "lon" ;;
  r_type <- prop r "type" ;;
  ret {| name := display_name;
         address := addr;
         lat := parseFloat_val r_lat;
         lon := parseFloat_val r_lon;
         type := if falsy r_type then Str "address" else r_type |}.

(** *** The geocoding client *)

(** [addressAutocompleteSearch(query, countryCode)] against one exchange
    [env] with the service. *)
Definition addressAutocompleteSearch (env : Scambio)
  (query countryCode : string) : M (list Suggestion) :=
  if str_falsy query || (String.length query <? 2)%nat then ret []
  else
    try_catch
      (emit (console_log "[ADDRESS-AUTOCOMPLETE] Ricerca:") ;;;
       response <- fetch env {| q := query;
                                countrycodes :=
                                  if str_falsy countryCode then None
                                  else Some countryCode |} ;;
       if negb (ok response)
       then emit (console_error "[ADDRESS-AUTOCOMPLETE] Errore:") ;;; ret []
       else
         results <- response_json response ;;
         match results with
         | Array elements =>
             emit (console_log "[ADDRESS-AUTOCOMPLETE] Risultati:") ;;;
             mapM normalizza elements
         | _ =>
             emit (console_error "[ADDRESS-AUTOCOMPLETE] Risposta non valida:")
             ;;; ret []
         end)
      (fun error =>
         (if String.eqb (err_name error) "AbortError"
          then emit (console_warn "[ADDRESS-AUTOCOMPLETE] Timeout")
          else emit (console_error "[ADDRESS-AUTOCOMPLETE] Errore:")) ;;;
         ret []).

(** *** The autocomplete controller *)

(** [escapeHtml] on a string: the five replacements, ampersand first, which
    amounts to mapping every character on its own. *)
Definition escape_char (c : ascii) : string :=
  let n := nat_of_ascii c in
  if (n =? 38)%nat then "&amp;"
  else if (n =? 60)%nat then "&lt;"
  else if (n =? 62)%nat then "&gt;"
  else if (n =? 34)%nat then "&quot;"
  else if (n =? 39)%nat then "&#039;"
  else String c EmptyString.

Fixpoint escape (s : string) : string :=
  match s with
  | EmptyString => EmptyString
  | String c r => escape_char c ++ escape r
  end.

(** [escapeHtml(unsafe)]: falsy values give the empty string, strings are
    escaped, and any other value has no [replace] method. *)
Definition escapeHtml (unsafe : jsval) : M string :=
  if falsy unsafe then ret ""
  else match unsafe with
       | Str s => ret (escape s)
       | _ => throw (TypeError "unsafe.replace is not a function")
       end.

(** The text a parsed attribute holds for a value [escapeHtml] accepted. *)
Definition testo (v : jsval) : string :=
  match v with
  | Str s => s
  | _ => ""
  end.

(** An [.autocomplete-item] of the list: [data-index], the parsed
    [data-value], and the markup of its two lines. *)
Record Voce : Type := {
  data_index : nat;
  data_value : string;
  html_name : string;
  html_type : string
}.

(** [list.innerHTML]. *)
Inductive Contenuto : Type :=
| vuoto
| nessun_risultato
| voci (items : list Voce)
| errore_ricerca.

(** What the controller hands to the page. *)
Inductive Uscita : Type :=
| onSelect_call (selectedValue : string) (selectedResult : Suggestion)
| change_event.

(** [options] of [initAddressAutocomplete]. *)
Record Opzioni : Type := {
  opt_countryCode : option string;
  opt_onSelect : bool
}.

Definition countryCode (options : Opzioni) : string :=
  match opt_countryCode options with
  | Some c => if str_falsy c then "it" else c
  | None => "it"
  end.

(** The closure state of one bound input, the two elements it drives, and
    the asynchronous work it has pending: the debounce timer (with the
    query its callback captured), the calls to the client whose [await] has
    not resumed yet (a fresh number and the query each), and the timers
    that hide the "no results" notice. *)
Record Stato : Type := {
  input_value : string;
  debounceTimer : option string;
  currentRequest : bool;
  lastResults : list Suggestion;
  list_innerHTML : Contenuto;
  list_show : bool;
  in_attesa : list (nat * string);
  prossima : nat;
  nascondi_timers : nat;
  uscite : list Uscita
}.

Definition stato_iniziale : Stato := {|
  input_value := "";
  debounceTimer := None;
  currentRequest := false;
  lastResults := [];
  list_innerHTML := vuoto;
  list_show := false;
  in_attesa := [];
  prossima := 0;
  nascondi_timers := 0;
  uscite := []
|}.

Inductive Evento : Type :=
| Input (valore : string)               (* the user edits the input *)
| DebounceScatta                        (* 400 ms passed without input *)
| Risolve (id : nat) (env : Scambio)    (* the awaited search settles *)
| NascondiScatta                        (* a 2 s hide timer fires *)
| ClickVoce (idx : nat)
| ClickFuori
| KeydownEnter.

(** The [input] listener, up to and including [setTimeout(..., 400)]. *)
Definition on_input (valore : string) (st : Stato) : Stato :=
  let query := trim valore in
  if (String.length query <? 2)%nat
  then {| input_value := valore;
          debounceTimer := None;
          currentRequest := false;
          lastResults := lastResults st;
          list_innerHTML := vuoto;
          list_show := false;
          in_attesa := in_attesa st;
          prossima := prossima st;
          nascondi_timers := nascondi_timers st;
          uscite := uscite st |}
  else {| input_value := valore;
          debounceTimer := Some query;
          currentRequest := false;
          lastResults := lastResults st;
          list_innerHTML := list_innerHTML st;
          list_show := list_show st;
          in_attesa := in_attesa st;
          prossima := prossima st;
          nascondi_timers := nascondi_timers st;
          uscite := uscite st |}.

(** The debounce callback up to its [await]: the flag is raised and the
    client is called with the captured query. *)
Definition on_debounce (st : Stato) : Stato :=
  match debounceTimer st with
  | None => st
  | Some query =>
      {| input_value := input_value st;
         debounceTimer := None;
         currentRequest := true;
         lastResults := lastResults st;
         list_innerHTML := list_innerHTML st;
         list_show := list_show st;
         in_attesa := in_attesa st ++ [(prossima st, query)];
         prossima := S (prossima st);
         nascondi_timers := nascondi_timers st;
         uscite := uscite st |}
  end.

(** The template of one item. *)
Definition render_voce (idx : nat) (r : Suggestion) : M Voce :=
  valore <- escapeHtml (name r) ;;
  strong <- escapeHtml (name r) ;;
  small <- escapeHtml (type r) ;;
  ret {| data_index := idx; data_value := testo (name r);
         html_name := strong; html_type := small |}.

Fixpoint render_da (idx : nat) (risultati : list Suggestion)
  : M (list Voce) :=
  match risultati with
  | [] => ret []
  | r :: rest =>
      v <- render_voce idx r ;; vs <- render_da (S idx) rest ;; ret (v :: vs)
  end.

(** [risultati.map((r, idx) => ...)]. *)
Definition render (risultati : list Suggestion) : M (list Voce) :=
  render_da 0 risultati.

Definition togli (id : nat) (l : list (nat * string)) : list (nat * string) :=
  filter (fun c => negb (fst c =? id)%nat) l.

Definition cerca (id : nat) (l : list (nat * string)) : option string :=
  match find (fun c => (fst c =? id)%nat) l with
  | Some c => Some (snd c)
  | None => None
  end.

(** The debounce callback from its [await] on, for the call numbered [id]:
    the stale check, the rendering, the [catch] and the [finally]. *)
Definition on_risolve (options : Opzioni) (id : nat) (env : Scambio)
  (st : Stato) : Stato :=
  match cerca id (in_attesa st) with
  | None => st
  | Some query =>
      let risultato :=
        fst (addressAutocompleteSearch env query (countryCode options)
               mondo_vuoto) in
      let fine (ultimi : list Suggestion) (html : Contenuto) (show : bool)
               (timers : nat) :=
        {| input_value := input_value st;
           debounceTimer := debounceTimer st;
           currentRequest := false;
           lastResults := ultimi;
           list_innerHTML := html;
           list_show := show;
           in_attesa := togli id (in_attesa st);
           prossima := prossima st;
           nascondi_timers := timers;
           uscite := uscite st |} in
      match risultato with
      | Throws _ =>
          fine (lastResults st) errore_ricerca true (nascondi_timers st)
      | Returns risultati =>
          if negb (currentRequest st)
          then fine (lastResults st) (list_innerHTML st) (list_show st)
                 (nascondi_timers st)
          else
            match risultati with
            | [] =>
                fine risultati nessun_risultato true
                  (S (nascondi_timers st))
            | _ =>
                match fst (render risultati mondo_vuoto) with
                | Returns items =>
                    fine risultati (voci items) true (nascondi_timers st)
                | Throws _ =>
                    fine risultati errore_ricerca true (nascondi_timers st)
                end
            end
      end
  end.

Definition set_show (show : bool) (st : Stato) : Stato := {|
  input_value := input_value st;
  debounceTimer := debounceTimer st;
  currentRequest := currentRequest st;
  lastResults := lastResults st;
  list_innerHTML := list_innerHTML st;
  list_show := show;
  in_attesa := in_attesa st;
  prossima := prossima st;
  nascondi_timers := nascondi_timers st;
  uscite := uscite st
|}.

(** The [click] listener attached to the item [idx]. *)
Definition on_click_voce (options : Opzioni) (idx : nat) (st : Stato)
  : Stato :=
  match list_innerHTML st with
  | voci items =>
      match nth_error items idx with
      | None => st
      | Some item =>
          let chiamata :=
            match nth_error (lastResults st) idx with
            | Some selectedResult =>
                if opt_onSelect options
                then [onSelect_call (data_value item) selectedResult]
                else []
            | None => []
            end in
          {| input_value := data_value item;
             debounceTimer := debounceTimer st;
             currentRequest := currentRequest st;
             lastResults := lastResults st;
             list_innerHTML := vuoto;
             list_show := false;
             in_attesa := in_attesa st;
             prossima := prossima st;
             nascondi_timers := nascondi_timers st;
             uscite := uscite st ++ chiamata ++ [change_event] |}
      end
  | _ => st
  end.

Definition gestisci (options : Opzioni) (ev : Evento) (st : Stato) : Stato :=
  match ev with
  | Input valore => on_input valore st
  | DebounceScatta => on_debounce st
  | Risolve id env => on_risolve options id env st
  | NascondiScatta =>
      match nascondi_timers st with
      | O => st
      | S n =>
          {| input_value := input_value st;
             debounceTimer := debounceTimer st;
             currentRequest := currentRequest st;
             lastResults := lastResults st;
             list_innerHTML := list_innerHTML st;
             list_show := false;
             in_attesa := in_attesa st;
             prossima := prossima st;
             nascondi_timers := n;
             uscite := uscite st |}
      end
  | ClickVoce idx => on_click_voce options idx st
  | ClickFuori => set_show false st
  | KeydownEnter => on_click_voce options 0 st
  end.

(** The controller after a sequence of events. *)
Definition esegui (options : Opzioni) (evs : list Evento) (st : Stato)
  : Stato :=
  fold_left (fun s ev => gestisci options ev s) evs st.

(** *** Vocabulary of the properties *)

(** The request the client sends for [query]. *)
Definition richiesta_di (query cc : string) : Richiesta :=
  {| q := query;
     countrycodes := if str_falsy cc then None else Some cc |}.

(** The world after the client logged its search and sent its request,
    followed by one more console line. *)
Definition dopo_richiesta (w : Mondo) (query cc : string) (riga : LogEntry)
  : Mondo :=
  {| console := console w
                ++ [console_log "[ADDRESS-AUTOCOMPLETE] Ricerca:"; riga];
     rete := rete w ++ [richiesta_di query cc] |}.

Definition is_array (v : jsval) : bool :=
  match v with
  | Array _ => true
  | _ => false
  end.

(** A well-formed answer of the service with one place named [nome]. *)
Definition risposta_esempio (millisecondi : N) (nome : string) : Scambio := {|
  durata := millisecondi;
  esito := risposta {|
    ok := true;
    status := 200;
    body := json_valore
              (Array [Object [("display_name", Str nome);
                              ("lat", Str "45.07");
                              ("lon", Str "7.68");
                              ("type", Str "residential")]])
  |}
|}.

Definition voce_esempio (nome : string) : Voce := {|
  data_index := 0;
  data_value := nome;
  html_name := escape nome;
  html_type := "residential"
|}.

Definition opzioni_esempio : Opzioni :=
  {| opt_countryCode := None; opt_onSelect := true |}.

End AddressAutocomplete.

(* ===================================================================== *)
(** ** trasferte.js: trip form, reactive estimate, attachments *)
(* ===================================================================== *)

Module Trasferte.
Import Js.

(** Toast kinds of [mostraToast(messaggio, tipo)]. *)
Inductive Tipo : Type := info | success | warning | error.

Inductive Metodo : Type := GET | POST | PUT | DELETE.

(** The URLs the trip page calls.  [TrasfertaUrl id] is
    [`${API_TRASFERTE}/${id}`], where [id] comes from [parseInt]. *)
Inductive Endpoint : Type :=
| API_TRASFERTE
| TrasfertaUrl (id : option Z)
| AllegatoUploadUrl (trasferta_id : Z).

(** A file of a file input. *)
Record File : Type := { name : string; size : N }.

(** A vehicle of the global [veicoli] array, by the numbers written in
    the JSON of [/api/veicoli]; the page holds them rounded to binary64.
    Identifiers are SQLite [INTEGER PRIMARY KEY AUTOINCREMENT] row ids,
    hence positive. *)
Record Veicolo : Type := { id_veicolo : positive; tariffa_km : Q }.

(** [v.id] as the page holds it. *)
Definition v_id (v : Veicolo) : Z := intero64 (Z.pos (id_veicolo v)).

(** The text and checkbox inputs shared by the create form ([trasferta-*])
    and the edit form ([edit-trasferta-*]).  The round-trip checkbox is
    looked up with [?.], so it may be absent from the page. *)
Record Campi : Type := {
  trasferta_data : string;
  trasferta_indirizzo_aziendale_nome : string;
  trasferta_via_partenza : string;
  trasferta_citta_partenza : string;
  trasferta_cap_partenza : string;
  trasferta_paese_partenza : string;
  trasferta_cliente_nome : string;
  trasferta_via_arrivo : string;
  trasferta_citta_arrivo : string;
  trasferta_cap_arrivo : string;
  trasferta_paese_arrivo : string;
  trasferta_km : string;
  trasferta_motivo : string;
  trasferta_veicolo : string;
  trasferta_note : string;
  trasferta_andata_ritorno : option bool
}.

(** The [data] object both submit handlers build and send as JSON. *)
Record Dati : Type := {
  data : string;
  nome_partenza : string;
  via_partenza : string;
  citta_partenza : string;
  cap_partenza : string;
  paese_partenza : string;
  nome_arrivo : string;
  via_arrivo : string;
  citta_arrivo : string;
  cap_arrivo : string;
  paese_arrivo : string;
  chilometri : jsnum;
  motivo : string;
  veicolo_id : option Z;
  note : string;
  andata_ritorno : bool
}.

Inductive Corpo : Type :=
| NessunCorpo
| Json (d : Dati)
| FormData (file : File).

(** Observable effects of a handler, in program order. *)
Inductive Effetto : Type :=
| mostraToast (messaggio : string) (tipo : Tipo)
| fetch (metodo : Metodo) (url : Endpoint) (corpo : Corpo).

(** Outcome of an awaited network operation. *)
Inductive Esito (A : Type) : Type :=
| Risolta (valore : A)
| Rifiutata (messaggio : string).
Arguments Risolta {A} valore.
Arguments Rifiutata {A} messaggio.

(** The create page: the form, its file input ([files[0]]), the estimate
    label and the attachment preview ([None] when hidden, otherwise the
    file whose name and size it shows). *)
Record Pagina : Type := {
  campi : Campi;
  trasferta_allegato : option File;
  rimborso_stimato : string;
  allegato_preview : option File
}.

(** The edit dialog: hidden id input, the form and whether the dialog is
    open. *)
Record PaginaModifica : Type := {
  edit_trasferta_id : string;
  edit_campi : Campi;
  editTrasfertaModal : bool
}.

Definition checked (cb : option bool) : bool :=
  match cb with
  | Some b => b
  | None => false
  end.

(** The object literal at the top of both submit handlers. *)
Definition leggi_dati (c : Campi) : Dati := {|
  data := trasferta_data c;
  nome_partenza := trasferta_indirizzo_aziendale_nome c;
  via_partenza := trasferta_via_partenza c;
  citta_partenza := trasferta_citta_partenza c;
  cap_partenza := trasferta_cap_partenza c;
  paese_partenza := trasferta_paese_partenza c;
  nome_arrivo := trasferta_cliente_nome c;
  via_arrivo := trasferta_via_arrivo c;
  citta_arrivo := trasferta_citta_arrivo c;
  cap_arrivo := trasferta_cap_arrivo c;
  paese_arrivo := trasferta_paese_arrivo c;
  chilometri := parseFloat (trasferta_km c);
  motivo := trasferta_motivo c;
  veicolo_id := parseInt (trasferta_veicolo c);
  note := trasferta_note c;
  andata_ritorno := checked (trasferta_andata_ritorno c)
|}.

(** The condition of the first [if] of the create handler. *)
Definition campi_mancanti (d : Dati) : bool :=
  str_falsy (data d) || str_falsy (via_partenza d)
  || str_falsy (citta_partenza d) || str_falsy (cap_partenza d)
  || str_falsy (via_arrivo d) || str_falsy (citta_arrivo d)
  || str_falsy (cap_arrivo d)
  || num_falsy (chilometri d) || str_falsy (motivo d)
  || int_falsy (veicolo_id d).

(** The two postal-code checks, shared verbatim by create and edit. *)
Definition valida_cap (d : Dati) : option Effetto :=
  if negb (five_digits (cap_partenza d))
  then Some (mostraToast "CAP partenza deve essere 5 cifre" warning)
  else if negb (five_digits (cap_arrivo d))
  then Some (mostraToast "CAP arrivo deve essere 5 cifre" warning)
  else None.

Definition MAX_ALLEGATO : N := 10 * 1024 * 1024.

Section Builtins.

(** [Intl.NumberFormat('it-IT', {style: 'currency', currency: 'EUR'}).format]. *)
Variable intl_currency_eur : jsnum -> string.

Definition formattaValuta (importo : jsnum) : string :=
  intl_currency_eur importo.

(** [v.id === vehicleId]. *)
Definition stesso_id (n : option Z) (v : Veicolo) : bool :=
  match n with
  | Some z => (v_id v =? z)%Z
  | None => false
  end.

Definition set_rimborso (p : Pagina) (testo : string) : Pagina := {|
  campi := campi p;
  trasferta_allegato := trasferta_allegato p;
  rimborso_stimato := testo;
  allegato_preview := allegato_preview p
|}.

(** The local [km] of [aggiornaRimborso] after its first two statements:
    [parseFloat(kmInput.value) || 0], doubled when the round-trip box is
    ticked. *)
Definition km_effettivi (c : Campi) : jsnum :=
  let km := num_or (parseFloat (trasferta_km c)) (Fin 0) in
  if checked (trasferta_andata_ritorno c) then mul km (Fin 2) else km.

(** [aggiornaRimborso], the closure [calcolaMRimbor] registers on the km
    input, the vehicle select and the round-trip checkbox.
    [vehicle.tariffa_km] is a JSON number: the page holds the decimal
    written in the answer rounded to binary64, and [parseFloat] returns
    that number unchanged. *)
Definition aggiornaRimborso (veicoli : list Veicolo) (p : Pagina) : Pagina :=
  let km := km_effettivi (campi p) in
  let vehicleId := parseInt (trasferta_veicolo (campi p)) in
  if int_falsy vehicleId || le km (Fin 0)
  then set_rimborso p "€ 0,00"
  else match find (stesso_id vehicleId) veicoli with
       | None => p
       | Some vehicle =>
           set_rimborso p
             (formattaValuta (mul km (arrotonda (tariffa_km vehicle))))
       end.

(** Fields the user types or that the address helpers fill in; the three
    inputs observed by [aggiornaRimborso] keep their own events. *)
Definition compila (nuovi c : Campi) : Campi := {|
  trasferta_data := trasferta_data nuovi;
  trasferta_indirizzo_aziendale_nome := trasferta_indirizzo_aziendale_nome nuovi;
  trasferta_via_partenza := trasferta_via_partenza nuovi;
  trasferta_citta_partenza := trasferta_citta_partenza nuovi;
  trasferta_cap_partenza := trasferta_cap_partenza nuovi;
  trasferta_paese_partenza := trasferta_paese_partenza nuovi;
  trasferta_cliente_nome := trasferta_cliente_nome nuovi;
  trasferta_via_arrivo := trasferta_via_arrivo nuovi;
  trasferta_citta_arrivo := trasferta_citta_arrivo nuovi;
  trasferta_cap_arrivo := trasferta_cap_arrivo nuovi;
  trasferta_paese_arrivo := trasferta_paese_arrivo nuovi;
  trasferta_km := trasferta_km c;
  trasferta_motivo := trasferta_motivo nuovi;
  trasferta_veicolo := trasferta_veicolo c;
  trasferta_note := trasferta_note nuovi;
  trasferta_andata_ritorno := trasferta_andata_ritorno c
|}.

Definition set_km (valore : string) (c : Campi) : Campi := {|
  trasferta_data := trasferta_data c;
  trasferta_indirizzo_aziendale_nome := trasferta_indirizzo_aziendale_nome c;
  trasferta_via_partenza := trasferta_via_partenza c;
  trasferta_citta_partenza := trasferta_citta_partenza c;
  trasferta_cap_partenza := trasferta_cap_partenza c;
  trasferta_paese_partenza := trasferta_paese_partenza c;
  trasferta_cliente_nome := trasferta_cliente_nome c;
  trasferta_via_arrivo := trasferta_via_arrivo c;
  trasferta_citta_arrivo := trasferta_citta_arrivo c;
  trasferta_cap_arrivo := trasferta_cap_arrivo c;
  trasferta_paese_arrivo := trasferta_paese_arrivo c;
  trasferta_km := valore;
  trasferta_motivo := trasferta_motivo c;
  trasferta_veicolo := trasferta_veicolo c;
  trasferta_note := trasferta_note c;
  trasferta_andata_ritorno := trasferta_andata_ritorno c
|}.

Definition set_veicolo (valore : string) (c : Campi) : Campi := {|
  trasferta_data := trasferta_data c;
  trasferta_indirizzo_aziendale_nome := trasferta_indirizzo_aziendale_nome c;
  trasferta_via_partenza := trasferta_via_partenza c;
  trasferta_citta_partenza := trasferta_citta_partenza c;
  trasferta_cap_partenza := trasferta_cap_partenza c;
  trasferta_paese_partenza := trasferta_paese_partenza c;
  trasferta_cliente_nome := trasferta_cliente_nome c;
  trasferta_via_arrivo := trasferta_via_arrivo c;
  trasferta_citta_arrivo := trasferta_citta_arrivo c;
  trasferta_cap_arrivo := trasferta_cap_arrivo c;
  trasferta_paese_arrivo := trasferta_paese_arrivo c;
  trasferta_km := trasferta_km c;
  trasferta_motivo := trasferta_motivo c;
  trasferta_veicolo := valore;
  trasferta_note := trasferta_note c;
  trasferta_andata_ritorno := trasferta_andata_ritorno c
|}.

Definition set_andata_ritorno (b : bool) (c : Campi) : Campi := {|
  trasferta_data := trasferta_data c;
  trasferta_indirizzo_aziendale_nome := trasferta_indirizzo_aziendale_nome c;
  trasferta_via_partenza := trasferta_via_partenza c;
  trasferta_citta_partenza := trasferta_citta_partenza c;
  trasferta_cap_partenza := trasferta_cap_partenza c;
  trasferta_paese_partenza := trasferta_paese_partenza c;
  trasferta_cliente_nome := trasferta_cliente_nome c;
  trasferta_via_arrivo := trasferta_via_arrivo c;
  trasferta_citta_arrivo := trasferta_citta_arrivo c;
  trasferta_cap_arrivo := trasferta_cap_arrivo c;
  trasferta_paese_arrivo := trasferta_paese_arrivo c;
  trasferta_km := trasferta_km c;
  trasferta_motivo := trasferta_motivo c;
  trasferta_veicolo := trasferta_veicolo c;
  trasferta_note := trasferta_note c;
  trasferta_andata_ritorno := Some b
|}.

Definition set_campi (c : Campi) (p : Pagina) : Pagina := {|
  campi := c;
  trasferta_allegato := trasferta_allegato p;
  rimborso_stimato := rimborso_stimato p;
  allegato_preview := allegato_preview p
|}.

(** The [change] listener of the file input [trasferta-allegato]; [file] is
    [e.target.files[0]] as the file chooser left it. *)
Definition allegato_change (file : option File) (p : Pagina)
  : list Effetto * Pagina :=
  match file with
  | Some f =>
      if (MAX_ALLEGATO <? size f)%N
      then ([mostraToast "File troppo grande (max 10 MB)" error],
            {| campi := campi p; trasferta_allegato := None;
               rimborso_stimato := rimborso_stimato p;
               allegato_preview := None |})
      else ([],
            {| campi := campi p; trasferta_allegato := Some f;
               rimborso_stimato := rimborso_stimato p;
               allegato_preview := Some f |})
  | None =>
      ([],
       {| campi := campi p; trasferta_allegato := None;
          rimborso_stimato := rimborso_stimato p;
          allegato_preview := None |})
  end.

(** The [click] listener of [btn-rimuovi-allegato]. *)
Definition rimuovi_allegato (p : Pagina) : Pagina := {|
  campi := campi p;
  trasferta_allegato := None;
  rimborso_stimato := rimborso_stimato p;
  allegato_preview := None
|}.

(** [caricaAllegatoTrasferta]: the multipart upload, its toast, and whether
    it threw ([false]) or returned ([true]). *)
Definition caricaAllegatoTrasferta (trasferta_id : Z) (file : File)
  (upload : Esito unit) : list Effetto * bool :=
  match upload with
  | Risolta _ =>
      ([fetch POST (AllegatoUploadUrl trasferta_id) (FormData file);
        mostraToast "Allegato caricato con successo" success], true)
  | Rifiutata messaggio =>
      ([fetch POST (AllegatoUploadUrl trasferta_id) (FormData file);
        mostraToast ("Errore: " ++ messaggio) error], false)
  end.

(** The form after [e.target.reset()] and the assignments that follow it.
    The markup is not part of the sources: reset is taken to blank every
    control. *)
Definition campi_dopo_reset (oggi : string) (c : Campi) : Campi := {|
  trasferta_data := oggi;
  trasferta_indirizzo_aziendale_nome := "";
  trasferta_via_partenza := "";
  trasferta_citta_partenza := "";
  trasferta_cap_partenza := "";
  trasferta_paese_partenza := "Italia";
  trasferta_cliente_nome := "";
  trasferta_via_arrivo := "";
  trasferta_citta_arrivo := "";
  trasferta_cap_arrivo := "";
  trasferta_paese_arrivo := "Italia";
  trasferta_km := "";
  trasferta_motivo := "";
  trasferta_veicolo := "";
  trasferta_note := "";
  trasferta_andata_ritorno :=
    match trasferta_andata_ritorno c with
    | Some _ => Some false
    | None => None
    end
|}.

(** The [submit] listener of [form-trasferta].  [post] is the outcome of
    [fetchApi(API_TRASFERTE, {method: 'POST', ...})] with [risultato.id],
    [upload] the outcome of the attachment request, [oggi] today's date.
    The closing [caricaTrasferte()] is recorded as its GET request. *)
Definition submit_trasferta (post : Esito Z) (upload : Esito unit)
  (oggi : string) (p : Pagina) : list Effetto * Pagina :=
  let d := leggi_dati (campi p) in
  if campi_mancanti d
  then ([mostraToast "Compila tutti i campi obbligatori" warning], p)
  else
    match valida_cap d with
    | Some avviso => ([avviso], p)
    | None =>
        match post with
        | Rifiutata _ =>
            ([fetch POST API_TRASFERTE (Json d);
              mostraToast "Errore salvataggio trasferta" error], p)
        | Risolta id =>
            let allegato :=
              match trasferta_allegato p with
              | Some file =>
                  let (effetti, ok) :=
                    caricaAllegatoTrasferta id file upload in
                  if ok then effetti
                  else (effetti ++
                        [mostraToast
                           "Trasferta salvata, ma errore nell'upload allegato"
                           warning])%list
              | None => []
              end in
            (([fetch POST API_TRASFERTE (Json d);
               mostraToast "Trasferta salvata con successo" success]
              ++ allegato
              ++ [fetch GET API_TRASFERTE NessunCorpo])%list,
             {| campi := campi_dopo_reset oggi (campi p);
                trasferta_allegato := None;
                rimborso_stimato := "€ 0,00";
                allegato_preview := None |})
        end
    end.

(** The [submit] listener of [form-edit-trasferta]; [put] is the outcome of
    [fetchApi(`${API_TRASFERTE}/${id}`, {method: 'PUT', ...})]. *)
Definition submit_edit_trasferta (put : Esito unit) (p : PaginaModifica)
  : list Effetto * PaginaModifica :=
  let id := parseInt (edit_trasferta_id p) in
  let d := leggi_dati (edit_campi p) in
  match valida_cap d with
  | Some avviso => ([avviso], p)
  | None =>
      match put with
      | Rifiutata _ =>
          ([fetch PUT (TrasfertaUrl id) (Json d);
            mostraToast "Errore modifica trasferta" error], p)
      | Risolta _ =>
          ([fetch PUT (TrasfertaUrl id) (Json d);
            mostraToast "Trasferta modificata con successo" success;
            fetch GET API_TRASFERTE NessunCorpo],
           {| edit_trasferta_id := edit_trasferta_id p;
              edit_campi := edit_campi p;
              editTrasfertaModal := false |})
      end
  end.

(** A trip as the API returns it for [GET /api/trasferte/:id], its
    numbers as written in the JSON. *)
Record Indirizzo : Type := {
  nome : string; via : string; citta : string; cap : string; paese : string
}.

Record Trasferta : Type := {
  t_id : Z;
  t_data : string;
  t_partenza : option Indirizzo;
  t_arrivo : option Indirizzo;
  t_chilometri : Q;
  t_motivo : string;
  t_veicolo_id : Z;
  t_note : option string;
  t_andata_ritorno : option bool
}.

(** [ToString] of a number, as assigning a number to [input.value] does. *)
Variable number_to_string : jsnum -> string.

Definition campo (sel : Indirizzo -> string) (assente : string)
  (i : option Indirizzo) : string :=
  match i with
  | Some a => sel a
  | None => assente
  end.

(** The option values [popolaDropdownVeicoli] and [popolaDropdownMotivi]
    give a select: the empty first option, then one option per vehicle,
    whose value is the id, or per reason. *)
Definition popolaDropdownVeicoli (veicoli : list Veicolo) : list string :=
  "" :: map (fun v => number_to_string (Fin (v_id v # 1))) veicoli.

Definition popolaDropdownMotivi (motivi : list string) : list string :=
  "" :: motivi.

(** Assigning [valore] to the [value] of a select whose options have the
    values [opzioni]: the first option with that value becomes the
    selected one; when there is none the select is left without a
    selection and its value reads back as the empty string. *)
Definition select_value (opzioni : list string) (valore : string) : string :=
  if existsb (String.eqb valore) opzioni then valore else "".

(** The assignments of [apriFIenModificaTrasferta] to the controls of the
    edit form, from the fetched record.  The vehicle and the reason are
    selects, and [veicoli] and [motivi] are the arrays
    [caricaDatiIniziali] filled them from when the page was loaded; the
    other controls are inputs. *)
Definition popola_campi (veicoli : list Veicolo) (motivi : list string)
  (trasferta : Trasferta) (c : Campi) : Campi := {|
  trasferta_data := t_data trasferta;
  trasferta_indirizzo_aziendale_nome := campo nome "" (t_partenza trasferta);
  trasferta_via_partenza := campo via "" (t_partenza trasferta);
  trasferta_citta_partenza := campo citta "" (t_partenza trasferta);
  trasferta_cap_partenza := campo cap "" (t_partenza trasferta);
  trasferta_paese_partenza := campo paese "Italia" (t_partenza trasferta);
  trasferta_cliente_nome := campo nome "" (t_arrivo trasferta);
  trasferta_via_arrivo := campo via "" (t_arrivo trasferta);
  trasferta_citta_arrivo := campo citta "" (t_arrivo trasferta);
  trasferta_cap_arrivo := campo cap "" (t_arrivo trasferta);
  trasferta_paese_arrivo := campo paese "Italia" (t_arrivo trasferta);
  trasferta_km := number_to_string (arrotonda (t_chilometri trasferta));
  trasferta_motivo :=
    select_value (popolaDropdownMotivi motivi) (t_motivo trasferta);
  trasferta_veicolo :=
    select_value (popolaDropdownVeicoli veicoli)
      (number_to_string (Fin (intero64 (t_veicolo_id trasferta) # 1)));
  trasferta_note :=
    match t_note trasferta with
    | Some s => s
    | None => ""
    end;
  trasferta_andata_ritorno :=
    match trasferta_andata_ritorno c with
    | Some _ => Some (checked (t_andata_ritorno trasferta))
    | None => None
    end
|}.

(** [apriFIenModificaTrasferta(id)]: on success every input of the edit
    form is assigned from the fetched record and the dialog is shown.  The
    round-trip checkbox is dereferenced without [?.]: when it is absent the
    assignment throws after the other inputs were filled, and the [catch]
    reports the error without opening the dialog. *)
Definition apriFIenModificaTrasferta (veicoli : list Veicolo)
  (motivi : list string) (id : Z) (risposta : Esito Trasferta)
  (p : PaginaModifica) : list Effetto * PaginaModifica :=
  match risposta with
  | Rifiutata _ =>
      ([fetch GET (TrasfertaUrl (Some id)) NessunCorpo;
        mostraToast "Errore caricamento trasferta" error], p)
  | Risolta trasferta =>
      let popolata aperta := {|
        edit_trasferta_id :=
          number_to_string (Fin (intero64 (t_id trasferta) # 1));
        edit_campi := popola_campi veicoli motivi trasferta (edit_campi p);
        editTrasfertaModal := aperta |} in
      match trasferta_andata_ritorno (edit_campi p) with
      | Some _ =>
          ([fetch GET (TrasfertaUrl (Some id)) NessunCorpo], popolata true)
      | None =>
          ([fetch GET (TrasfertaUrl (Some id)) NessunCorpo;
            mostraToast "Errore caricamento trasferta" error],
           popolata (editTrasfertaModal p))
      end
  end.

(** Events of the create page. *)
Inductive Evento : Type :=
| InputKm (valore : string)
| ChangeVeicolo (valore : string)
| ChangeAndataRitorno (b : bool)
| Compila (nuovi : Campi)
| ChangeAllegato (file : option File)
| ClickRimuoviAllegato
| SubmitForm (post : Esito Z) (upload : Esito unit) (oggi : string).

(** The listeners registered on the create page.  The round-trip listener
    exists only when the checkbox does. *)
Definition gestisci (veicoli : list Veicolo) (ev : Evento) (p : Pagina)
  : list Effetto * Pagina :=
  match ev with
  | InputKm valore =>
      ([], aggiornaRimborso veicoli (set_campi (set_km valore (campi p)) p))
  | ChangeVeicolo valore =>
      ([], aggiornaRimborso veicoli
             (set_campi (set_veicolo valore (campi p)) p))
  | ChangeAndataRitorno b =>
      match trasferta_andata_ritorno (campi p) with
      | Some _ =>
          ([], aggiornaRimborso veicoli
                 (set_campi (set_andata_ritorno b (campi p)) p))
      | None => ([], p)
      end
  | Compila nuovi => ([], set_campi (compila nuovi (campi p)) p)
  | ChangeAllegato file => allegato_change file p
  | ClickRimuoviAllegato => ([], rimuovi_allegato p)
  | SubmitForm post upload oggi => submit_trasferta post upload oggi p
  end.

(** A session: the effects of a sequence of events, in order. *)
Fixpoint esegui (veicoli : list Veicolo) (evs : list Evento) (p : Pagina)
  : list Effetto * Pagina :=
  match evs with
  | [] => ([], p)
  | ev :: rest =>
      let (e1, p1) := gestisci veicoli ev p in
      let (e2, p2) := esegui veicoli rest p1 in
      ((e1 ++ e2)%list, p2)
  end.

End Builtins.

(** *** Vocabulary of the estimate *)

(** The round-trip box is on the page and ticked. *)
Definition andata_e_ritorno (c : Campi) : Prop :=
  trasferta_andata_ritorno c = Some true.

(** [v] is the vehicle the select points at: the select holds a number
    other than zero and [v] is the first vehicle of the fleet with that
    id. *)
Definition veicolo_selezionato (veicoli : list Veicolo) (c : Campi)
  (v : Veicolo) : Prop :=
  exists (z : Z) (prima dopo : list Veicolo),
    parseInt (trasferta_veicolo c) = Some z /\ z <> 0%Z
    /\ veicoli = (prima ++ v :: dopo)%list
    /\ v_id v = z
    /\ forall u, In u prima -> v_id u <> z.

(** The events on which [calcolaMRimbor] registered [aggiornaRimborso]. *)
Definition ricalcola (ev : Evento) (p : Pagina) : bool :=
  match ev with
  | InputKm _ | ChangeVeicolo _ => true
  | ChangeAndataRitorno _ =>
      match trasferta_andata_ritorno (campi p) with
      | Some _ => true
      | None => false
      end
  | _ => false
  end.

(** The multipart request [caricaAllegatoTrasferta] sends. *)
Definition upload_di (id : Z) (f : File) : Effetto :=
  fetch POST (AllegatoUploadUrl id) (FormData f).

(** The requests among the effects of a handler. *)
Definition is_fetch (e : Effetto) : bool :=
  match e with
  | fetch _ _ _ => true
  | mostraToast _ _ => false
  end.

Definition richieste (l : list Effetto) : list Effetto := filter is_fetch l.

(** A stand-in for the currency formatter in the examples: cents rounded
    half up, decimal comma, no digit grouping. *)
Definition formato_esempio (importo : jsnum) : string :=
  match importo with
  | NaN => "NaN"
  | Inf negative => if negative then "-∞ €" else "∞ €"
  | NegZero => "-0,00 €"
  | Fin x =>
      let cent := Qfloor (Qabs x * (100 # 1) + (1 # 2))%Q in
      let c := (cent mod 100)%Z in
      (if Qsign_neg x then "-" else "") ++
      NilZero.string_of_int (Z.to_int (cent / 100)) ++ "," ++
      (if (c <? 10)%Z then "0" else "") ++
      NilZero.string_of_int (Z.to_int c) ++ " €"
  end.

(** *** Vocabulary of the validation rules *)

(** One of the required inputs is empty: date, street, city and postal
    code of both addresses, reason, vehicle. *)
Definition campo_obbligatorio_vuoto (c : Campi) : Prop :=
  trasferta_data c = "" \/ trasferta_via_partenza c = ""
  \/ trasferta_citta_partenza c = "" \/ trasferta_cap_partenza c = ""
  \/ trasferta_via_arrivo c = "" \/ trasferta_citta_arrivo c = ""
  \/ trasferta_cap_arrivo c = "" \/ trasferta_motivo c = ""
  \/ trasferta_veicolo c = "".

Definition cap_non_valido (c : Campi) : Prop :=
  five_digits (trasferta_cap_partenza c) = false
  \/ five_digits (trasferta_cap_arrivo c) = false.

(** The distance is not strictly positive. *)
Definition distanza_non_positiva (c : Campi) : Prop :=
  gt (parseFloat (trasferta_km c)) (Fin 0) = false.

(** The distance does not parse to a number, or parses to zero. *)
Definition distanza_nulla (c : Campi) : Prop :=
  num_falsy (parseFloat (trasferta_km c)) = true.

(** Every required input is filled in, the vehicle value is a non-zero
    id, the distance is a non-zero number and both postal codes are five
    digits. *)
Definition compilata (c : Campi) : Prop :=
  trasferta_data c <> "" /\ trasferta_via_partenza c <> ""
  /\ trasferta_citta_partenza c <> "" /\ trasferta_cap_partenza c <> ""
  /\ trasferta_via_arrivo c <> "" /\ trasferta_citta_arrivo c <> ""
  /\ trasferta_cap_arrivo c <> "" /\ trasferta_motivo c <> ""
  /\ int_falsy (parseInt (trasferta_veicolo c)) = false
  /\ num_falsy (parseFloat (trasferta_km c)) = false
  /\ five_digits (trasferta_cap_partenza c) = true
  /\ five_digits (trasferta_cap_arrivo c) = true.

(** A blocked submission: one warning toast, nothing sent, page untouched. *)
Definition bloccata {P : Type} (r : list Effetto * P) (p : P) : Prop :=
  (exists messaggio, fst r = [mostraToast messaggio warning]) /\ snd r = p.

(** The file held by the file input, if any, is within the size limit. *)
Definition allegato_ok (p : Pagina) : Prop :=
  match trasferta_allegato p with
  | Some f => (size f <= MAX_ALLEGATO)%N
  | None => True
  end.

(** A form for the examples: complete, but for the postal code of
    departure, the reason and the distance, which each example chooses. *)
Definition modulo_esempio (cap_partenza motivo km : string) : Campi := {|
  trasferta_data := "2026-01-13";
  trasferta_indirizzo_aziendale_nome := "Sede";
  trasferta_via_partenza := "Via Roma 1";
  trasferta_citta_partenza := "Torino";
  trasferta_cap_partenza := cap_partenza;
  trasferta_paese_partenza := "Italia";
  trasferta_cliente_nome := "Cliente";
  trasferta_via_arrivo := "Corso Italia 5";
  trasferta_citta_arrivo := "Milano";
  trasferta_cap_arrivo := "20122";
  trasferta_paese_arrivo := "Italia";
  trasferta_km := km;
  trasferta_motivo := motivo;
  trasferta_veicolo := "3";
  trasferta_note := "";
  trasferta_andata_ritorno := Some false
|}.

Definition pagina_esempio (c : Campi) (allegato : option File) : Pagina := {|
  campi := c;
  trasferta_allegato := allegato;
  rimborso_stimato := "€ 0,00";
  allegato_preview := allegato
|}.

(** The create page as [DOMContentLoaded] finds it. *)
Definition campi_vuoti : Campi := {|
  trasferta_data := "";
  trasferta_indirizzo_aziendale_nome := "";
  trasferta_via_partenza := "";
  trasferta_citta_partenza := "";
  trasferta_cap_partenza := "";
  trasferta_paese_partenza := "Italia";
  trasferta_cliente_nome := "";
  trasferta_via_arrivo := "";
  trasferta_citta_arrivo := "";
  trasferta_cap_arrivo := "";
  trasferta_paese_arrivo := "Italia";
  trasferta_km := "";
  trasferta_motivo := "";
  trasferta_veicolo := "";
  trasferta_note := "";
  trasferta_andata_ritorno := Some false
|}.

Definition pagina_iniziale : Pagina := {|
  campi := campi_vuoti;
  trasferta_allegato := None;
  rimborso_stimato := "€ 0,00";
  allegato_preview := None
|}.

End Trasferte.

(* ===================================================================== *)
(** ** archivio.js: archive table, selection set, bulk exports *)
(* ===================================================================== *)

Module Archivio.
Import Js.

(** *** The selection set

    A JavaScript [Set] of numbers keeps its elements in insertion order;
    [Array.from] and the size read that order. *)

Definition has (s : list Z) (x : Z) : bool := existsb (Z.eqb x) s.

Definition add (s : list Z) (x : Z) : list Z :=
  if has s x then s else s ++ [x].

Definition delete (s : list Z) (x : Z) : list Z :=
  filter (fun y => negb (y =? x)%Z) s.

Definition size (s : list Z) : nat := length s.

(** *** Data and page state *)

(** A trip of the archive.  [fullYear] and [month] are
    [new Date(t.data).getFullYear()] and [.getMonth()] in the time zone of
    the browser; [None] stands for the NaN of an invalid date. *)
Record Trasferta : Type := {
  id : Z;
  fullYear : option Z;
  month : option Z;
  ha_allegato : bool
}.

(** A [.cb-trasferta] checkbox with its [data-id]. *)
Record Riga : Type := {
  data_id : Z;
  cb_checked : bool
}.

(** The table [visualizzaTutteLeTrasferte] writes into [trasferte-list],
    with the [trasferte] array its listeners closed over. *)
Record Tabella : Type := {
  trasferte : list Trasferta;
  righe : list Riga;
  cb_select_all : bool;
  selection_counter : nat
}.

Record Stato : Type := {
  allTrasferte : list Trasferta;
  filteredTrasferte : list Trasferta;
  selectedTrasferte : list Z;
  quick_year_select : string;
  quick_month_select : string;
  trasferte_list : option Tabella     (* [None]: no table in the page *)
}.

Definition stato_iniziale : Stato := {|
  allTrasferte := [];
  filteredTrasferte := [];
  selectedTrasferte := [];
  quick_year_select := "";
  quick_month_select := "";
  trasferte_list := None
|}.

Inductive Tipo : Type := info | success | warning | error.

Inductive Formato : Type := excel | pdf.

Inductive Endpoint : Type :=
| ESPORTA_EXCEL          (* /api/esporta-excel *)
| ESPORTA_PDF            (* /api/esporta-pdf *)
| DOWNLOAD_ZIP.          (* /api/trasferte/allegati/download-zip *)

(** Observable effects: a toast, a POST carrying [trasferta_ids], and the
    click on a temporary link that saves the returned blob. *)
Inductive Effetto : Type :=
| mostraToast (messaggio : string) (tipo : Tipo)
| fetch (url : Endpoint) (trasferta_ids : list Z)
| download (nomeFile : string).

(** What the backend answers to an export request. *)
Inductive Risposta : Type :=
| rete_errore                        (* [fetch] rejects *)
| non_ok (errore : option string)    (* [!response.ok], body read as JSON *)
| non_ok_illeggibile                 (* [!response.ok], body is not JSON *)
| ok_blob.                           (* the binary *)

(** *** Rendering *)

Definition set_tabella (tab : option Tabella) (sel : list Z) (st : Stato)
  : Stato := {|
  allTrasferte := allTrasferte st;
  filteredTrasferte := filteredTrasferte st;
  selectedTrasferte := sel;
  quick_year_select := quick_year_select st;
  quick_month_select := quick_month_select st;
  trasferte_list := tab
|}.

(** [setupCheckboxListeners(trasferte)] at registration time: a fresh
    checkbox is ticked when its id is in the set, and [aggiornaContatore]
    writes the size of the set. *)
Definition setupCheckboxListeners (lista : list Trasferta) (sel : list Z)
  : Tabella := {|
  trasferte := lista;
  righe := map (fun t => {| data_id := id t; cb_checked := has sel (id t) |})
               lista;
  cb_select_all := false;
  selection_counter := size sel
|}.

(** [visualizzaTutteLeTrasferte(trasferte, anno, mese)]: an empty list
    leaves only the "no trips" notice. *)
Definition visualizzaTutteLeTrasferte (lista : list Trasferta) (st : Stato)
  : Stato := {|
  allTrasferte := allTrasferte st;
  filteredTrasferte := lista;
  selectedTrasferte := selectedTrasferte st;
  quick_year_select := quick_year_select st;
  quick_month_select := quick_month_select st;
  trasferte_list :=
    match lista with
    | [] => None
    | _ => Some (setupCheckboxListeners lista (selectedTrasferte st))
    end
|}.

(** [x === y] between a date component and a parsed number. *)
Definition strict_eq (x y : option Z) : bool :=
  match x, y with
  | Some a, Some b => (a =? b)%Z
  | _, _ => false
  end.

(** [applicaFiltri]. *)
Definition applicaFiltri (st : Stato) : Stato :=
  let anno :=
    if str_falsy (quick_year_select st) then None
    else parseInt (quick_year_select st) in
  let mese :=
    if String.eqb (quick_month_select st) "" then None
    else Some (parseInt (quick_month_select st)) in
  let per_anno :=
    if int_falsy anno then allTrasferte st
    else filter (fun t => strict_eq (fullYear t) anno) (allTrasferte st) in
  let per_mese :=
    match mese with
    | None => per_anno
    | Some m => filter (fun t => strict_eq (month t) m) per_anno
    end in
  visualizzaTutteLeTrasferte per_mese st.

(** *** Checkbox listeners *)

Definition set_checked (b : bool) (r : Riga) : Riga :=
  {| data_id := data_id r; cb_checked := b |}.

Fixpoint toggle_riga (idx : nat) (l : list Riga) : list Riga :=
  match l, idx with
  | [], _ => []
  | r :: rest, O => set_checked (negb (cb_checked r)) r :: rest
  | r :: rest, S n => r :: toggle_riga n rest
  end.

(** The [change] listener of the row checkbox [idx], after the browser
    flipped it. *)
Definition on_change_riga (idx : nat) (st : Stato) : Stato :=
  match trasferte_list st with
  | None => st
  | Some tab =>
      match nth_error (righe tab) idx with
      | None => st
      | Some r =>
          let ora := negb (cb_checked r) in
          let sel := if ora then add (selectedTrasferte st) (data_id r)
                     else delete (selectedTrasferte st) (data_id r) in
          set_tabella
            (Some {| trasferte := trasferte tab;
                     righe := toggle_riga idx (righe tab);
                     cb_select_all :=
                       (size sel =? length (trasferte tab))%nat;
                     selection_counter := size sel |})
            sel st
      end
  end.

(** What the [forEach] of the select-all listener does to the set: every
    row id enters it or leaves it, in row order. *)
Definition seleziona (tutti : bool) (checkboxes : list Riga) (s : list Z)
  : list Z :=
  fold_left
    (fun s cb => if tutti then add s (data_id cb) else delete s (data_id cb))
    checkboxes s.

(** The [change] listener of [cb-select-all] once its box holds [tutti]:
    every row checkbox takes that value and the set is updated row by
    row. *)
Definition on_change_select_all (tutti : bool) (st : Stato) : Stato :=
  match trasferte_list st with
  | None => st
  | Some tab =>
      let sel := seleziona tutti (righe tab) (selectedTrasferte st) in
      set_tabella
        (Some {| trasferte := trasferte tab;
                 righe := map (set_checked tutti) (righe tab);
                 cb_select_all := tutti;
                 selection_counter := size sel |})
        sel st
  end.

(** *** Exports *)

Definition toUpperCase (formato : Formato) : string :=
  match formato with
  | excel => "EXCEL"
  | pdf => "PDF"
  end.

Definition nat_to_string (n : nat) : string :=
  NilEmpty.string_of_uint (Nat.to_uint n).

(** [esportaSelezionate(trasferte, formato)]; [oggi] is today's ISO date. *)
Definition esportaSelezionate (risposta : Risposta) (oggi : string)
  (lista : list Trasferta) (formato : Formato) : list Effetto :=
  match lista with
  | [] => [mostraToast "Nessuna trasferta da esportare" warning]
  | _ =>
      let richiesta :=
        [mostraToast ("📥 Generazione " ++ toUpperCase formato ++ "...") info;
         fetch (match formato with
                | excel => ESPORTA_EXCEL
                | pdf => ESPORTA_PDF
                end)
               (map id lista)] in
      let fallita :=
        mostraToast ("❌ Errore durante l'export " ++ toUpperCase formato)
          error in
      match risposta with
      | rete_errore | non_ok_illeggibile => richiesta ++ [fallita]
      | non_ok errore =>
          let generico := "Errore durante l'export " ++ toUpperCase formato in
          richiesta ++
          [mostraToast
             (match errore with
              | Some m => if str_falsy m then generico else m
              | None => generico
              end) error]
      | ok_blob =>
          richiesta ++
          [download ("trasferte_" ++ oggi ++
                     match formato with
                     | excel => ".xlsx"
                     | pdf => ".pdf"
                     end);
           mostraToast
             ("✅ " ++ toUpperCase formato ++ " esportato (" ++
              nat_to_string (length lista) ++ " trasferte)") success]
      end
  end.

(** The listeners of [btn-export-selezionati-excel] and
    [btn-export-selezionati-pdf]. *)
Definition click_export_selezionati (formato : Formato)
  (risposta : Risposta) (oggi : string) (st : Stato) : list Effetto :=
  if (size (selectedTrasferte st) =? 0)%nat
  then [mostraToast "Seleziona almeno una trasferta" warning]
  else
    esportaSelezionate risposta oggi
      (filter (fun t => has (selectedTrasferte st) (id t))
              (filteredTrasferte st))
      formato.

(** [scaricaAllegatiZip(traferteIds)]. *)
Definition scaricaAllegatiZip (risposta : Risposta) (oggi : string)
  (filtrate : list Trasferta) (traferteIds : list Z) : list Effetto :=
  let conAllegati :=
    filter
      (fun i =>
         match find (fun t => (id t =? i)%Z) filtrate with
         | Some t => ha_allegato t
         | None => false
         end)
      traferteIds in
  match conAllegati with
  | [] =>
      [mostraToast "Nessun allegato disponibile nelle trasferte selezionate"
         warning]
  | _ =>
      match risposta with
      | rete_errore | non_ok_illeggibile =>
          [fetch DOWNLOAD_ZIP conAllegati;
           mostraToast "Errore durante il download" error]
      | non_ok errore =>
          [fetch DOWNLOAD_ZIP conAllegati;
           mostraToast
             (match errore with
              | Some m =>
                  if str_falsy m then "Errore durante il download" else m
              | None => "Errore durante il download"
              end) error]
      | ok_blob =>
          [fetch DOWNLOAD_ZIP conAllegati;
           download ("trasferte_allegati_" ++ oggi ++ ".zip");
           mostraToast
             ("✅ ZIP scaricato con " ++
              nat_to_string (length conAllegati) ++ " allegati") success]
      end
  end.

(** The listener of [btn-download-allegati-zip]. *)
Definition click_download_zip (risposta : Risposta) (oggi : string)
  (st : Stato) : list Effetto :=
  if (size (selectedTrasferte st) =? 0)%nat
  then [mostraToast "Seleziona almeno una trasferta" warning]
  else scaricaAllegatiZip risposta oggi (filteredTrasferte st)
         (selectedTrasferte st).

(** The three bulk actions on the selection. *)
Inductive Azione : Type :=
| export_selezionati (formato : Formato)
| download_allegati_zip.

Definition click_azione (a : Azione) (risposta : Risposta) (oggi : string)
  (st : Stato) : list Effetto :=
  match a with
  | export_selezionati formato =>
      click_export_selezionati formato risposta oggi st
  | download_allegati_zip => click_download_zip risposta oggi st
  end.

(** *** Events of the archive page *)

Definition set_filtri (anno mese : string) (st : Stato) : Stato := {|
  allTrasferte := allTrasferte st;
  filteredTrasferte := filteredTrasferte st;
  selectedTrasferte := selectedTrasferte st;
  quick_year_select := anno;
  quick_month_select := mese;
  trasferte_list := trasferte_list st
|}.

Inductive Evento : Type :=
| Caricate (ordinate : list Trasferta)   (* [caricaTrasferte] succeeded *)
| ChangeYear (valore : string)
| ChangeMonth (valore : string)
| RicercaAvanzata (items : list Trasferta)
| ChangeRiga (idx : nat)
| ChangeSelectAll
| ClickSelectAll
| ClickDeselectAll.

(** [Caricate] carries the fetched array after its sort by date;
    [inizializzaFiltri] rebuilds both selects, which selects their first,
    empty option. *)
Definition gestisci (ev : Evento) (st : Stato) : Stato :=
  match ev with
  | Caricate ordinate =>
      visualizzaTutteLeTrasferte ordinate
        {| allTrasferte := ordinate;
           filteredTrasferte := filteredTrasferte st;
           selectedTrasferte := selectedTrasferte st;
           quick_year_select := "";
           quick_month_select := "";
           trasferte_list := trasferte_list st |}
  | ChangeYear valore =>
      applicaFiltri (set_filtri valore (quick_month_select st) st)
  | ChangeMonth valore =>
      applicaFiltri (set_filtri (quick_year_select st) valore st)
  | RicercaAvanzata items => visualizzaTutteLeTrasferte items st
  | ChangeRiga idx => on_change_riga idx st
  | ChangeSelectAll =>
      match trasferte_list st with
      | Some tab => on_change_select_all (negb (cb_select_all tab)) st
      | None => st
      end
  | ClickSelectAll => on_change_select_all true st
  | ClickDeselectAll => on_change_select_all false st
  end.

Definition esegui (evs : list Evento) (st : Stato) : Stato :=
  fold_left (fun s ev => gestisci ev s) evs st.

(** *** Vocabulary of the properties *)

(** The ids of the rendered rows. *)
Definition ids_righe (tab : Tabella) : list Z := map data_id (righe tab).

(** What every render establishes and every listener keeps: the set has
    no repetition, and the table shows one checkbox per trip of the list
    it was rendered from, which is the current filtered list. *)
Definition coerente (st : Stato) : Prop :=
  NoDup (selectedTrasferte st)
  /\ match trasferte_list st with
     | None => True
     | Some tab =>
         trasferte tab = filteredTrasferte st
         /\ ids_righe tab = map id (trasferte tab)
     end.

(** The ids a bulk action puts in its request: the selected trips of the
    filtered list, in list order, for Excel and PDF; the selected ids whose
    trip is in the filtered list and has an attachment, in selection order,
    for the ZIP. *)
Definition ids_inviati (a : Azione) (st : Stato) : list Z :=
  match a with
  | export_selezionati _ =>
      map id (filter (fun t => has (selectedTrasferte st) (id t))
                     (filteredTrasferte st))
  | download_allegati_zip =>
      filter
        (fun i =>
           match find (fun t => (id t =? i)%Z) (filteredTrasferte st) with
           | Some t => ha_allegato t
           | None => false
           end)
        (selectedTrasferte st)
  end.

Definition endpoint_di (a : Azione) : Endpoint :=
  match a with
  | export_selezionati excel => ESPORTA_EXCEL
  | export_selezionati pdf => ESPORTA_PDF
  | download_allegati_zip => DOWNLOAD_ZIP
  end.

Definition is_fetch (e : Effetto) : bool :=
  match e with
  | fetch _ _ => true
  | _ => false
  end.

Definition is_download (e : Effetto) : bool :=
  match e with
  | download _ => true
  | _ => false
  end.

Definition richieste (l : list Effetto) : list Effetto := filter is_fetch l.

Definition scaricati (l : list Effetto) : list Effetto := filter is_download l.

(** Trips for the examples: [n] trips numbered from [k], all of [anno]. *)
Definition trasferta_esempio (k anno : Z) (allegato : bool) : Trasferta :=
  {| id := k; fullYear := Some anno; month := Some 0%Z;
     ha_allegato := allegato |}.

Fixpoint trasferte_esempio (n : nat) (k anno : Z) : list Trasferta :=
  match n with
  | O => []
  | S m => trasferta_esempio k anno false
           :: trasferte_esempio m (k + 1) anno
  end.

End Archivio.

(* ===================================================================== *)
(** ** address-autocomplete.js: vocabulary for further properties *)
(* ===================================================================== *)

Module AutocompleteVocabolario.
Import Js AddressAutocomplete.

(** The characters that open or close markup or an attribute value. *)
Definition is_markup (c : ascii) : bool :=
  let n := nat_of_ascii c in
  ((n =? 60) || (n =? 62) || (n =? 34) || (n =? 39))%nat.

Fixpoint contains_char (p : ascii -> bool) (s : string) : bool :=
  match s with
  | EmptyString => false
  | String c r => p c || contains_char p r
  end.

(** The value of [r.k] when reading it does not throw. *)
Definition prop_val (r : jsval) (k : string) : jsval :=
  match r with
  | Object fields => lookup k fields
  | _ => Undefined
  end.

Definition is_nullish (v : jsval) : bool :=
  match v with
  | Undefined | Null => true
  | _ => false
  end.

(** [s] is what the arrow function of [results.map] makes of [r]. *)
Definition normalizzato (r : jsval) (s : Suggestion) : Prop :=
  name s = prop_val r "display_name"
  /\ address s = prop_val r "address"
  /\ lat s = parseFloat_val (prop_val r "lat")
  /\ lon s = parseFloat_val (prop_val r "lon")
  /\ type s = (if falsy (prop_val r "type") then Str "address"
               else prop_val r "type").

(** The items of the list, when it shows any, stand for [lastResults]
    one by one: same number, same order, each with the name of its
    result as value. *)
Definition allineato (st : Stato) : Prop :=
  match list_innerHTML st with
  | voci items =>
      Forall2 (fun item r => data_value item = testo (name r))
        items (lastResults st)
  | _ => True
  end.

(** The call a burst of keystrokes ending in [ultimo] leaves to the
    debounce timer. *)
Definition chiamata_di (ultimo : string) (numero : nat)
  : list (nat * string) :=
  if (String.length (trim ultimo) <? 2)%nat then []
  else [(numero, trim ultimo)].

End AutocompleteVocabolario.

(* ===================================================================== *)
(** ** trasferte.js: vocabulary for further properties, distance lookup *)
(* ===================================================================== *)

Module TrasferteVocabolario.
Import Js Trasferte.


(** The [data] object that holds the values of a fetched trip with both
    addresses, its numbers as the page holds them. *)
Definition dati_di (t : Trasferta) (partenza arrivo : Indirizzo) : Dati := {|
  data := t_data t;
  nome_partenza := nome partenza;
  via_partenza := via partenza;
  citta_partenza := citta partenza;
  cap_partenza := cap partenza;
  paese_partenza := paese partenza;
  nome_arrivo := nome arrivo;
  via_arrivo := via arrivo;
  citta_arrivo := citta arrivo;
  cap_arrivo := cap arrivo;
  paese_arrivo := paese arrivo;
  chilometri := arrotonda (t_chilometri t);
  motivo := t_motivo t;
  veicolo_id := Some (intero64 (t_veicolo_id t));
  note := match t_note t with
          | Some x => x
          | None => ""
          end;
  andata_ritorno := checked (t_andata_ritorno t)
|}.

(** A number of the record survives being written into a control and
    parsed back. *)
Definition rilegge_float (to_string : jsnum -> string) (x : Q) : Prop :=
  parseFloat (to_string (arrotonda x)) = arrotonda x.

Definition rilegge_int (to_string : jsnum -> string) (z : Z) : Prop :=
  parseInt (to_string (Fin (intero64 z # 1))) = Some (intero64 z).

(** The reason of the trip is one the reason select offers: one of the
    configured reasons, or none. *)
Definition motivo_in_elenco (motivi : list string) (t : Trasferta) : Prop :=
  t_motivo t = "" \/ In (t_motivo t) motivi.

Definition motivo_fuori_elenco (motivi : list string) (t : Trasferta)
  : Prop :=
  t_motivo t <> "" /\ ~ In (t_motivo t) motivi.

(** The vehicle of the trip is one of the fleet the vehicle select was
    filled from. *)
Definition veicolo_in_elenco (veicoli : list Veicolo) (t : Trasferta)
  : Prop :=
  exists v : Veicolo, In v veicoli /\ v_id v = intero64 (t_veicolo_id t).

(** No vehicle of the fleet has an id that is written as the id of the
    trip's vehicle is, and that id is not written as the empty text. *)
Definition veicolo_fuori_elenco (to_string : jsnum -> string)
  (veicoli : list Veicolo) (t : Trasferta) : Prop :=
  to_string (Fin (intero64 (t_veicolo_id t) # 1)) <> ""
  /\ forall v : Veicolo,
       In v veicoli ->
       to_string (Fin (v_id v # 1))
       <> to_string (Fin (intero64 (t_veicolo_id t) # 1)).

(** A stand-in for the conversion of numbers to text in the examples:
    exact for integers, which is all the examples use. *)
Definition numero_esempio (x : jsnum) : string :=
  match x with
  | NaN => "NaN"
  | Inf negative => if negative then "-Infinity" else "Infinity"
  | NegZero => "0"
  | Fin q =>
      if (Z.pos (Qden q) =? 1)%Z
      then (if (Qnum q <? 0)%Z then "-" else "")
           ++ NilZero.string_of_int (Z.to_int (Z.abs (Qnum q)))
      else "?"
  end.

(** A stand-in for the conversion of other values to text in the
    examples, which only assign strings. *)
Definition numero_jsval (v : AddressAutocomplete.jsval) : string :=
  match v with
  | AddressAutocomplete.Number q => numero_esempio (Fin q)
  | AddressAutocomplete.Str s => s
  | _ => "?"
  end.

End TrasferteVocabolario.

(** The [click] listener of [btn-calcola-distanza] (trasferte.js, section
    4). *)
Module Distanza.
Import Js Trasferte.

(** The JSON the distance service answers with; [km] is the value of the
    Number the page holds for [distance_km]. *)
Record Risultato : Type := {
  result_error : option string;
  km : option Q;
  metodo : option string;
  status : option string
}.

Inductive Effetto : Type :=
| mostraToast (messaggio : string) (tipo : Tipo)
| fetch_distanza (origine destinazione : string).

(** The button itself. *)
Record Bottone : Type := { disabled : bool; textContent : string }.

Definition truthy (x : option string) : bool :=
  match x with
  | Some v => negb (str_falsy v)
  | None => false
  end.

(** [result.metodo || result.status || 'automatico']. *)
Definition metodo_di (r : Risultato) : string :=
  match metodo r, status r with
  | Some m, Some st => if str_falsy m then (if str_falsy st then "automatico" else st) else m
  | Some m, None => if str_falsy m then "automatico" else m
  | None, Some st => if str_falsy st then "automatico" else st
  | None, None => "automatico"
  end.

Section Builtins.

Variable intl_currency_eur : jsnum -> string.
Variable number_to_string : jsnum -> string.

(** The listener.  [risposta] is the outcome of
    [fetchApi(API_DISTANZA, ...)]; a resolved [None] is a JSON [null],
    whose [error] cannot be read.  On success the distance is written
    into the km input and [calcolaMRimbor()] recomputes the estimate. *)
Definition click_calcola_distanza (veicoli : list Veicolo)
  (risposta : Esito (option Risultato)) (p : Pagina) (btn : Bottone)
  : list Effetto * Pagina * Bottone :=
  let viaPartenza := trim (trasferta_via_partenza (campi p)) in
  let cittaPartenza := trim (trasferta_citta_partenza (campi p)) in
  let capPartenza := trim (trasferta_cap_partenza (campi p)) in
  let viaArrivo := trim (trasferta_via_arrivo (campi p)) in
  let cittaArrivo := trim (trasferta_citta_arrivo (campi p)) in
  let capArrivo := trim (trasferta_cap_arrivo (campi p)) in
  if str_falsy viaPartenza || str_falsy cittaPartenza || str_falsy capPartenza
  then ([mostraToast "Inserisci indirizzo di partenza completo" warning],
        p, btn)
  else if str_falsy viaArrivo || str_falsy cittaArrivo || str_falsy capArrivo
  then ([mostraToast "Inserisci indirizzo di arrivo completo" warning],
        p, btn)
  else
    let partenza := viaPartenza ++ ", " ++ capPartenza ++ " " ++ cittaPartenza in
    let arrivo := viaArrivo ++ ", " ++ capArrivo ++ " " ++ cittaArrivo in
    let pronto := {| disabled := false;
                     textContent := "📍 Calcola Distanza" |} in
    let fallita :=
      ([fetch_distanza partenza arrivo;
        mostraToast "Errore calcolo distanza" error], p, pronto) in
    match risposta with
    | Rifiutata _ => fallita
    | Risolta None => fallita
    | Risolta (Some result) =>
        if truthy (result_error result)
        then ([fetch_distanza partenza arrivo;
               mostraToast
                 ("Errore: " ++ match result_error result with
                                | Some e => e
                                | None => ""
                                end) error], p, pronto)
        else
          match km result with
          | Some k =>
              if Qeq_bool k 0
              then ([fetch_distanza partenza arrivo;
                     mostraToast "Impossibile calcolare la distanza" warning],
                    p, pronto)
              else ([fetch_distanza partenza arrivo;
                     mostraToast
                       ("✓ Distanza: " ++ number_to_string (Fin k) ++ " km ("
                        ++ metodo_di result ++ ")") success],
                    aggiornaRimborso intl_currency_eur veicoli
                      (set_campi (set_km (number_to_string (Fin k)) (campi p))
                         p),
                    pronto)
          | None =>
              ([fetch_distanza partenza arrivo;
                mostraToast "Impossibile calcolare la distanza" warning],
               p, pronto)
          end
    end.

End Builtins.

(** One of the three parts of an address is blank. *)
Definition incompleto (via_ citta_ cap_ : string) : Prop :=
  trim via_ = "" \/ trim citta_ = "" \/ trim cap_ = "".

Definition indirizzo_completo (via_ cap_ citta_ : string) : string :=
  trim via_ ++ ", " ++ trim cap_ ++ " " ++ trim citta_.

Definition is_fetch (e : Effetto) : bool :=
  match e with
  | fetch_distanza _ _ => true
  | mostraToast _ _ => false
  end.

End Distanza.

(* ===================================================================== *)
(** ** archivio.js: vocabulary for further properties *)
(* ===================================================================== *)

Module ArchivioVocabolario.
Import Js Archivio.

(** The lists the backend hands over hold one entry per trip id. *)
Definition ids_distinti (ev : Evento) : Prop :=
  match ev with
  | Caricate lista | RicercaAvanzata lista => NoDup (map id lista)
  | _ => True
  end.

(** The table mirrors the selection set: a row is ticked exactly when its
    id is in the set, and the counter shows the size of the set. *)
Definition specchio (st : Stato) : Prop :=
  match trasferte_list st with
  | None => True
  | Some tab =>
      Forall (fun r => cb_checked r = has (selectedTrasferte st) (data_id r))
             (righe tab)
      /\ selection_counter tab = size (selectedTrasferte st)
  end.

(** A trip passes the quick filters [anno] and [mese], given as the values
    of the two selects. *)
Definition corrisponde (anno mese : string) (t : Trasferta) : bool :=
  (match (if str_falsy anno then None else parseInt anno) with
   | Some a => if (a =? 0)%Z then true else strict_eq (fullYear t) (Some a)
   | None => true
   end)
  && (if String.eqb mese "" then true
      else strict_eq (month t) (parseInt mese)).

(** The selected ids that are not among the rendered rows. *)
Definition selezione_nascosta (tab : Tabella) (sel : list Z) : list Z :=
  filter (fun x => negb (existsb (Z.eqb x) (ids_righe tab))) sel.

End ArchivioVocabolario.

(* ===================================================================== *)
(** ** trasferte.js: filling an address from a suggestion *)
(* ===================================================================== *)

Module Popola.
Import Js AddressAutocomplete Trasferte.

(** [a || b]. *)
Definition oppure (a b : jsval) : jsval := if falsy a then b else a.

(** [addressDetails.k] on the value of [result.address || {}], which is
    never [null] nor [undefined]: an object answers with the field, any
    other truthy value has none of the properties read here. *)
Definition dettaglio (addressDetails : jsval) (k : string) : jsval :=
  match addressDetails with
  | Object fields => lookup k fields
  | _ => Undefined
  end.

Section Builtins.

(** The conversion to text of a value that is not a string, as an input
    applies it to what is assigned to its [value]. *)
Variable to_string : jsval -> string.

Definition valore (v : jsval) : string :=
  match v with
  | Str s => s
  | _ => to_string v
  end.

(** The four texts the [populate*] functions extract from a suggestion. *)
Record Estratto : Type := {
  via : string;
  citta : string;
  cap : string;
  paese : string
}.

Definition estrai (result : Suggestion) : Estratto :=
  let addressDetails := oppure (address result) (Object []) in
  {| via := valore (oppure (oppure (oppure (dettaglio addressDetails "road")
                                      (dettaglio addressDetails "street"))
                              (dettaglio addressDetails "county"))
                      (Str ""));
     citta := valore (oppure (oppure (oppure (dettaglio addressDetails "city")
                                        (dettaglio addressDetails "town"))
                                (dettaglio addressDetails "village"))
                        (Str ""));
     cap := valore (oppure (dettaglio addressDetails "postcode") (Str ""));
     paese := valore (oppure (dettaglio addressDetails "country")
                        (Str "Italia")) |}.

(** [populateTrasfertaPartenza(address, result)]; the first argument is
    not used. *)
Definition populateTrasfertaPartenza (result : Suggestion) (c : Campi)
  : Campi :=
  let e := estrai result in
  {| trasferta_data := trasferta_data c;
     trasferta_indirizzo_aziendale_nome :=
       trasferta_indirizzo_aziendale_nome c;
     trasferta_via_partenza := via e;
     trasferta_citta_partenza := citta e;
     trasferta_cap_partenza := cap e;
     trasferta_paese_partenza := paese e;
     trasferta_cliente_nome := trasferta_cliente_nome c;
     trasferta_via_arrivo := trasferta_via_arrivo c;
     trasferta_citta_arrivo := trasferta_citta_arrivo c;
     trasferta_cap_arrivo := trasferta_cap_arrivo c;
     trasferta_paese_arrivo := trasferta_paese_arrivo c;
     trasferta_km := trasferta_km c;
     trasferta_motivo := trasferta_motivo c;
     trasferta_veicolo := trasferta_veicolo c;
     trasferta_note := trasferta_note c;
     trasferta_andata_ritorno := trasferta_andata_ritorno c |}.

(** [populateTrasfertaArrivo(address, result)]. *)
Definition populateTrasfertaArrivo (result : Suggestion) (c : Campi)
  : Campi :=
  let e := estrai result in
  {| trasferta_data := trasferta_data c;
     trasferta_indirizzo_aziendale_nome :=
       trasferta_indirizzo_aziendale_nome c;
     trasferta_via_partenza := trasferta_via_partenza c;
     trasferta_citta_partenza := trasferta_citta_partenza c;
     trasferta_cap_partenza := trasferta_cap_partenza c;
     trasferta_paese_partenza := trasferta_paese_partenza c;
     trasferta_cliente_nome := trasferta_cliente_nome c;
     trasferta_via_arrivo := via e;
     trasferta_citta_arrivo := citta e;
     trasferta_cap_arrivo := cap e;
     trasferta_paese_arrivo := paese e;
     trasferta_km := trasferta_km c;
     trasferta_motivo := trasferta_motivo c;
     trasferta_veicolo := trasferta_veicolo c;
     trasferta_note := trasferta_note c;
     trasferta_andata_ritorno := trasferta_andata_ritorno c |}.

(** [populateEditTrasfertaPartenza] and [populateEditTrasfertaArrivo] do
    the same on the inputs of the edit dialog. *)
Definition set_edit_campi (c : Campi) (p : PaginaModifica)
  : PaginaModifica :=
  {| edit_trasferta_id := edit_trasferta_id p;
     edit_campi := c;
     editTrasfertaModal := editTrasfertaModal p |}.

Definition populateEditTrasfertaPartenza (result : Suggestion)
  (p : PaginaModifica) : PaginaModifica :=
  set_edit_campi (populateTrasfertaPartenza result (edit_campi p)) p.

Definition populateEditTrasfertaArrivo (result : Suggestion)
  (p : PaginaModifica) : PaginaModifica :=
  set_edit_campi (populateTrasfertaArrivo result (edit_campi p)) p.

End Builtins.

(** The suggestion carries no postal code: it has no address details, or
    their [postcode] is missing or empty. *)
Definition senza_cap (result : Suggestion) : Prop :=
  falsy (dettaglio (oppure (address result) (Object [])) "postcode") = true.

(** A suggestion for the examples, with the given address details. *)
Definition suggerimento_esempio (dettagli : jsval) : Suggestion :=
  {| AddressAutocomplete.name := Str "Via Roma, Torino";
     address := dettagli;
     lat := Fin (45 # 1);
     lon := Fin (7 # 1);
     type := Str "residential" |}.

End Popola.

(* ===================================================================== *)
(** ** app.js: the JSON client and the bottom bar *)
(* ===================================================================== *)

Module App.
Import Js AddressAutocomplete.

(** *** [fetchApi] *)

(** What [fetchApi] reads of a response. *)
Record Response : Type := {
  ok : bool;
  status : Z;
  content_type : option string;  (* [headers.get('content-type')] *)
  body : CorpoRisposta
}.

Inductive EsitoFetch : Type :=
| rete_errore (e : Errore)       (* the promise of [fetch] rejects *)
| risposta (r : Response).

(** What [fetchApi] resolves with. *)
Inductive Valore : Type :=
| dati (v : jsval)               (* the parsed body *)
| grezza (r : Response).         (* the response itself *)

Definition Error (messaggio : string) : Errore :=
  {| err_name := "Error"; err_message := messaggio |}.

(** [s.includes(sub)]. *)
Fixpoint includes (s sub : string) : bool :=
  String.prefix sub s
  || match s with
     | EmptyString => false
     | String _ r => includes r sub
     end.

(** The decimal text of an integer status code. *)
Definition status_to_string (z : Z) : string :=
  NilZero.string_of_int (Z.to_int z).

Definition response_json (resp : Response) : M jsval :=
  match body resp with
  | json_invalido => throw (SyntaxError "Unexpected token")
  | json_valore v => ret v
  end.

Section Builtins.

(** The conversion to text of a value that is not a string. *)
Variable to_string : jsval -> string.

Definition stringa (v : jsval) : string :=
  match v with
  | Str s => s
  | _ => to_string v
  end.

(** [fetchApi(endpoint, options)] when the underlying [fetch] settles
    with [esito]. *)
Definition fetchApi (esito : EsitoFetch) : M Valore :=
  try_catch
    (response <- match esito with
                 | rete_errore e => throw e
                 | risposta r => ret r
                 end ;;
     if negb (ok response)
     then
       errorData <- try_catch (response_json response)
                      (fun _ => ret (Object [])) ;;
       e <- prop errorData "error" ;;
       throw (Error (if falsy e
                     then "HTTP " ++ status_to_string (status response)
                     else stringa e))
     else
       match content_type response with
       | Some contentType =>
           if negb (str_falsy contentType)
              && includes contentType "application/json"
           then v <- response_json response ;; ret (dati v)
           else ret (grezza response)
       | None => ret (grezza response)
       end)
    (fun error => emit (console_error "API Error:") ;;; throw error).

End Builtins.

(** *** The bottom bar on scroll *)

(** The bar ([None]: the page has none) with its [hidden] class, and the
    script's [lastScrollTop]. *)
Record Barra : Type := {
  bottom_nav : option bool;
  lastScrollTop : Q
}.

Inductive Effetto : Type :=
| vibrate (ms : Z).

Definition Qlt_bool (x y : Q) : bool := negb (Qle_bool y x).

(** The [scroll] listener of the window; [puo_vibrare] tells whether
    [navigator.vibrate] exists. *)
Definition on_scroll (innerWidth scrollY : Q) (puo_vibrare : bool)
  (b : Barra) : list Effetto * Barra :=
  match bottom_nav b with
  | None => ([], b)
  | Some wasHidden =>
      if Qlt_bool (768 # 1) innerWidth then ([], b)
      else
        let currentScroll := scrollY in
        let '(effetti, hidden) :=
          if Qlt_bool (lastScrollTop b) currentScroll
             && Qlt_bool (50 # 1) currentScroll
          then ([], true)
          else if Qlt_bool currentScroll (lastScrollTop b)
          then (if wasHidden && puo_vibrare then [vibrate 10] else [], false)
          else ([], wasHidden) in
        (effetti,
         {| bottom_nav :=
              Some (if Qle_bool currentScroll (50 # 1) then false
                    else hidden);
            lastScrollTop :=
              if Qle_bool currentScroll 0 then 0%Q else currentScroll |})
  end.

End App.

(* ===================================================================== *)
(** ** veicoli.js: the vehicle forms *)
(* ===================================================================== *)

Module Veicoli.
Import Js AddressAutocomplete App.

(** The [data] object of both submit handlers. *)
Record Dati : Type := {
  marca : string;
  modello : string;
  alimentazione : string;
  tariffa_km : jsnum
}.

(** The inputs of the create form ([veicolo-*]) and of the edit form
    ([edit-veicolo-*]). *)
Record Modulo : Type := {
  veicolo_marca : string;
  veicolo_modello : string;
  veicolo_alimentazione : string;
  veicolo_tariffa : string
}.

Inductive Endpoint : Type :=
| API_VEICOLI
| VeicoloUrl (id : option Z).       (* [`${API_VEICOLI}/${id}`] *)

(** Observable effects, in program order.  [caricaVeicoli()] is recorded
    as its GET request. *)
Inductive Effetto : Type :=
| mostraToast (messaggio : string) (tipo : Trasferte.Tipo)
| fetch (metodo : Trasferte.Metodo) (url : Endpoint) (corpo : option Dati)
| reset
| nascondiModal (modalId : string).

Definition leggi_dati (m : Modulo) : Dati := {|
  marca := trim (veicolo_marca m);
  modello := trim (veicolo_modello m);
  alimentazione := veicolo_alimentazione m;
  tariffa_km := parseFloat (veicolo_tariffa m)
|}.

(** The [submit] listener of [form-veicolo]; [risposta] is how the
    awaited [fetchApi] call ends. *)
Definition submit_veicolo (risposta : Completion Valore) (m : Modulo)
  : list Effetto :=
  let data := leggi_dati m in
  if str_falsy (marca data) || str_falsy (modello data)
     || str_falsy (alimentazione data) || num_falsy (tariffa_km data)
  then [mostraToast "Compila tutti i campi" Trasferte.warning]
  else if le (tariffa_km data) (Fin 0)
  then [mostraToast "La tariffa deve essere positiva" Trasferte.warning]
  else
    match risposta with
    | Returns _ =>
        [fetch Trasferte.POST API_VEICOLI (Some data);
         mostraToast "Veicolo aggiunto con successo" Trasferte.success;
         reset;
         fetch Trasferte.GET API_VEICOLI None]
    | Throws _ =>
        [fetch Trasferte.POST API_VEICOLI (Some data);
         mostraToast "Errore salvataggio veicolo" Trasferte.error]
    end.

(** The [submit] listener of [form-edit-veicolo]. *)
Definition submit_edit_veicolo (risposta : Completion Valore)
  (edit_veicolo_id : string) (m : Modulo) : list Effetto :=
  let id := parseInt edit_veicolo_id in
  let data := leggi_dati m in
  if le (tariffa_km data) (Fin 0)
  then [mostraToast "La tariffa deve essere positiva" Trasferte.warning]
  else
    match risposta with
    | Returns _ =>
        [fetch Trasferte.PUT (VeicoloUrl id) (Some data);
         mostraToast "Veicolo modificato con successo" Trasferte.success;
         nascondiModal "modal-edit-veicolo";
         fetch Trasferte.GET API_VEICOLI None]
    | Throws _ =>
        [fetch Trasferte.PUT (VeicoloUrl id) (Some data);
         mostraToast "Errore modifica veicolo" Trasferte.error]
    end.

(** [eliminaVeicolo(id)]; [conferma] is the answer to [confirm]. *)
Definition eliminaVeicolo (conferma : bool) (risposta : Completion Valore)
  (id : option Z) : list Effetto :=
  if negb conferma then []
  else
    match risposta with
    | Returns _ =>
        [fetch Trasferte.DELETE (VeicoloUrl id) None;
         mostraToast "Veicolo eliminato" Trasferte.success;
         fetch Trasferte.GET API_VEICOLI None]
    | Throws error =>
        [fetch Trasferte.DELETE (VeicoloUrl id) None;
         if includes (err_message error) "409"
         then mostraToast
                "Non puoi eliminare un veicolo con trasferte associate"
                Trasferte.warning
         else mostraToast "Errore eliminazione veicolo" Trasferte.error]
    end.

(** *** Vocabulary *)

(** Make, model and fuel are filled in and the rate is a number above
    zero. *)
Definition veicolo_valido (m : Modulo) : Prop :=
  trim (veicolo_marca m) <> "" /\ trim (veicolo_modello m) <> ""
  /\ veicolo_alimentazione m <> ""
  /\ gt (parseFloat (veicolo_tariffa m)) (Fin 0) = true.

Definition avviso_associate : Effetto :=
  mostraToast "Non puoi eliminare un veicolo con trasferte associate"
    Trasferte.warning.

End Veicoli.

(* ===================================================================== *)
(** ** clienti.js: the client dialog and the CSV import *)
(* ===================================================================== *)

Module Clienti.
Import Js AddressAutocomplete.

(** The inputs of [clienteForm]. *)
Record Modulo : Type := {
  nomecliente : string;
  viacliente : string;
  citycliente : string;
  capcliente : string;
  paesecliente : string
}.

(** The [data] object [submitForm] sends. *)
Record Dati : Type := {
  nome : string;
  via : string;
  citta : string;
  cap : string;
  paese : string
}.

Inductive Endpoint : Type :=
| API_CLIENTI                (* /api/clienti *)
| ClienteUrl (id : Z)        (* [`/api/clienti/${id}`] *)
| API_CLIENTI_IMPORT.        (* /api/clienti/import *)

Inductive Corpo : Type :=
| NessunCorpo
| Json (d : Dati)
| FormData (file : Trasferte.File).

(** Observable effects, in program order.  [loadClienti()] is recorded as
    its GET request. *)
Inductive Effetto : Type :=
| showError (message : string)
| showSuccess (message : string)
| fetch (metodo : Trasferte.Metodo) (url : Endpoint) (corpo : Corpo).

(** The script's [currentEditId], the form and whether the dialog
    [clienteModal] is open. *)
Record Stato : Type := {
  currentEditId : option Z;
  clienteForm : Modulo;
  clienteModal : bool
}.

(** [s.endsWith(suffix)]. *)
Fixpoint endsWith (s suffix : string) : bool :=
  String.eqb s suffix
  || match s with
     | EmptyString => false
     | String _ r => endsWith r suffix
     end.

Definition MAX_CSV : N := 5 * 1024 * 1024.

(** The import button. *)
Record Bottone : Type := { disabled : bool; textContent : string }.

(** The file input [csvFileInput] with the file it holds, and the button
    [importCsvBtn], which the page may lack. *)
Record PaginaImport : Type := {
  csvFileInput : option Trasferte.File;
  importCsvBtn : option Bottone
}.

(** The body of a successful import as the endpoint answers it: the
    number of clients imported, by the value of the Number the page
    holds, and the lines it could not read. *)
Record Risultato : Type := {
  imported : Q;
  errors : list string
}.

Inductive EsitoImport : Type :=
| import_rete (e : Errore)           (* [fetch] rejects *)
| import_non_ok (status : Z)         (* [!response.ok] *)
| import_illeggibile                 (* [response.json()] rejects *)
| import_risultato (result : Risultato).

Section Builtins.

(** The conversion to text of a value that is not a string, and of a
    number. *)
Variable to_string : jsval -> string.
Variable number_to_string : jsnum -> string.

(** The values [clienteForm.reset()] restores, as the markup gives them. *)
Variable predefiniti : Modulo.

(** [openAddModal]. *)
Definition openAddModal (st : Stato) : Stato := {|
  currentEditId := None;
  clienteForm := predefiniti;
  clienteModal := true
|}.

(** [closeModal]. *)
Definition closeModal (st : Stato) : Stato := {|
  currentEditId := None;
  clienteForm := predefiniti;
  clienteModal := false
|}.

(** [cliente.k || d] written into an input. *)
Definition campo_cliente (cliente : jsval) (k d : string) : string :=
  Popola.valore to_string
    (Popola.oppure (Popola.dettaglio cliente k) (Str d)).

(** [editCliente(id)]: the call sends its request and returns; nothing
    of the page changes until the request settles. *)
Definition editCliente (id : Z) : list Effetto :=
  [fetch Trasferte.GET (ClienteUrl id) NessunCorpo].

(** The callbacks of [editCliente(id)], run when its request settles with
    [esito], on the page as it is by then.  The status of the response is
    not looked at; [currentEditId] is assigned before the fields of the
    record are read, so it is set even when reading them throws on a
    [null] body. *)
Definition editCliente_then (id : Z) (esito : EsitoFetch) (st : Stato)
  : list Effetto * Stato :=
  let errore := showError "Errore nel caricamento del cliente" in
  match esito with
  | rete_errore _ => ([errore], st)
  | risposta r =>
      match body r with
      | json_invalido => ([errore], st)
      | json_valore cliente =>
          match cliente with
          | Undefined | Null =>
              ([errore],
               {| currentEditId := Some id;
                  clienteForm := clienteForm st;
                  clienteModal := clienteModal st |})
          | _ =>
              ([],
               {| currentEditId := Some id;
                  clienteForm :=
                    {| nomecliente := campo_cliente cliente "nome" "";
                       viacliente := campo_cliente cliente "via" "";
                       citycliente := campo_cliente cliente "citta" "";
                       capcliente := campo_cliente cliente "cap" "";
                       paesecliente :=
                         campo_cliente cliente "paese" "Italia" |};
                  clienteModal := true |})
          end
      end
  end.

Definition leggi_dati (m : Modulo) : Dati := {|
  nome := trim (nomecliente m);
  via := trim (viacliente m);
  citta := trim (citycliente m);
  cap := trim (capcliente m);
  paese := trim (paesecliente m)
|}.

(** The request [submitForm] builds: a PUT on the client being edited
    when [currentEditId] is truthy, a POST otherwise. *)
Definition salvataggio (id : option Z) (data : Dati) : Effetto :=
  if int_falsy id then fetch Trasferte.POST API_CLIENTI (Json data)
  else match id with
       | Some i => fetch Trasferte.PUT (ClienteUrl i) (Json data)
       | None => fetch Trasferte.POST API_CLIENTI (Json data)
       end.

(** [submitForm(e)]: the check of the five fields, then the request,
    built from [currentEditId] as it is when the form is submitted. *)
Definition submitForm (st : Stato) : list Effetto :=
  let data := leggi_dati (clienteForm st) in
  if str_falsy (nome data) || str_falsy (via data) || str_falsy (citta data)
     || str_falsy (cap data) || str_falsy (paese data)
  then [showError "Compilare tutti i campi"]
  else [salvataggio (currentEditId st) data].

(** The callbacks of [submitForm], run when its request settles with
    [esito]: the message reads [currentEditId] as it is by then. *)
Definition submitForm_then (esito : EsitoFetch) (st : Stato)
  : list Effetto * Stato :=
  match esito with
  | rete_errore e => ([showError ("Errore: " ++ err_message e)], st)
  | risposta r =>
      if negb (ok r)
      then ([showError ("Errore: " ++ "HTTP "
                        ++ App.status_to_string (status r))], st)
      else
        match body r with
        | json_invalido =>
            ([showError ("Errore: "
                         ++ err_message (SyntaxError "Unexpected token"))],
             st)
        | json_valore _ =>
            ([showSuccess (if int_falsy (currentEditId st)
                           then "Cliente aggiunto"
                           else "Cliente modificato");
              fetch Trasferte.GET API_CLIENTI NessunCorpo],
             closeModal st)
        end
  end.

(** What happens on the client page.  A request and its answer are two
    events, and anything may happen between them.  [Compila] is the user
    typing into the form; [Annulla] is the dialog closed by the Escape
    key, which runs no code of the script. *)
Inductive Evento : Type :=
| ClickAdd
| EditCliente (id : Z)
| EditRisolve (id : Z) (esito : EsitoFetch)
| CloseModal
| Annulla
| Compila (m : Modulo)
| Submit
| SubmitRisolve (esito : EsitoFetch).

Definition gestisci (ev : Evento) (st : Stato) : list Effetto * Stato :=
  match ev with
  | ClickAdd => ([], openAddModal st)
  | EditCliente id => (editCliente id, st)
  | EditRisolve id esito => editCliente_then id esito st
  | CloseModal => ([], closeModal st)
  | Annulla =>
      ([], {| currentEditId := currentEditId st;
              clienteForm := clienteForm st;
              clienteModal := false |})
  | Compila m =>
      ([], {| currentEditId := currentEditId st;
              clienteForm := m;
              clienteModal := clienteModal st |})
  | Submit => (submitForm st, st)
  | SubmitRisolve esito => submitForm_then esito st
  end.

Definition esegui (evs : list Evento) (st : Stato) : list Effetto * Stato :=
  fold_left
    (fun acc ev =>
       let (effetti, st') := gestisci ev (snd acc) in
       ((fst acc ++ effetti)%list, st'))
    evs ([], st).

(** [handleCsvUpload(e)] when the import request settles with [esito];
    the file is [e.target.files[0]]. *)
Definition handleCsvUpload (esito : EsitoImport) (p : PaginaImport)
  : list Effetto * PaginaImport :=
  match csvFileInput p with
  | None => ([], p)
  | Some file =>
      let svuotato := {| csvFileInput := None;
                         importCsvBtn := importCsvBtn p |} in
      if negb (endsWith (Trasferte.name file) ".csv")
      then ([showError "❌ File must be CSV format"], svuotato)
      else if (MAX_CSV <? Trasferte.size file)%N
      then ([showError "❌ File is too large (max 5MB)"], svuotato)
      else
        let richiesta :=
          fetch Trasferte.POST API_CLIENTI_IMPORT (FormData file) in
        let pronto :=
          match importCsvBtn p with
          | Some _ => Some {| disabled := false;
                              textContent := "📤 Importa da CSV" |}
          | None => None
          end in
        let fallita (message : string) :=
          ([richiesta;
            showError ("❌ Errore nell'importazione: " ++ message)],
           {| csvFileInput := Some file; importCsvBtn := pronto |}) in
        match esito with
        | import_rete e => fallita (err_message e)
        | import_non_ok st => fallita ("HTTP " ++ App.status_to_string st)
        | import_illeggibile =>
            fallita (err_message (SyntaxError "Unexpected token"))
        | import_risultato result =>
            ([richiesta;
              if Qle_bool (imported result) 0
              then showError "⚠️ Nessun cliente importato"
              else showSuccess ("✅ Importati "
                                ++ number_to_string (Fin (imported result))
                                ++ " clienti");
              fetch Trasferte.GET API_CLIENTI NessunCorpo],
             {| csvFileInput := None; importCsvBtn := pronto |})
        end
  end.

End Builtins.

(** *** Vocabulary *)

Definition is_put (e : Effetto) : bool :=
  match e with
  | fetch Trasferte.PUT _ _ => true
  | _ => false
  end.

Definition is_fetch (e : Effetto) : bool :=
  match e with
  | fetch _ _ _ => true
  | _ => false
  end.

(** An upload of [file] to the import endpoint. *)
Definition importa (file : Trasferte.File) : Effetto :=
  fetch Trasferte.POST API_CLIENTI_IMPORT (FormData file).

(** One of the five inputs is blank once trimmed. *)
Definition campo_vuoto (m : Modulo) : Prop :=
  trim (nomecliente m) = "" \/ trim (viacliente m) = ""
  \/ trim (citycliente m) = "" \/ trim (capcliente m) = ""
  \/ trim (paesecliente m) = "".

Definition modulo_vuoto : Modulo := {|
  nomecliente := ""; viacliente := ""; citycliente := "";
  capcliente := ""; paesecliente := "Italia"
|}.

(** The events that do not write [currentEditId]: typing, the Escape key,
    and a request being sent. *)
Definition lascia_id (ev : Evento) : Prop :=
  match ev with
  | Compila _ | Annulla | EditCliente _ | Submit => True
  | _ => False
  end.

(** Every event but the answer to an edit request. *)
Definition non_risposta_edit (ev : Evento) : Prop :=
  match ev with
  | EditRisolve _ _ => False
  | _ => True
  end.

End Clienti.

(* ===================================================================== *)
(** ** accessibility.js: arrow-key navigation *)
(* ===================================================================== *)

Module Accessibility.

(** An index that arithmetic may have turned into NaN ([None]). *)
Definition resto (a : option Z) (b : Z) : option Z :=
  match a with
  | Some x => if (b =? 0)%Z then None else Some (Z.rem x b)
  | None => None
  end.

Definition somma (a : option Z) (b : Z) : option Z :=
  match a with
  | Some x => Some (x + b)%Z
  | None => None
  end.

(** What the listener does after updating the index: it focuses an item,
    or [items[currentIndex]] is undefined and the call throws. *)
Inductive Azione : Type :=
| ignorato
| focus (i : nat)
| TypeError.

(** The [keydown] listener of [handleArrowKeyNavigation] on a container of
    [n] items; the result is the new [currentIndex] and what happened. *)
Definition keydown (n : nat) (key : string) (currentIndex : option Z)
  : option Z * Azione :=
  if negb (existsb (String.eqb key) ["ArrowUp"; "ArrowDown"; "Home"; "End"])
  then (currentIndex, ignorato)
  else
    let length := Z.of_nat n in
    let indice :=
      if String.eqb key "ArrowDown"
      then resto (somma currentIndex 1) length
      else if String.eqb key "ArrowUp"
      then resto (somma (somma currentIndex (-1)) length) length
      else if String.eqb key "Home" then Some 0%Z
      else if String.eqb key "End" then Some (length - 1)%Z
      else currentIndex in
    (indice,
     match indice with
     | Some i =>
         if (0 <=? i)%Z && (i <? length)%Z then focus (Z.to_nat i)
         else TypeError
     | None => TypeError
     end).

(** A run of key presses from the initial [currentIndex = -1]. *)
Fixpoint naviga (n : nat) (keys : list string) (currentIndex : option Z)
  : option Z * list Azione :=
  match keys with
  | [] => (currentIndex, [])
  | key :: rest =>
      let (indice, azione) := keydown n key currentIndex in
      let (finale, azioni) := naviga n rest indice in
      (finale, azione :: azioni)
  end.

Definition indice_iniziale : option Z := Some (-1)%Z.

End Accessibility.

(* ===================================================================== *)
(** ** Vocabulary of the Number values *)
(* ===================================================================== *)

Module Numeri.
Import Js.

(** The smallest positive Number. *)
Definition minimo : Q := 1 # Z.to_pos (2 ^ 1074).

(** The values a Number can take: the special ones, and the roundings. *)
Definition binario64 (x : jsnum) : Prop :=
  match x with
  | Fin a => exists q : Q, arrotonda q = Fin a
  | _ => True
  end.

End Numeri.

(* ===================================================================== *)
(** ** Rounding to binary64 *)
(* ===================================================================== *)

Module NumeriProps.
Import Js Numeri.
#[local] Open Scope Z_scope.

Lemma due_pos (k : Z) : 0 < 2 ^ Z.max 0 k.
Proof. apply Z.pow_pos_nonneg; lia. Qed.

(** Lowering the exponent keeps the scaled numerator above the scaled
    denominator. *)
Lemma scala_mono (n d e k : Z) :
  0 < n -> 0 < d -> e <= k ->
  snd (scala n d k) <= fst (scala n d k) ->
  snd (scala n d e) <= fst (scala n d e).
Proof.
  unfold scala. cbn [fst snd]. intros Hn Hd Hek H.
  assert (A : 2 ^ Z.max 0 e <= 2 ^ Z.max 0 k)
    by (apply Z.pow_le_mono_r; lia).
  assert (B : 2 ^ Z.max 0 (- k) <= 2 ^ Z.max 0 (- e))
    by (apply Z.pow_le_mono_r; lia).
  pose proof (due_pos e). pose proof (due_pos (- k)).
  nia.
Qed.

(** [2 ^ ilog2 n d] does not exceed [n / d]. *)
Lemma ilog2_sotto (n d : positive) :
  snd (scala (Z.pos n) (Z.pos d) (ilog2 n d))
  <= fst (scala (Z.pos n) (Z.pos d) (ilog2 n d)).
Proof.
  unfold ilog2.
  set (k := Z.log2 (Z.pos n) - Z.log2 (Z.pos d)).
  destruct (scala (Z.pos n) (Z.pos d) k) as [num den] eqn:E.
  destruct (Z.leb_spec den num) as [H|H].
  - rewrite E. exact H.
  - clear E H num den. unfold scala. cbn [fst snd].
    destruct (Z.log2_spec (Z.pos n)) as [Hn1 Hn2]; [lia|].
    destruct (Z.log2_spec (Z.pos d)) as [Hd1 Hd2]; [lia|].
    pose proof (Z.log2_nonneg (Z.pos n)) as Ln.
    pose proof (Z.log2_nonneg (Z.pos d)) as Ld.
    destruct (Z.le_gt_cases 1 k) as [Hk|Hk].
    + rewrite (Z.max_l 0 (- (k - 1))), (Z.max_r 0 (k - 1)) by lia.
      rewrite Z.pow_0_r, Z.mul_1_r.
      apply Z.le_trans with (2 ^ Z.log2 (Z.pos n)); [|exact Hn1].
      replace (Z.log2 (Z.pos n))
        with (Z.succ (Z.log2 (Z.pos d)) + (k - 1)) by (unfold k; lia).
      rewrite Z.pow_add_r by lia.
      assert (0 < 2 ^ (k - 1)) by (apply Z.pow_pos_nonneg; lia).
      nia.
    + rewrite (Z.max_r 0 (- (k - 1))), (Z.max_l 0 (k - 1)) by lia.
      rewrite Z.pow_0_r, Z.mul_1_r.
      apply Z.le_trans with (2 ^ Z.succ (Z.log2 (Z.pos d))); [lia|].
      replace (Z.succ (Z.log2 (Z.pos d)))
        with (Z.log2 (Z.pos n) + (- (k - 1))) by (unfold k; lia).
      rewrite Z.pow_add_r by lia.
      assert (0 < 2 ^ (- (k - 1))) by (apply Z.pow_pos_nonneg; lia).
      nia.
Qed.

Lemma rne_nonneg (num den : Z) : 0 <= num -> 0 < den -> 0 <= rne num den.
Proof.
  intros Hn Hd. unfold rne.
  assert (0 <= num / den) by (apply Z.div_pos; lia).
  destruct (2 * (num mod den) ?= den); [destruct (Z.even _)| |]; lia.
Qed.

Lemma rne_uno (num den : Z) : 0 < den -> den <= num -> 1 <= rne num den.
Proof.
  intros Hd Hn. unfold rne.
  assert (1 <= num / den).
  { apply Z.div_le_lower_bound; lia. }
  destruct (2 * (num mod den) ?= den); [destruct (Z.even _)| |]; lia.
Qed.

Lemma scala_pos (n d : positive) (e : Z) :
  0 < fst (scala (Z.pos n) (Z.pos d) e)
  /\ 0 < snd (scala (Z.pos n) (Z.pos d) e).
Proof.
  unfold scala. cbn [fst snd].
  pose proof (due_pos e). pose proof (due_pos (- e)). split; nia.
Qed.

(** The rounded mantissa is not negative, and the exponent is not below
    the least one. *)
Lemma arrotonda_pos_limiti (n d : positive) :
  0 <= fst (arrotonda_pos n d) /\ EMIN <= snd (arrotonda_pos n d).
Proof.
  unfold arrotonda_pos.
  set (e := Z.max (ilog2 n d - (PREC - 1)) EMIN).
  pose proof (scala_pos n d e) as [A B].
  destruct (scala (Z.pos n) (Z.pos d) e) as [num den]. cbn [fst snd] in *.
  split; [apply rne_nonneg; lia | unfold e; lia].
Qed.

(** A quotient of at least [minimo] does not round to zero. *)
Lemma arrotonda_pos_uno (n d : positive) :
  (minimo <= Z.pos n # d)%Q -> 1 <= fst (arrotonda_pos n d).
Proof.
  intros H. unfold arrotonda_pos.
  set (e := Z.max (ilog2 n d - (PREC - 1)) EMIN).
  assert (S : snd (scala (Z.pos n) (Z.pos d) e)
              <= fst (scala (Z.pos n) (Z.pos d) e)).
  { destruct (Z.le_gt_cases EMIN (ilog2 n d - (PREC - 1))) as [C|C].
    - apply scala_mono with (k := ilog2 n d); try lia.
      + unfold e, PREC. unfold PREC in C. lia.
      + apply ilog2_sotto.
    - replace e with EMIN by (unfold e; lia).
      unfold scala, EMIN. cbn [fst snd].
      rewrite (Z.max_l 0 (-1074)), (Z.max_r 0 (- -1074)) by lia.
      rewrite Z.pow_0_r, Z.mul_1_r.
      unfold minimo, Qle in H. cbn [Qnum Qden] in H.
      rewrite Z2Pos.id in H by (apply Z.pow_pos_nonneg; lia).
      change (- -1074) with 1074. lia. }
  pose proof (scala_pos n d e) as [A B].
  destruct (scala (Z.pos n) (Z.pos d) e) as [num den]. cbn [fst snd] in *.
  apply rne_uno; lia.
Qed.

Lemma valore_eq (m e : Z) :
  (diadico m e ==
   if 0 <=? e then inject_Z (m * 2 ^ e)
   else Qmake m (Z.to_pos (2 ^ (- e))))%Q.
Proof. unfold diadico. apply Qred_correct. Qed.

Lemma valore_nonneg (m e : Z) : 0 <= m -> (0 <= diadico m e)%Q.
Proof.
  intros H. rewrite valore_eq.
  destruct (0 <=? e) eqn:E.
  - apply Z.leb_le in E. unfold Qle, inject_Z. cbn [Qnum Qden].
    assert (0 < 2 ^ e) by (apply Z.pow_pos_nonneg; lia). nia.
  - unfold Qle. cbn [Qnum Qden]. lia.
Qed.

(** A mantissa of one or more at an exponent of [EMIN] or more is worth
    at least [minimo]. *)
Lemma valore_minimo (m e : Z) :
  1 <= m -> EMIN <= e -> (minimo <= diadico m e)%Q.
Proof.
  intros Hm He. rewrite valore_eq. unfold minimo, EMIN in *.
  assert (P : 0 < 2 ^ 1074) by (apply Z.pow_pos_nonneg; lia).
  destruct (0 <=? e) eqn:E.
  - apply Z.leb_le in E. unfold Qle, inject_Z. cbn [Qnum Qden].
    rewrite Z2Pos.id by exact P.
    assert (0 < 2 ^ e) by (apply Z.pow_pos_nonneg; lia). nia.
  - apply Z.leb_gt in E. unfold Qle. cbn [Qnum Qden].
    assert (Q1 : 0 < 2 ^ (- e)) by (apply Z.pow_pos_nonneg; lia).
    rewrite !Z2Pos.id by assumption.
    assert (2 ^ (- e) <= 2 ^ 1074) by (apply Z.pow_le_mono_r; lia).
    nia.
Qed.

#[local] Close Scope Z_scope.

(** A positive Number is at least [minimo]. *)
Lemma arrotonda_Fin_pos (q a : Q) :
  arrotonda q = Fin a -> (0 < a)%Q -> (minimo <= a)%Q.
Proof.
  unfold arrotonda. destruct q as [[|n|n] d]; cbn [Qnum Qden].
  - intros E H. injection E as <-. vm_compute in H. discriminate H.
  - pose proof (arrotonda_pos_limiti n d) as [A B].
    destruct (arrotonda_pos n d) as [m e]. cbn [fst snd] in *.
    unfold finito, zero.
    destruct (Z.eqb_spec m 0) as [Z|Z].
    { intros E H. injection E as <-. vm_compute in H. discriminate H. }
    destruct ((0 <=? e)%Z && _); [discriminate|].
    intros E _. injection E as <-. apply valore_minimo; [lia | exact B].
  - pose proof (arrotonda_pos_limiti n d) as [A B].
    destruct (arrotonda_pos n d) as [m e]. cbn [fst snd] in *.
    unfold finito, zero.
    destruct (Z.eqb_spec m 0) as [Z|Z]; [discriminate|].
    destruct ((0 <=? e)%Z && _); [discriminate|].
    intros E H. injection E as <-. exfalso.
    pose proof (valore_nonneg m e A) as V.
    apply (Qlt_not_le _ _ H).
    apply Qopp_le_compat in V. exact V.
Qed.

(** A real number of at least [minimo] rounds to a positive Number or to
    the positive infinity. *)
Lemma arrotonda_grande (q : Q) :
  (minimo <= q)%Q -> le (arrotonda q) (Fin 0) = false.
Proof.
  intros H. unfold arrotonda. destruct q as [[|n|n] d]; cbn [Qnum Qden].
  - exfalso. apply H. reflexivity.
  - pose proof (arrotonda_pos_uno n d H) as U.
    pose proof (arrotonda_pos_limiti n d) as [A B].
    destruct (arrotonda_pos n d) as [m e]. cbn [fst snd] in *.
    unfold finito.
    destruct (Z.eqb_spec m 0) as [Z|Z]; [lia|].
    destruct ((0 <=? e)%Z && _); [reflexivity|].
    cbn [le valore_finito].
    destruct (Qle_bool (diadico m e) 0) eqn:L; [|reflexivity].
    apply Qle_bool_iff in L. exfalso.
    pose proof (valore_minimo m e U B) as V.
    assert (M : (0 < minimo)%Q) by reflexivity.
    apply (Qlt_not_le _ _ M). eapply Qle_trans; eassumption.
  - exfalso. apply H. reflexivity.
Qed.

(** A negative real number rounds to a Number that is not above zero. *)
Lemma arrotonda_negativo (q : Q) :
  (Qnum q < 0)%Z -> le (arrotonda q) (Fin 0) = true.
Proof.
  unfold arrotonda. destruct q as [[|n|n] d]; cbn [Qnum Qden]; try lia.
  intros _.
  pose proof (arrotonda_pos_limiti n d) as [A B].
  destruct (arrotonda_pos n d) as [m e]. cbn [fst snd] in *.
  unfold finito, zero.
  destruct (m =? 0)%Z; [reflexivity|].
  destruct ((0 <=? e)%Z && _); [reflexivity|].
  cbn [le valore_finito]. apply Qle_bool_iff.
  pose proof (valore_nonneg m e A) as V.
  apply Qopp_le_compat in V. exact V.
Qed.

Lemma arrotonda_non_NaN (q : Q) : arrotonda q <> NaN.
Proof.
  unfold arrotonda, finito, zero.
  destruct (Qnum q); [discriminate| |];
    destruct (arrotonda_pos _ _) as [m e];
    destruct (m =? 0)%Z; try discriminate;
    destruct ((0 <=? e)%Z && _); discriminate.
Qed.

(** What [parseFloat] returns is a Number. *)
Lemma parseFloat_binario64 (s : string) : binario64 (parseFloat s).
Proof.
  unfold parseFloat.
  destruct (take_sign (trim_start s)) as [neg body].
  destruct (prefix "Infinity" body); [exact I|].
  destruct (take_digits body) as [ip after_int].
  destruct (match after_int with
            | String "."%char r => take_digits r
            | _ => ([], after_int)
            end) as [fp after_frac].
  destruct (ip ++ fp)%list as [|c ds]; [exact I|].
  match goal with
  | |- context [Qeq_bool ?q 0] => destruct (Qeq_bool q 0); set (x := q)
  end.
  - destruct neg; [exact I | exists 0%Q; reflexivity].
  - unfold binario64.
    destruct (arrotonda (if neg then (- x)%Q else x)) eqn:E; try exact I.
    eexists. exact E.
Qed.

End NumeriProps.

(* ===================================================================== *)
(** ** Properties of the trip form *)
(* ===================================================================== *)

Module TrasferteSpec.
Import Js Numeri Trasferte.

(** *** Arithmetic of the estimate *)

Lemma gt_zero_forma (km : jsnum) :
  gt km (Fin 0) = true ->
  km = Inf false \/ exists a : Q, km = Fin a /\ (0 < a)%Q.
Proof.
  destruct km as [|a|[|]|]; simpl; try discriminate.
  - intros H. right. exists a. split; [reflexivity|].
    apply negb_true_iff in H. apply Qnot_le_lt. intros L.
    apply Qle_bool_iff in L. congruence.
  - intros _. now left.
Qed.

Lemma positivo_non_nullo (a : Q) : (0 < a)%Q -> Qeq_bool a 0 = false.
Proof.
  intros H. destruct (Qeq_bool a 0) eqn:E; [|reflexivity].
  apply Qeq_bool_iff in E. rewrite E in H. discriminate H.
Qed.

Lemma gt_zero_not_falsy (km : jsnum) :
  gt km (Fin 0) = true -> num_or km (Fin 0) = km.
Proof.
  intros H. destruct (gt_zero_forma km H) as [->|[a [-> Ha]]];
    [reflexivity|].
  unfold num_or, num_falsy. now rewrite (positivo_non_nullo a Ha).
Qed.

Lemma gt_zero_le (km : jsnum) :
  gt km (Fin 0) = true -> le km (Fin 0) = false.
Proof.
  destruct km as [|x|[|]|]; simpl; try discriminate.
  - apply negb_true_iff.
  - reflexivity.
Qed.

(** Twice a positive distance is positive: a Number above zero is at
    least the smallest one, so its double does not underflow. *)
Lemma gt_zero_double (km : jsnum) :
  binario64 km -> gt km (Fin 0) = true ->
  le (mul km (Fin 2)) (Fin 0) = false.
Proof.
  intros Hb H. destruct (gt_zero_forma km H) as [->|[a [-> Ha]]];
    [reflexivity|].
  destruct Hb as [q Hq].
  pose proof (NumeriProps.arrotonda_Fin_pos q a Hq Ha) as Hmin.
  unfold mul. rewrite (positivo_non_nullo a Ha).
  change (Qeq_bool 2 0) with false. cbn [orb].
  apply NumeriProps.arrotonda_grande.
  eapply Qle_trans; [exact Hmin|].
  unfold Qle, Qmult. cbn [Qnum Qden].
  assert (0 < Qnum a)%Z by (unfold Qlt in Ha; simpl in Ha; lia).
  nia.
Qed.

(** A distance that is not above zero gives an effective distance that is
    not above zero, doubled or not. *)
Lemma non_positivo_effettivo (km : jsnum) :
  gt km (Fin 0) = false ->
  le (num_or km (Fin 0)) (Fin 0) = true
  /\ le (mul (num_or km (Fin 0)) (Fin 2)) (Fin 0) = true.
Proof.
  destruct km as [|a|[|]|]; simpl; try discriminate;
    try (intros _; split; reflexivity).
  intros H. apply negb_false_iff in H.
  unfold num_or, num_falsy.
  destruct (Qeq_bool a 0) eqn:E; [split; reflexivity|].
  split; [exact H|].
  unfold mul. rewrite E. change (Qeq_bool 2 0) with false. cbn [orb].
  apply NumeriProps.arrotonda_negativo.
  apply Qle_bool_iff in H. unfold Qle in H. simpl in H.
  assert (Qnum a <> 0)%Z.
  { intros Z. unfold Qeq_bool in E. simpl in E. rewrite Z in E.
    discriminate E. }
  unfold Qmult. cbn [Qnum]. lia.
Qed.

Lemma doppio_non_positivo (km : jsnum) :
  gt (mul km (Fin 2)) (Fin 0) = false ->
  le (mul (num_or km (Fin 0)) (Fin 2)) (Fin 0) = true.
Proof.
  destruct km as [|a|[|]|]; simpl; try discriminate;
    try (intros _; reflexivity).
  unfold num_or, num_falsy.
  destruct (Qeq_bool a 0) eqn:E; [reflexivity|].
  change (Qeq_bool 2 0) with false. cbn [orb].
  unfold mul. rewrite E. change (Qeq_bool 2 0) with false. cbn [orb].
  pose proof (NumeriProps.arrotonda_non_NaN (a * 2)) as N.
  destruct (arrotonda (a * 2)) as [|b|[|]|]; simpl; try congruence;
    intros H; try reflexivity.
  now apply negb_false_iff.
Qed.

(** The vehicle the select points at is the one [find] returns. *)
Lemma find_veicolo_selezionato (veicoli : list Veicolo) (c : Campi)
  (v : Veicolo) :
  veicolo_selezionato veicoli c v ->
  exists z : Z,
    parseInt (trasferta_veicolo c) = Some z
    /\ int_falsy (Some z) = false
    /\ find (stesso_id (Some z)) veicoli = Some v.
Proof.
  intros (z & prima & dopo & Hp & Hz & Hv & Hid & Hprima).
  exists z. split; [exact Hp|]. split.
  - simpl. now apply Z.eqb_neq.
  - subst veicoli. induction prima as [|u prima IH]; simpl.
    + unfold stesso_id. rewrite Hid, Z.eqb_refl. reflexivity.
    + unfold stesso_id at 1.
      destruct (Z.eqb_spec (v_id u) z) as [E|E].
      * exfalso. apply (Hprima u); [now left | exact E].
      * apply IH. intros w Hw. apply Hprima. now right.
Qed.

(** [aggiornaRimborso] writes the label and nothing else. *)
Lemma aggiornaRimborso_campi fmt veicoli p :
  campi (aggiornaRimborso fmt veicoli p) = campi p.
Proof.
  unfold aggiornaRimborso.
  destruct (int_falsy _ || le _ _); [reflexivity|].
  destruct (find _ veicoli); reflexivity.
Qed.

(** The estimate for the selected vehicle and a positive distance. *)
Lemma aggiornaRimborso_positivo fmt veicoli p v :
  let km := parseFloat (trasferta_km (campi p)) in
  veicolo_selezionato veicoli (campi p) v ->
  gt km (Fin 0) = true ->
  (andata_e_ritorno (campi p) ->
   rimborso_stimato (aggiornaRimborso fmt veicoli p)
   = fmt (mul (mul km (Fin 2)) (arrotonda (tariffa_km v))))
  /\ (~ andata_e_ritorno (campi p) ->
      rimborso_stimato (aggiornaRimborso fmt veicoli p)
      = fmt (mul km (arrotonda (tariffa_km v)))).
Proof.
  intros km Hsel Hkm.
  destruct (find_veicolo_selezionato veicoli _ v Hsel)
    as (z & Hp & Hz & Hfind).
  assert (Hb : binario64 km) by apply NumeriProps.parseFloat_binario64.
  unfold aggiornaRimborso, km_effettivi, andata_e_ritorno. fold km.
  rewrite (gt_zero_not_falsy km Hkm), Hp, Hz. cbn [orb].
  split; intros Hf.
  - rewrite Hf. cbn [checked].
    rewrite (gt_zero_double km Hb Hkm), Hfind. reflexivity.
  - assert (E : checked (trasferta_andata_ritorno (campi p)) = false).
    { destruct (trasferta_andata_ritorno (campi p)) as [[|]|];
        [congruence | reflexivity | reflexivity]. }
    rewrite E, (gt_zero_le km Hkm), Hfind. reflexivity.
Qed.

(** The zero label when no vehicle is selected or the distance, doubled
    or not, is not positive. *)
Lemma aggiornaRimborso_zero fmt veicoli p :
  let km := parseFloat (trasferta_km (campi p)) in
  trasferta_veicolo (campi p) = ""
  \/ gt km (Fin 0) = false
  \/ (andata_e_ritorno (campi p) /\ gt (mul km (Fin 2)) (Fin 0) = false) ->
  rimborso_stimato (aggiornaRimborso fmt veicoli p) = "€ 0,00".
Proof.
  intros km H. unfold aggiornaRimborso.
  assert (E : int_falsy (parseInt (trasferta_veicolo (campi p)))
              || le (km_effettivi (campi p)) (Fin 0) = true).
  { destruct H as [H|[H|[Hf H]]].
    - rewrite H. reflexivity.
    - apply orb_true_iff. right. unfold km_effettivi. fold km.
      destruct (non_positivo_effettivo km H) as [A B].
      now destruct (checked _).
    - apply orb_true_iff. right. unfold km_effettivi. fold km.
      unfold andata_e_ritorno in Hf. rewrite Hf. cbn [checked].
      now apply doppio_non_positivo. }
  rewrite E. reflexivity.
Qed.

(** C1.  Whenever the distance, the vehicle or the round-trip flag
    changes, the listener stores the new value and recomputes the label.
    For the vehicle [v] the select points at and a distance field that
    parses to [km > 0], the label is the currency format of
    [km * 2 * r] when the round-trip box is ticked and of [km * r] when
    it is not, [r] being the rate of [v] and the products those of
    Numbers; when no vehicle is selected, or the distance or its double
    for a round trip is not strictly positive, the label is the literal
    zero amount. *)
Theorem stima_rimborso
  (fmt : jsnum -> string) (veicoli : list Veicolo) (ev : Evento) (p : Pagina) :
  ricalcola ev p = true ->
  let p' := snd (gestisci fmt veicoli ev p) in
  let km := parseFloat (trasferta_km (campi p')) in
  campi p' =
    match ev with
    | InputKm valore => set_km valore (campi p)
    | ChangeVeicolo valore => set_veicolo valore (campi p)
    | ChangeAndataRitorno b => set_andata_ritorno b (campi p)
    | _ => campi p
    end
  /\ (forall v : Veicolo,
      veicolo_selezionato veicoli (campi p') v ->
      gt km (Fin 0) = true ->
      (andata_e_ritorno (campi p') ->
       rimborso_stimato p'
       = fmt (mul (mul km (Fin 2)) (arrotonda (tariffa_km v))))
      /\ (~ andata_e_ritorno (campi p') ->
          rimborso_stimato p' = fmt (mul km (arrotonda (tariffa_km v)))))
  /\ (trasferta_veicolo (campi p') = ""
      \/ gt km (Fin 0) = false
      \/ (andata_e_ritorno (campi p')
          /\ gt (mul km (Fin 2)) (Fin 0) = false) ->
      rimborso_stimato p' = "€ 0,00").
Proof.
  intros Hev.
  assert (E : exists q, snd (gestisci fmt veicoli ev p)
                        = aggiornaRimborso fmt veicoli q
                        /\ campi q = match ev with
                                     | InputKm valore => set_km valore (campi p)
                                     | ChangeVeicolo valore =>
                                         set_veicolo valore (campi p)
                                     | ChangeAndataRitorno b =>
                                         set_andata_ritorno b (campi p)
                                     | _ => campi p
                                     end).
  { destruct ev; simpl in Hev; try discriminate; simpl.
    - eexists; split; reflexivity.
    - eexists; split; reflexivity.
    - destruct (trasferta_andata_ritorno (campi p)); [|discriminate].
      eexists; split; reflexivity. }
  destruct E as [q [E Hq]]. rewrite E. cbv zeta.
  rewrite aggiornaRimborso_campi. split; [exact Hq|]. split.
  - intros v. apply aggiornaRimborso_positivo.
  - apply aggiornaRimborso_zero.
Qed.

(** Two cars, at 0.35 and at 0.42 per km.  With the second selected and
    the round-trip box ticked, typing 100 km shows 84 euro.  With the
    first selected and the box not ticked, typing 1.5 km shows the
    Number product of 1.5 and 0.35, which is below 0.525, as 0.52 euro.
    With no car selected, or a distance of -5, the label is the zero
    amount. *)
Lemma stima_rimborso_witness :
  let v1 := {| id_veicolo := 3; tariffa_km := 35 # 100 |} in
  let v2 := {| id_veicolo := 5; tariffa_km := 42 # 100 |} in
  let con (veicolo : string) (ar : bool) :=
    set_campi (set_andata_ritorno ar (set_veicolo veicolo campi_vuoti))
      pagina_iniziale in
  let dopo (ev : Evento) (p : Pagina) :=
    snd (gestisci formato_esempio [v1; v2] ev p) in
  (ricalcola (InputKm "100") (con "5" true) = true
   /\ veicolo_selezionato [v1; v2] (campi (dopo (InputKm "100") (con "5" true)))
        v2
   /\ andata_e_ritorno (campi (dopo (InputKm "100") (con "5" true)))
   /\ rimborso_stimato (dopo (InputKm "100") (con "5" true)) = "84,00 €")
  /\ (ricalcola (InputKm "1.5") (con "3" false) = true
      /\ veicolo_selezionato [v1; v2]
           (campi (dopo (InputKm "1.5") (con "3" false))) v1
      /\ ~ andata_e_ritorno (campi (dopo (InputKm "1.5") (con "3" false)))
      /\ mul (parseFloat "1.5") (arrotonda (tariffa_km v1))
         = Fin (1182194902184755 # 2251799813685248)
      /\ rimborso_stimato (dopo (InputKm "1.5") (con "3" false)) = "0,52 €")
  /\ (ricalcola (InputKm "100") pagina_iniziale = true
      /\ trasferta_veicolo (campi (dopo (InputKm "100") pagina_iniziale)) = ""
      /\ rimborso_stimato (dopo (InputKm "100") pagina_iniziale) = "€ 0,00")
  /\ (ricalcola (ChangeVeicolo "5") (con "" true) = true
      /\ rimborso_stimato
           (dopo (InputKm "-5") (dopo (ChangeVeicolo "5") (con "" true)))
         = "€ 0,00").
Proof.
  intros v1 v2 con dopo.
  assert (S2 : veicolo_selezionato [v1; v2]
                 (campi (dopo (InputKm "100") (con "5" true))) v2).
  { exists 5%Z, [v1], []. repeat split; try reflexivity; try discriminate.
    intros u [<-|[]]. discriminate. }
  assert (S1 : veicolo_selezionato [v1; v2]
                 (campi (dopo (InputKm "1.5") (con "3" false))) v1).
  { exists 3%Z, [], [v2]. repeat split; try reflexivity; try discriminate.
    intros u []. }
  assert (N1 : ~ andata_e_ritorno
                 (campi (dopo (InputKm "1.5") (con "3" false)))).
  { discriminate. }
  split; [|split; [|split]].
  - split; [reflexivity|]. split; [exact S2|]. split; [reflexivity|].
    etransitivity.
    + apply (proj1 (proj1 (proj2 (stima_rimborso formato_esempio [v1; v2]
                                    (InputKm "100") (con "5" true) eq_refl))
                      v2 S2 eq_refl)).
      reflexivity.
    + reflexivity.
  - split; [reflexivity|]. split; [exact S1|]. split; [exact N1|].
    split; [reflexivity|].
    etransitivity.
    + apply (proj2 (proj1 (proj2 (stima_rimborso formato_esempio [v1; v2]
                                    (InputKm "1.5") (con "3" false) eq_refl))
                      v1 S1 eq_refl)).
      exact N1.
    + reflexivity.
  - split; [reflexivity|]. split; [reflexivity|].
    apply (proj2 (proj2 (stima_rimborso formato_esempio [v1; v2]
                           (InputKm "100") pagina_iniziale eq_refl))).
    left. reflexivity.
  - split; [reflexivity|].
    apply (proj2 (proj2 (stima_rimborso formato_esempio [v1; v2]
                           (InputKm "-5")
                           (dopo (ChangeVeicolo "5") (con "" true))
                           eq_refl))).
    right. left. reflexivity.
Defined.

(** *** Validation of the create form *)

Lemma str_falsy_false (x : string) : str_falsy x = false <-> x <> "".
Proof. destruct x; simpl; split; congruence. Qed.

Lemma campo_vuoto_mancante (c : Campi) :
  campo_obbligatorio_vuoto c \/ distanza_nulla c ->
  campi_mancanti (leggi_dati c) = true.
Proof.
  unfold campo_obbligatorio_vuoto, distanza_nulla, campi_mancanti, leggi_dati.
  simpl.
  intros H;
    repeat match type of H with
           | _ \/ _ => destruct H as [H|H]
           end;
    rewrite H; simpl; repeat (rewrite ?orb_true_r; simpl); reflexivity.
Qed.

Lemma compilata_valida (c : Campi) :
  compilata c ->
  campi_mancanti (leggi_dati c) = false /\ valida_cap (leggi_dati c) = None.
Proof.
  unfold compilata, campi_mancanti, valida_cap, leggi_dati. simpl.
  intros H. decompose [and] H. clear H.
  repeat match goal with
         | H : _ <> "" |- _ => apply str_falsy_false in H; rewrite H; clear H
         end.
  repeat match goal with
         | H : _ = _ |- _ => rewrite H; clear H
         end.
  split; reflexivity.
Qed.

Lemma cap_non_valido_avviso (c : Campi) :
  cap_non_valido c ->
  exists messaggio,
    valida_cap (leggi_dati c) = Some (mostraToast messaggio warning).
Proof.
  unfold cap_non_valido, valida_cap, leggi_dati. simpl.
  destruct (five_digits (trasferta_cap_partenza c)); simpl.
  - intros [H|H]; [discriminate|]. rewrite H. simpl. eauto.
  - intros _. eauto.
Qed.

(** The checks the create handler does make.  A submission with an empty
    required field, a postal code that is not exactly five digits, or a
    distance that is unparsable or zero is blocked: one warning toast, no
    request, page untouched.  A form with every required field filled, a
    vehicle, a non-zero distance and two five-digit postal codes goes out
    as a POST.  The pattern rejects 1234 and accepts 12345. *)
Lemma submit_trasferta_validazione
  (post : Esito Z) (upload : Esito unit) (oggi : string) (p : Pagina) :
  (campo_obbligatorio_vuoto (campi p) \/ cap_non_valido (campi p)
   \/ distanza_nulla (campi p) ->
   bloccata (submit_trasferta post upload oggi p) p
   /\ richieste (fst (submit_trasferta post upload oggi p)) = [])
  /\ (compilata (campi p) ->
      exists seguito,
        fst (submit_trasferta post upload oggi p)
        = fetch POST API_TRASFERTE (Json (leggi_dati (campi p))) :: seguito)
  /\ five_digits "1234" = false /\ five_digits "12345" = true.
Proof.
  split; [|split; [|split; reflexivity]].
  - intros H. unfold submit_trasferta, bloccata.
    destruct (campi_mancanti (leggi_dati (campi p))) eqn:Hm.
    + simpl. eauto.
    + destruct H as [H|[H|H]].
      * rewrite campo_vuoto_mancante in Hm by (now left). discriminate.
      * destruct (cap_non_valido_avviso _ H) as [m Hv]. rewrite Hv.
        simpl. eauto.
      * rewrite campo_vuoto_mancante in Hm by (now right). discriminate.
  - intros H. destruct (compilata_valida _ H) as [Hm Hv].
    unfold submit_trasferta. rewrite Hm, Hv.
    destruct post; simpl; eauto.
Qed.

(** A four-digit postal code is stopped; the same form with five digits is
    sent.  A distance written as 1e-400 is too small for a Number: it
    parses to zero and the form is stopped. *)
Lemma submit_trasferta_validazione_esempi :
  let errato := pagina_esempio (modulo_esempio "1234" "Visita cliente" "140")
                  None in
  let giusto := pagina_esempio (modulo_esempio "12345" "Visita cliente" "140")
                  None in
  let minuscola :=
    pagina_esempio (modulo_esempio "12345" "Visita cliente" "1e-400") None in
  (cap_non_valido (campi errato)
   /\ bloccata (submit_trasferta (Risolta 7%Z) (Risolta tt) "2026-01-14" errato)
        errato
   /\ richieste
        (fst (submit_trasferta (Risolta 7%Z) (Risolta tt) "2026-01-14" errato))
      = [])
  /\ (compilata (campi giusto)
      /\ exists seguito,
          fst (submit_trasferta (Risolta 7%Z) (Risolta tt) "2026-01-14" giusto)
          = fetch POST API_TRASFERTE (Json (leggi_dati (campi giusto)))
              :: seguito)
  /\ (distanza_nulla (campi minuscola)
      /\ bloccata
           (submit_trasferta (Risolta 7%Z) (Risolta tt) "2026-01-14" minuscola)
           minuscola).
Proof.
  intros errato giusto minuscola.
  assert (He : cap_non_valido (campi errato)) by (left; reflexivity).
  assert (Hg : compilata (campi giusto)).
  { unfold compilata. simpl. repeat split; discriminate. }
  assert (Hm : distanza_nulla (campi minuscola)) by reflexivity.
  split; [|split].
  - split; [exact He|].
    exact (proj1 (submit_trasferta_validazione (Risolta 7%Z) (Risolta tt)
                    "2026-01-14" errato) (or_intror (or_introl He))).
  - split; [exact Hg|].
    exact (proj1 (proj2 (submit_trasferta_validazione (Risolta 7%Z)
                           (Risolta tt) "2026-01-14" giusto)) Hg).
  - split; [exact Hm|].
    exact (proj1 (proj1 (submit_trasferta_validazione (Risolta 7%Z)
                           (Risolta tt) "2026-01-14" minuscola)
                    (or_intror (or_intror Hm)))).
Qed.

(** C2, where the code departs from it.  With a distance of -5 km, which
    is not strictly positive, and everything else valid, the create form
    is not blocked: the trip is posted with [chilometri] -5.  The handler
    tests the distance for truthiness only, which stops an empty or zero
    field and lets a negative one through.  On the same page the estimate
    treats that distance as not positive and shows the zero amount, and
    the vehicle form turns down a rate of -5 with its own warning. *)
Theorem submit_distanza_negativa :
  let c := modulo_esempio "10121" "Visita cliente" "-5" in
  let p := pagina_esempio c None in
  let v := {| id_veicolo := 3; Trasferte.tariffa_km := 42 # 100 |} in
  let m := {| Veicoli.veicolo_marca := "Fiat";
              Veicoli.veicolo_modello := "Panda";
              Veicoli.veicolo_alimentazione := "Benzina";
              Veicoli.veicolo_tariffa := "-5" |} in
  distanza_non_positiva c
  /\ ~ campo_obbligatorio_vuoto c
  /\ ~ cap_non_valido c
  /\ chilometri (leggi_dati c) = Fin (-5 # 1)
  /\ ~ bloccata (submit_trasferta (Risolta 7%Z) (Risolta tt) "2026-01-14" p) p
  /\ fst (submit_trasferta (Risolta 7%Z) (Risolta tt) "2026-01-14" p)
     = [fetch POST API_TRASFERTE (Json (leggi_dati c));
        mostraToast "Trasferta salvata con successo" success;
        fetch GET API_TRASFERTE NessunCorpo]
  /\ rimborso_stimato
       (snd (gestisci formato_esempio [v] (InputKm "-5") p)) = "€ 0,00"
  /\ (forall risposta,
        Veicoli.submit_veicolo risposta m
        = [Veicoli.mostraToast "La tariffa deve essere positiva" warning]).
Proof.
  intros c p v m.
  split; [reflexivity|]. split.
  { unfold campo_obbligatorio_vuoto. simpl.
    intros H;
      repeat match type of H with
             | _ \/ _ => destruct H as [H|H]
             end; discriminate H. }
  split; [intros [H|H]; discriminate H|].
  split; [reflexivity|]. split.
  { intros [[avviso E] _]. vm_compute in E. discriminate E. }
  split; [reflexivity|]. split; [reflexivity|].
  intros risposta. reflexivity.
Qed.

(** *** Attachments *)

Lemma aggiornaRimborso_allegato fmt veicoli p :
  trasferta_allegato (aggiornaRimborso fmt veicoli p) = trasferta_allegato p.
Proof.
  unfold aggiornaRimborso.
  destruct (int_falsy _ || le _ _); [reflexivity|].
  destruct (find _ veicoli); reflexivity.
Qed.

Ltac in_lista :=
  repeat match goal with
         | H : False |- _ => destruct H
         | H : _ \/ _ |- _ => destruct H as [H|H]
         | H : In _ (_ ++ _) |- _ => apply in_app_or in H
         | H : In _ _ |- _ => progress simpl in H
         | H : _ = upload_di _ _ |- _ =>
             unfold upload_di in H; inversion H; subst; clear H
         end.

(** An upload request can only come out of a submission whose POST
    succeeded, right after the success toast, for the file of the input. *)
Lemma submit_upload_dopo_creazione post upload oggi p id f :
  In (upload_di id f) (fst (submit_trasferta post upload oggi p)) ->
  post = Risolta id /\ trasferta_allegato p = Some f
  /\ exists seguito,
      fst (submit_trasferta post upload oggi p)
      = fetch POST API_TRASFERTE (Json (leggi_dati (campi p)))
          :: mostraToast "Trasferta salvata con successo" success
          :: upload_di id f :: seguito.
Proof.
  unfold submit_trasferta.
  destruct (campi_mancanti _); [simpl; intros H; in_lista|].
  destruct (valida_cap _) as [avviso|] eqn:Hv.
  - simpl. intros H. unfold valida_cap in Hv.
    destruct (negb _) in Hv; [inversion Hv; subst; in_lista|].
    destruct (negb _) in Hv; [inversion Hv; subst; in_lista|discriminate].
  - destruct post as [id'|m]; [|simpl; intros H; in_lista].
    destruct (trasferta_allegato p) as [file|]; [|simpl; intros H; in_lista].
    unfold caricaAllegatoTrasferta.
    destruct upload; simpl; intros H; in_lista;
      (split; [reflexivity|split; [reflexivity|eexists; reflexivity]]).
Qed.

Lemma gestisci_upload fmt veicoli ev p id f :
  In (upload_di id f) (fst (gestisci fmt veicoli ev p)) ->
  trasferta_allegato p = Some f.
Proof.
  destruct ev; simpl; try (intros H; in_lista; fail).
  - destruct (trasferta_andata_ritorno (campi p)); simpl; intros H; in_lista.
  - unfold allegato_change. destruct file as [g|]; [|simpl; intros H; in_lista].
    destruct (MAX_ALLEGATO <? size g)%N; simpl; intros H; in_lista.
  - intros H. now apply submit_upload_dopo_creazione in H.
Qed.

Lemma gestisci_allegato_ok fmt veicoli ev p :
  allegato_ok p -> allegato_ok (snd (gestisci fmt veicoli ev p)).
Proof.
  unfold allegato_ok. intros Hp.
  destruct ev; simpl; try rewrite aggiornaRimborso_allegato; simpl;
    try exact Hp; try exact I.
  - destruct (trasferta_andata_ritorno (campi p)); simpl;
      try rewrite aggiornaRimborso_allegato; exact Hp.
  - unfold allegato_change. destruct file as [g|]; [|exact I].
    destruct (N.ltb_spec MAX_ALLEGATO (size g)); simpl; [exact I|assumption].
  - unfold submit_trasferta.
    destruct (campi_mancanti _); [exact Hp|].
    destruct (valida_cap _); [exact Hp|].
    destruct post; simpl; [exact I|exact Hp].
Qed.

Lemma esegui_upload_ok fmt veicoli evs : forall p id f,
  allegato_ok p ->
  In (upload_di id f) (fst (esegui fmt veicoli evs p)) ->
  (size f <= MAX_ALLEGATO)%N.
Proof.
  induction evs as [|ev rest IH]; intros p id f Hp Hin; [destruct Hin|].
  simpl in Hin.
  pose proof (gestisci_upload fmt veicoli ev p id f) as Hup.
  pose proof (gestisci_allegato_ok fmt veicoli ev p Hp) as Hok.
  destruct (gestisci fmt veicoli ev p) as [e1 p1].
  specialize (IH p1 id f Hok).
  destruct (esegui fmt veicoli rest p1) as [e2 p2].
  simpl in *. apply in_app_or in Hin. destruct Hin as [Hin|Hin].
  - specialize (Hup Hin). unfold allegato_ok in Hp. now rewrite Hup in Hp.
  - now apply IH.
Qed.

(** C8.  A chosen file above 10 MB is refused by the file input at once:
    an error toast, the input emptied, nothing sent.  Hence in every
    session every upload carries a file within the limit.  An upload is a
    request of its own, issued only after the POST that creates the trip
    succeeded.  When the upload fails the handler shows the error and a
    warning and goes on exactly as after a successful upload: no request
    undoes the creation. *)
Theorem gestione_allegati :
  MAX_ALLEGATO = 10485760%N
  /\ (forall (f : File) (p : Pagina),
        (MAX_ALLEGATO < size f)%N ->
        allegato_change (Some f) p
        = ([mostraToast "File troppo grande (max 10 MB)" error],
           rimuovi_allegato p))
  /\ (forall fmt veicoli (evs : list Evento) (id : Z) (f : File),
        In (upload_di id f) (fst (esegui fmt veicoli evs pagina_iniziale)) ->
        (size f <= MAX_ALLEGATO)%N)
  /\ (forall post upload oggi (p : Pagina) (id : Z) (f : File),
        In (upload_di id f) (fst (submit_trasferta post upload oggi p)) ->
        post = Risolta id /\ trasferta_allegato p = Some f
        /\ exists seguito,
            fst (submit_trasferta post upload oggi p)
            = fetch POST API_TRASFERTE (Json (leggi_dati (campi p)))
                :: mostraToast "Trasferta salvata con successo" success
                :: upload_di id f :: seguito)
  /\ (forall (id : Z) (messaggio oggi : string) (p : Pagina) (f : File),
        compilata (campi p) ->
        trasferta_allegato p = Some f ->
        submit_trasferta (Risolta id) (Rifiutata messaggio) oggi p
        = ([fetch POST API_TRASFERTE (Json (leggi_dati (campi p)));
            mostraToast "Trasferta salvata con successo" success;
            upload_di id f;
            mostraToast ("Errore: " ++ messaggio) error;
            mostraToast "Trasferta salvata, ma errore nell'upload allegato"
              warning;
            fetch GET API_TRASFERTE NessunCorpo],
           snd (submit_trasferta (Risolta id) (Risolta tt) oggi p))).
Proof.
  split; [reflexivity|]. split; [|split; [|split]].
  - intros f p H. unfold allegato_change.
    apply N.ltb_lt in H. rewrite H. reflexivity.
  - intros fmt veicoli evs id f.
    apply esegui_upload_ok. exact I.
  - intros. now apply submit_upload_dopo_creazione.
  - intros id m oggi p f Hc Hf.
    destruct (compilata_valida _ Hc) as [Hm Hv].
    unfold submit_trasferta. rewrite Hm, Hv, Hf. reflexivity.
Qed.

(** An eleven-megabyte scan is refused; a small receipt is uploaded after
    the trip was created, and the failure of that upload leaves the
    creation in place. *)
Lemma gestione_allegati_witness :
  let scansione := {| name := "scansione.pdf"; size := 11534336 |} in
  let ricevuta := {| name := "ricevuta.pdf"; size := 204800 |} in
  let c := modulo_esempio "10121" "Visita cliente" "140" in
  let p := pagina_esempio c (Some ricevuta) in
  let sessione :=
    [Compila c; InputKm "140"; ChangeVeicolo "3";
     ChangeAllegato (Some scansione); ChangeAllegato (Some ricevuta);
     SubmitForm (Risolta 7%Z) (Risolta tt) "2026-01-14"] in
  ((MAX_ALLEGATO < size scansione)%N
   /\ allegato_change (Some scansione) p
      = ([mostraToast "File troppo grande (max 10 MB)" error],
         rimuovi_allegato p))
  /\ (In (upload_di 7 ricevuta)
         (fst (esegui formato_esempio [] sessione pagina_iniziale))
      /\ (size ricevuta <= MAX_ALLEGATO)%N)
  /\ (In (upload_di 7 ricevuta)
         (fst (submit_trasferta (Risolta 7%Z) (Risolta tt) "2026-01-14" p))
      /\ trasferta_allegato p = Some ricevuta)
  /\ (compilata (campi p)
      /\ richieste
           (fst (submit_trasferta (Risolta 7%Z) (Rifiutata "HTTP 500")
                   "2026-01-14" p))
         = [fetch POST API_TRASFERTE (Json (leggi_dati (campi p)));
            upload_di 7 ricevuta;
            fetch GET API_TRASFERTE NessunCorpo]).
Proof.
  intros scansione ricevuta c p sessione.
  destruct gestione_allegati as [_ [Ha [Hb [Hc Hd]]]].
  assert (Hgrande : (MAX_ALLEGATO < size scansione)%N) by reflexivity.
  assert (Hin1 : In (upload_di 7 ricevuta)
                   (fst (esegui formato_esempio [] sessione pagina_iniziale))).
  { vm_compute. repeat (first [left; reflexivity | right]). }
  assert (Hin2 : In (upload_di 7 ricevuta)
                   (fst (submit_trasferta (Risolta 7%Z) (Risolta tt)
                           "2026-01-14" p))).
  { vm_compute. repeat (first [left; reflexivity | right]). }
  assert (Hcomp : compilata (campi p)).
  { unfold compilata. simpl. repeat split; discriminate. }
  split; [split; [exact Hgrande | exact (Ha scansione p Hgrande)]|].
  split; [split; [exact Hin1 | exact (Hb _ _ _ _ _ Hin1)]|].
  split; [split; [exact Hin2 | exact (proj1 (proj2 (Hc _ _ _ _ _ _ Hin2)))]|].
  split; [exact Hcomp|].
  rewrite (Hd 7%Z "HTTP 500" "2026-01-14" p ricevuta Hcomp eq_refl).
  reflexivity.
Defined.

(** *** The edit form *)

(** What the edit handler does share with the create handler: the two
    postal-code checks, and the request is a PUT on the record. *)
Lemma submit_edit_trasferta_cap (put : Esito unit) (p : PaginaModifica) :
  (cap_non_valido (edit_campi p) -> bloccata (submit_edit_trasferta put p) p)
  /\ (~ cap_non_valido (edit_campi p) ->
      exists seguito,
        fst (submit_edit_trasferta put p)
        = fetch PUT (TrasfertaUrl (parseInt (edit_trasferta_id p)))
            (Json (leggi_dati (edit_campi p))) :: seguito).
Proof.
  unfold submit_edit_trasferta, bloccata. split.
  - intros H. destruct (cap_non_valido_avviso _ H) as [m Hv]. rewrite Hv.
    simpl. eauto.
  - intros H. unfold cap_non_valido in H. unfold valida_cap, leggi_dati.
    simpl.
    destruct (five_digits (trasferta_cap_partenza (edit_campi p)));
      [|exfalso; auto].
    destruct (five_digits (trasferta_cap_arrivo (edit_campi p)));
      [|exfalso; auto].
    simpl. destruct put; simpl; eauto.
Qed.

(** Opening the dialog fills the form from the fetched record. *)
Lemma apri_modifica_popola to_string (veicoli : list Veicolo)
  (motivi : list string) (id : Z) (t : Trasferta) (p : PaginaModifica) :
  trasferta_andata_ritorno (edit_campi p) <> None ->
  snd (apriFIenModificaTrasferta to_string veicoli motivi id (Risolta t) p)
  = {| edit_trasferta_id := to_string (Fin (intero64 (t_id t) # 1));
       edit_campi := popola_campi to_string veicoli motivi t (edit_campi p);
       editTrasfertaModal := true |}.
Proof.
  intros H. unfold apriFIenModificaTrasferta.
  destruct (trasferta_andata_ritorno (edit_campi p)); [reflexivity|].
  congruence.
Qed.

(** C9, where the code departs from it.  With the reason and the distance
    left empty the create form is blocked, while the edit form, holding
    the same values, sends its PUT: the edit handler has no check of the
    required fields. *)
Theorem edit_senza_campi_obbligatori :
  let c := modulo_esempio "10121" "" "" in
  let nuova := pagina_esempio c None in
  let modifica := {| edit_trasferta_id := "12"; edit_campi := c;
                     editTrasfertaModal := true |} in
  campo_obbligatorio_vuoto c
  /\ distanza_nulla c
  /\ bloccata (submit_trasferta (Risolta 7%Z) (Risolta tt) "2026-01-14" nuova)
       nuova
  /\ fst (submit_edit_trasferta (Risolta tt) modifica)
     = [fetch PUT (TrasfertaUrl (Some 12%Z)) (Json (leggi_dati c));
        mostraToast "Trasferta modificata con successo" success;
        fetch GET API_TRASFERTE NessunCorpo].
Proof.
  intros c nuova modifica.
  assert (Hv : campo_obbligatorio_vuoto c).
  { unfold campo_obbligatorio_vuoto. simpl. tauto. }
  split; [exact Hv|]. split; [reflexivity|]. split.
  - unfold bloccata. vm_compute. eauto.
  - reflexivity.
Qed.

End TrasferteSpec.

(* ===================================================================== *)
(** ** Properties of the address autocomplete *)
(* ===================================================================== *)

Module AddressAutocompleteSpec.
Import Js AddressAutocomplete.

(** *** The geocoding client *)

Lemma guardia_lunga (query : string) :
  (2 <= String.length query)%nat ->
  str_falsy query || (String.length query <? 2)%nat = false.
Proof.
  intros H. destruct query as [|c r]; simpl in *; [lia|].
  destruct r; simpl in *; [lia | reflexivity].
Qed.

Lemma guardia_corta (query : string) :
  (String.length query < 2)%nat ->
  str_falsy query || (String.length query <? 2)%nat = true.
Proof.
  intros H. apply orb_true_iff. right. now apply Nat.ltb_lt.
Qed.

(** The [catch] block returns. *)
Lemma catch_returns (error : Errore) (w : Mondo) :
  exists w',
    ((if String.eqb (err_name error) "AbortError"
      then emit (console_warn "[ADDRESS-AUTOCOMPLETE] Timeout")
      else emit (console_error "[ADDRESS-AUTOCOMPLETE] Errore:")) ;;;
     ret (@nil Suggestion)) w = (Returns [], w').
Proof.
  destruct (String.eqb (err_name error) "AbortError");
    unfold bind, emit, ret; simpl; eauto.
Qed.

Lemma search_returns env query cc w :
  exists l w', addressAutocompleteSearch env query cc w = (Returns l, w').
Proof.
  unfold addressAutocompleteSearch.
  destruct (str_falsy query || (String.length query <? 2)%nat).
  - unfold ret. eauto.
  - unfold try_catch.
    match goal with
    | |- context [match ?m w with _ => _ end] => destruct (m w) as [[l|e] w1]
    end.
    + eauto.
    + destruct (catch_returns e w1) as [w' E]. rewrite E. eauto.
Qed.

(** C4.  The search never throws: every call returns a list.  With a
    query of at least two characters, so that a request goes out, the
    list is empty and the failure is logged when the abort timer of
    5000 ms runs before the call settles, when the call is rejected, when
    the status is not a success, when the body is not JSON, and when the
    JSON is not an array. *)
Theorem search_never_throws :
  NOMINATIM_TIMEOUT = 5000%N
  /\ (forall env query cc w,
        exists l w',
          addressAutocompleteSearch env query cc w = (Returns l, w'))
  /\ (forall env query cc w,
        (2 <= String.length query)%nat ->
        (NOMINATIM_TIMEOUT < durata env)%N ->
        addressAutocompleteSearch env query cc w
        = (Returns [],
           dopo_richiesta w query cc
             (console_warn "[ADDRESS-AUTOCOMPLETE] Timeout")))
  /\ (forall env query cc w error,
        (2 <= String.length query)%nat ->
        (durata env <= NOMINATIM_TIMEOUT)%N ->
        esito env = rete_errore error ->
        addressAutocompleteSearch env query cc w
        = (Returns [],
           dopo_richiesta w query cc
             (if String.eqb (err_name error) "AbortError"
              then console_warn "[ADDRESS-AUTOCOMPLETE] Timeout"
              else console_error "[ADDRESS-AUTOCOMPLETE] Errore:")))
  /\ (forall env query cc w response,
        (2 <= String.length query)%nat ->
        (durata env <= NOMINATIM_TIMEOUT)%N ->
        esito env = risposta response ->
        ok response = false \/ body response = json_invalido
        \/ (exists v, body response = json_valore v /\ is_array v = false) ->
        exists riga,
          addressAutocompleteSearch env query cc w
          = (Returns [], dopo_richiesta w query cc riga)
          /\ (riga = console_error "[ADDRESS-AUTOCOMPLETE] Errore:"
              \/ riga
                 = console_error "[ADDRESS-AUTOCOMPLETE] Risposta non valida:")).
Proof.
  split; [reflexivity|]. split; [exact search_returns|].
  split; [|split].
  - intros env query cc w Hq Ht.
    unfold addressAutocompleteSearch. rewrite (guardia_lunga _ Hq).
    apply N.ltb_lt in Ht.
    unfold try_catch, bind, fetch, invia, emit, throw, ret, bind. cbn.
    rewrite Ht. cbn. unfold dopo_richiesta, richiesta_di.
    now rewrite <- app_assoc.
  - intros env query cc w error Hq Ht He.
    unfold addressAutocompleteSearch. rewrite (guardia_lunga _ Hq).
    apply N.ltb_ge in Ht.
    unfold try_catch, bind, fetch, invia, emit, throw, ret, bind. cbn.
    rewrite Ht, He. unfold dopo_richiesta, richiesta_di.
    destruct (String.eqb (err_name error) "AbortError"); cbn;
      now rewrite <- app_assoc.
  - intros env query cc w response Hq Ht He Hbad.
    unfold addressAutocompleteSearch. rewrite (guardia_lunga _ Hq).
    apply N.ltb_ge in Ht.
    unfold try_catch, bind, fetch, invia, emit, throw, ret, bind,
      response_json.
    cbn. rewrite Ht, He. unfold dopo_richiesta, richiesta_di.
    destruct (ok response) eqn:Hok; cbn.
    + destruct Hbad as [Hbad|[Hbad|[v [Hbad Hv]]]]; [discriminate| |].
      * rewrite Hbad. cbn. eexists. rewrite <- app_assoc.
        split; [reflexivity|]. now left.
      * rewrite Hbad.
        destruct v; try discriminate; cbn;
          (eexists; rewrite <- app_assoc; split; [reflexivity|]; now right).
    + eexists. rewrite <- app_assoc. split; [reflexivity|]. now left.
Qed.

(** A call that hangs for six seconds, a connection that drops, and a
    503 that arrives on time. *)
Lemma search_never_throws_witness :
  let sospesa := risposta_esempio 6000 "Via Roma, Torino" in
  let caduta := {| durata := 30;
                   esito := rete_errore (TypeError "Failed to fetch") |} in
  let guasta := {| durata := 120;
                   esito := risposta {| ok := false; status := 503;
                                        body := json_invalido |} |} in
  ((2 <= String.length "via roma")%nat
   /\ (NOMINATIM_TIMEOUT < durata sospesa)%N
   /\ fst (addressAutocompleteSearch sospesa "via roma" "it" mondo_vuoto)
      = Returns [])
  /\ ((durata caduta <= NOMINATIM_TIMEOUT)%N
      /\ addressAutocompleteSearch caduta "via roma" "it" mondo_vuoto
         = (Returns [],
            dopo_richiesta mondo_vuoto "via roma" "it"
              (console_error "[ADDRESS-AUTOCOMPLETE] Errore:")))
  /\ ((durata guasta <= NOMINATIM_TIMEOUT)%N
      /\ exists riga,
          addressAutocompleteSearch guasta "via roma" "it" mondo_vuoto
          = (Returns [], dopo_richiesta mondo_vuoto "via roma" "it" riga)
          /\ (riga = console_error "[ADDRESS-AUTOCOMPLETE] Errore:"
              \/ riga
                 = console_error "[ADDRESS-AUTOCOMPLETE] Risposta non valida:")).
Proof.
  intros sospesa caduta guasta.
  destruct search_never_throws as [_ [_ [Ht [He Hr]]]].
  assert (Hq : (2 <= String.length "via roma")%nat) by (simpl; lia).
  assert (H1 : (NOMINATIM_TIMEOUT < durata sospesa)%N) by reflexivity.
  assert (H2 : (durata guasta <= NOMINATIM_TIMEOUT)%N) by discriminate.
  assert (H3 : (durata caduta <= NOMINATIM_TIMEOUT)%N) by discriminate.
  split; [|split].
  - split; [exact Hq|]. split; [exact H1|].
    rewrite (Ht sospesa "via roma" "it" mondo_vuoto Hq H1). reflexivity.
  - split; [exact H3|].
    exact (He caduta "via roma" "it" mondo_vuoto _ Hq H3 eq_refl).
  - split; [exact H2|].
    exact (Hr guasta "via roma" "it" mondo_vuoto _ Hq H2 eq_refl
              (or_introl eq_refl)).
Defined.

(** An array with a [null] inside: the mapping throws on the first
    property read, and the [catch] turns that into the empty list too. *)
Lemma search_elemento_nullo :
  addressAutocompleteSearch
    {| durata := 90;
       esito := risposta {| ok := true; status := 200;
                            body := json_valore (Array [Null]) |} |}
    "via roma" "it" mondo_vuoto
  = (Returns [],
     {| console := [console_log "[ADDRESS-AUTOCOMPLETE] Ricerca:";
                    console_log "[ADDRESS-AUTOCOMPLETE] Risultati:";
                    console_error "[ADDRESS-AUTOCOMPLETE] Errore:"];
        rete := [richiesta_di "via roma" "it"] |}).
Proof. reflexivity. Qed.

(** *** Short queries *)

Lemma length_list_ascii_of_string (x : string) :
  length (list_ascii_of_string x) = String.length x.
Proof. induction x; simpl; congruence. Qed.

Lemma length_string_of_list_ascii (l : list ascii) :
  String.length (string_of_list_ascii l) = length l.
Proof. induction l; simpl; congruence. Qed.

Lemma drop_white_length (l : list ascii) :
  (length (drop_white l) <= length l)%nat.
Proof.
  induction l as [|c r IH]; simpl; [lia|].
  destruct (is_white_space c); simpl; lia.
Qed.

(** Trimming never lengthens a string: what is too short for the client
    is too short for the controller. *)
Lemma trim_length (x : string) :
  (String.length (trim x) <= String.length x)%nat.
Proof.
  unfold trim.
  rewrite length_string_of_list_ascii, length_rev.
  etransitivity; [apply drop_white_length|].
  rewrite length_rev.
  etransitivity; [apply drop_white_length|].
  now rewrite length_list_ascii_of_string.
Qed.

(** C5.  A query shorter than two characters makes the client return the
    empty list at once, with nothing sent and nothing logged.  An input
    whose trimmed value is shorter than two characters makes the
    controller empty and hide the list at once, with no debounce timer
    left and no call to the client started: the next timer tick finds
    nothing to run. *)
Theorem query_corta :
  (forall env query cc w,
      (String.length query < 2)%nat ->
      addressAutocompleteSearch env query cc w = (Returns [], w))
  /\ (forall options valore st,
        (String.length (trim valore) < 2)%nat ->
        let st' := gestisci options (Input valore) st in
        list_innerHTML st' = vuoto
        /\ list_show st' = false
        /\ debounceTimer st' = None
        /\ in_attesa st' = in_attesa st
        /\ gestisci options DebounceScatta st' = st').
Proof.
  split.
  - intros env query cc w H. unfold addressAutocompleteSearch.
    now rewrite (guardia_corta _ H).
  - intros options valore st H. simpl. unfold on_input.
    apply Nat.ltb_lt in H. rewrite H. simpl. repeat split.
Qed.

(** One letter, and one letter between blanks, after a list was shown. *)
Lemma query_corta_witness :
  let env := risposta_esempio 80 "Via Roma, Torino" in
  let aperta :=
    esegui opzioni_esempio [Input "via"; DebounceScatta; Risolve 0 env]
      stato_iniziale in
  ((String.length "v" < 2)%nat
   /\ addressAutocompleteSearch env "v" "it" mondo_vuoto
      = (Returns [], mondo_vuoto))
  /\ (list_show aperta = true
      /\ (String.length (trim " v ") < 2)%nat
      /\ list_innerHTML (gestisci opzioni_esempio (Input " v ") aperta) = vuoto
      /\ list_show (gestisci opzioni_esempio (Input " v ") aperta) = false
      /\ in_attesa (gestisci opzioni_esempio (Input " v ") aperta) = []).
Proof.
  intros env aperta.
  destruct query_corta as [Hc Hi].
  assert (H1 : (String.length "v" < 2)%nat) by (simpl; lia).
  assert (H2 : (String.length (trim " v ") < 2)%nat) by (vm_compute; lia).
  split.
  - split; [exact H1|]. exact (Hc env "v" "it" mondo_vuoto H1).
  - split; [reflexivity|]. split; [exact H2|].
    destruct (Hi opzioni_esempio " v " aperta H2) as [Ha [Hb [_ [Hd _]]]].
    split; [exact Ha|]. split; [exact Hb|]. rewrite Hd. reflexivity.
Defined.

(** *** Superseded requests *)

(** C3, where the code departs from it.  [currentRequest] is one flag for
    all calls.  Call 0 (for "via") is superseded by call 1 (for "via r"),
    which resolves first and is shown; a third call is then started, which
    raises the flag again; when call 0 resolves at last it finds the flag
    raised and overwrites the list with its own, stale result, and lowers
    the flag, so that the result of the third call is dropped when it
    arrives.  With only two calls the older one, resolving first, is shown
    as well, and the newer result is dropped in the same way. *)
Theorem risultato_superato_mostrato :
  let a := risposta_esempio 1200 "Via Vecchia" in
  let b := risposta_esempio 100 "Via Roma" in
  let c := risposta_esempio 300 "Via Roma 10" in
  let prima :=
    [Input "via"; DebounceScatta; Input "via r"; DebounceScatta;
     Risolve 1 b] in
  let poi := [Input "via ro"; DebounceScatta; Risolve 0 a] in
  let dopo_b := esegui opzioni_esempio prima stato_iniziale in
  let dopo_a := esegui opzioni_esempio poi dopo_b in
  let dopo_c := gestisci opzioni_esempio (Risolve 2 c) dopo_a in
  let due :=
    esegui opzioni_esempio
      [Input "via"; DebounceScatta; Input "via r"; DebounceScatta;
       Risolve 0 a; Risolve 1 b] stato_iniziale in
  (list_innerHTML dopo_b = voci [voce_esempio "Via Roma"]
   /\ in_attesa dopo_b = [(0, "via")])
  /\ (list_innerHTML dopo_a = voci [voce_esempio "Via Vecchia"]
      /\ list_show dopo_a = true
      /\ input_value dopo_a = "via ro"
      /\ in_attesa dopo_a = [(2, "via ro")])
  /\ (list_innerHTML dopo_c = voci [voce_esempio "Via Vecchia"]
      /\ in_attesa dopo_c = [])
  /\ (list_innerHTML due = voci [voce_esempio "Via Vecchia"]
      /\ list_show due = true
      /\ input_value due = "via r"
      /\ in_attesa due = []).
Proof.
  vm_compute. repeat split.
Qed.

End AddressAutocompleteSpec.

(* ===================================================================== *)
(** ** Properties of the archive *)
(* ===================================================================== *)

Module ArchivioSpec.
Import Js Archivio.
#[local] Open Scope list_scope.

(** *** The selection set *)

Lemma has_In (s : list Z) (x : Z) : has s x = true <-> In x s.
Proof.
  unfold has. rewrite existsb_exists. split.
  - intros [y [Hy E]]. apply Z.eqb_eq in E. now subst.
  - intros H. exists x. split; [assumption | apply Z.eqb_refl].
Qed.

Lemma has_false (s : list Z) (x : Z) : has s x = false <-> ~ In x s.
Proof.
  rewrite <- has_In. destruct (has s x); split; congruence.
Qed.

Lemma add_In (s : list Z) (x y : Z) : In y (add s x) <-> y = x \/ In y s.
Proof.
  unfold add. destruct (has s x) eqn:E.
  - apply has_In in E. split; [auto|]. intros [H|H]; [now subst | assumption].
  - rewrite in_app_iff. simpl. intuition.
Qed.

Lemma delete_In (s : list Z) (x y : Z) :
  In y (delete s x) <-> In y s /\ y <> x.
Proof.
  unfold delete. rewrite filter_In, negb_true_iff, Z.eqb_neq. tauto.
Qed.

Lemma add_NoDup (s : list Z) (x : Z) : NoDup s -> NoDup (add s x).
Proof.
  intros H. unfold add. destruct (has s x) eqn:E; [assumption|].
  apply has_false in E. apply NoDup_app; [assumption | | ].
  - repeat constructor. simpl. tauto.
  - intros y Hy [Hx|[]]. subst. contradiction.
Qed.

Lemma delete_NoDup (s : list Z) (x : Z) : NoDup s -> NoDup (delete s x).
Proof. intros H. unfold delete. now apply NoDup_filter. Qed.

Lemma delete_size (s : list Z) (x : Z) :
  NoDup s -> In x s -> S (size (delete s x)) = size s.
Proof.
  unfold size, delete.
  induction s as [|y r IH]; intros Hn Hin; [destruct Hin|].
  inversion Hn as [|? ? Hy Hr]; subst. simpl.
  destruct (Z.eqb_spec y x) as [E|E]; simpl.
  - subst. f_equal.
    assert (F : filter (fun z => negb (z =? x)%Z) r = r).
    { apply forallb_filter_id. apply forallb_forall. intros z Hz.
      apply negb_true_iff, Z.eqb_neq. intros ->. contradiction. }
    now rewrite F.
  - f_equal. apply IH; [assumption|]. destruct Hin; [contradiction|assumption].
Qed.

Lemma seleziona_In tutti righe : forall s x,
  In x (seleziona tutti righe s) <->
  if tutti then In x s \/ In x (map data_id righe)
  else In x s /\ ~ In x (map data_id righe).
Proof.
  unfold seleziona.
  induction righe as [|r rest IH]; intros s x; simpl.
  - destruct tutti; tauto.
  - rewrite IH. destruct tutti.
    + rewrite add_In. intuition.
    + rewrite delete_In. intuition.
Qed.

Lemma seleziona_NoDup tutti righe : forall s,
  NoDup s -> NoDup (seleziona tutti righe s).
Proof.
  unfold seleziona.
  induction righe as [|r rest IH]; intros s H; simpl; [assumption|].
  apply IH. destruct tutti; [now apply add_NoDup | now apply delete_NoDup].
Qed.

(** From the empty set, ticking all rows of distinct ids stores exactly
    their ids, in row order. *)
Lemma seleziona_tutte righe : forall s,
  NoDup (s ++ map data_id righe) ->
  seleziona true righe s = s ++ map data_id righe.
Proof.
  unfold seleziona.
  induction righe as [|r rest IH]; intros s H; simpl.
  - now rewrite app_nil_r.
  - simpl in H.
    assert (Hx : has s (data_id r) = false).
    { apply has_false. intros Hin.
      apply NoDup_remove_2 in H. apply H. apply in_or_app. now left. }
    unfold add at 2. rewrite Hx.
    rewrite IH; rewrite <- app_assoc; simpl; [reflexivity | assumption].
Qed.

(** *** Rendering and the filters *)

Lemma visualizza_selezione lista st :
  selectedTrasferte (visualizzaTutteLeTrasferte lista st)
  = selectedTrasferte st.
Proof. reflexivity. Qed.


Lemma visualizza_coerente lista st :
  NoDup (selectedTrasferte st) ->
  coerente (visualizzaTutteLeTrasferte lista st).
Proof.
  intros H. split; [exact H|]. simpl.
  destruct lista as [|t rest]; [exact I|].
  split; [reflexivity|].
  unfold ids_righe, setupCheckboxListeners. simpl.
  now rewrite map_map.
Qed.

Lemma toggle_riga_ids idx : forall l,
  map data_id (toggle_riga idx l) = map data_id l.
Proof.
  induction idx as [|n IH]; intros [|r rest]; simpl; try reflexivity.
  now rewrite IH.
Qed.

Lemma gestisci_coerente ev st : coerente st -> coerente (gestisci ev st).
Proof.
  intros [Hn Ht]. destruct ev; simpl.
  - now apply visualizza_coerente.
  - unfold applicaFiltri. now apply visualizza_coerente.
  - unfold applicaFiltri. now apply visualizza_coerente.
  - now apply visualizza_coerente.
  - unfold on_change_riga.
    destruct (trasferte_list st) as [tab|] eqn:E; [|split; [exact Hn|now rewrite E]].
    destruct (nth_error (righe tab) idx) as [r|];
      [|split; [exact Hn|now rewrite E]].
    split; simpl.
    + destruct (negb (cb_checked r));
        [now apply add_NoDup | now apply delete_NoDup].
    + destruct Ht as [Ha Hb]. split; [exact Ha|].
      unfold ids_righe in *. simpl. now rewrite toggle_riga_ids.
  - destruct (trasferte_list st) as [tab|] eqn:E;
      [|split; [exact Hn|now rewrite E]].
    unfold on_change_select_all. rewrite E. split; simpl.
    + now apply seleziona_NoDup.
    + destruct Ht as [Ha Hb]. split; [exact Ha|].
      unfold ids_righe in *. simpl. rewrite map_map. simpl. exact Hb.
  - unfold on_change_select_all.
    destruct (trasferte_list st) as [tab|] eqn:E;
      [|split; [exact Hn|now rewrite E]].
    split; simpl.
    + now apply seleziona_NoDup.
    + destruct Ht as [Ha Hb]. split; [exact Ha|].
      unfold ids_righe in *. simpl. rewrite map_map. simpl. exact Hb.
  - unfold on_change_select_all.
    destruct (trasferte_list st) as [tab|] eqn:E;
      [|split; [exact Hn|now rewrite E]].
    split; simpl.
    + now apply seleziona_NoDup.
    + destruct Ht as [Ha Hb]. split; [exact Ha|].
      unfold ids_righe in *. simpl. rewrite map_map. simpl. exact Hb.
Qed.

Lemma esegui_coerente evs : forall st,
  coerente st -> coerente (esegui evs st).
Proof.
  unfold esegui.
  induction evs as [|ev rest IH]; intros st H; simpl; [exact H|].
  apply IH. now apply gestisci_coerente.
Qed.

Lemma iniziale_coerente : coerente stato_iniziale.
Proof. split; [constructor | exact I]. Qed.



(** *** The select-all checkbox *)

Lemma toggle_riga_length idx : forall l,
  length (toggle_riga idx l) = length l.
Proof.
  intros l. rewrite <- (length_map data_id), toggle_riga_ids.
  apply length_map.
Qed.

(** After a row checkbox changed, the select-all box says whether the set
    is as large as the table. *)
Lemma on_change_riga_select_all st idx tab r :
  coerente st ->
  trasferte_list st = Some tab ->
  nth_error (righe tab) idx = Some r ->
  exists tab',
    trasferte_list (on_change_riga idx st) = Some tab'
    /\ (cb_select_all tab' = true <->
        size (selectedTrasferte (on_change_riga idx st))
        = length (righe tab')).
Proof.
  intros [_ Hc] Ht Hr. rewrite Ht in Hc. destruct Hc as [_ Hids].
  unfold on_change_riga. rewrite Ht, Hr. eexists. split; [reflexivity|].
  simpl. rewrite toggle_riga_length, Nat.eqb_eq.
  assert (E : length (righe tab) = length (trasferte tab)).
  { unfold ids_righe in Hids.
    now rewrite <- (length_map data_id), Hids, length_map. }
  now rewrite E.
Qed.

(** Toggling select-all: every row box and every row id follow it; ids
    that are not in the table stay as they were. *)
Lemma on_change_select_all_effetto st tab tutti :
  trasferte_list st = Some tab ->
  exists tab',
    trasferte_list (on_change_select_all tutti st) = Some tab'
    /\ cb_select_all tab' = tutti
    /\ ids_righe tab' = ids_righe tab
    /\ Forall (fun r => cb_checked r = tutti) (righe tab')
    /\ (forall x, In x (ids_righe tab) ->
         has (selectedTrasferte (on_change_select_all tutti st)) x = tutti)
    /\ (forall x, ~ In x (ids_righe tab) ->
         has (selectedTrasferte (on_change_select_all tutti st)) x
         = has (selectedTrasferte st) x).
Proof.
  intros Ht. unfold on_change_select_all. rewrite Ht.
  eexists. split; [reflexivity|]. simpl.
  split; [reflexivity|]. split; [|split; [|split]].
  - unfold ids_righe. simpl. now rewrite map_map.
  - apply Forall_forall. intros r Hr. apply in_map_iff in Hr.
    destruct Hr as [r0 [<- _]]. reflexivity.
  - intros x Hx. unfold ids_righe in Hx. destruct tutti.
    + apply has_In, seleziona_In. now right.
    + apply has_false. rewrite seleziona_In. tauto.
  - intros x Hx. unfold ids_righe in Hx.
    destruct (has (selectedTrasferte st) x) eqn:E.
    + apply has_In in E. apply has_In, seleziona_In.
      destruct tutti; tauto.
    + apply has_false in E. apply has_false. rewrite seleziona_In.
      destruct tutti; tauto.
Qed.

(** Select all on a fresh table of [n] distinct trips, from an empty set,
    then untick any one row. *)
Lemma seleziona_tutto_poi_una lista st idx :
  selectedTrasferte st = [] ->
  NoDup (map id lista) ->
  (idx < length lista)%nat ->
  let st1 := gestisci ChangeSelectAll (visualizzaTutteLeTrasferte lista st) in
  let st2 := gestisci (ChangeRiga idx) st1 in
  size (selectedTrasferte st1) = length lista
  /\ (exists tab, trasferte_list st1 = Some tab /\ cb_select_all tab = true)
  /\ S (size (selectedTrasferte st2)) = length lista
  /\ exists tab, trasferte_list st2 = Some tab /\ cb_select_all tab = false.
Proof.
  intros Hs Hn Hidx.
  assert (E0 : trasferte_list (visualizzaTutteLeTrasferte lista st)
               = Some (setupCheckboxListeners lista [])).
  { unfold visualizzaTutteLeTrasferte. simpl. rewrite Hs.
    destruct lista; [simpl in Hidx; lia | reflexivity]. }
  assert (Hsel : seleziona true (righe (setupCheckboxListeners lista []))
                   [] = map id lista).
  { rewrite seleziona_tutte; simpl; rewrite map_map; simpl;
      [reflexivity | assumption]. }
  assert (E1 : gestisci ChangeSelectAll (visualizzaTutteLeTrasferte lista st)
               = set_tabella
                   (Some {| trasferte := lista;
                            righe := map (set_checked true)
                                       (righe (setupCheckboxListeners lista []));
                            cb_select_all := true;
                            selection_counter := length lista |})
                   (map id lista) (visualizzaTutteLeTrasferte lista st)).
  { unfold gestisci. rewrite E0. unfold on_change_select_all.
    rewrite E0. cbn [cb_select_all setupCheckboxListeners negb].
    rewrite visualizza_selezione, Hs, Hsel.
    unfold size. rewrite length_map. reflexivity. }
  cbv zeta. rewrite E1.
  split; [apply length_map|].
  split; [eexists; split; reflexivity|].
  unfold gestisci, on_change_riga.
  cbn [trasferte_list set_tabella righe setupCheckboxListeners trasferte
       selectedTrasferte].
  rewrite map_map. cbn [set_checked data_id].
  destruct (nth_error lista idx) as [t|] eqn:Et;
    [|apply nth_error_None in Et; lia].
  rewrite (map_nth_error _ _ _ Et).
  cbn [cb_checked negb data_id set_checked selectedTrasferte set_tabella
       trasferte_list cb_select_all].
  assert (Hin : In (id t) (map id lista)).
  { apply in_map. eapply nth_error_In. exact Et. }
  pose proof (delete_size _ _ Hn Hin) as Hd.
  unfold size in *. rewrite length_map in Hd.
  split; [exact Hd|].
  eexists. split; [reflexivity|]. cbn [cb_select_all].
  apply Nat.eqb_neq. lia.
Qed.

(** C6, as the code has it.  In every state the page can reach, right
    after a row checkbox changed the select-all box is ticked exactly when
    the size of the set equals the number of rendered rows.  Toggling
    select-all sets or clears every row checkbox and puts the id of every
    row in the set or takes it out, leaving other ids alone.  From an
    empty set, selecting all with 7 rendered rows gives a set of size 7,
    and unticking one row then gives size 6 with select-all unticked. *)
Theorem casella_seleziona_tutto :
  (forall (evs : list Evento) (idx : nat) (tab : Tabella) (r : Riga),
      let st := esegui evs stato_iniziale in
      trasferte_list st = Some tab ->
      nth_error (righe tab) idx = Some r ->
      exists tab',
        trasferte_list (gestisci (ChangeRiga idx) st) = Some tab'
        /\ (cb_select_all tab' = true <->
            size (selectedTrasferte (gestisci (ChangeRiga idx) st))
            = length (righe tab')))
  /\ (forall (st : Stato) (tab : Tabella) (tutti : bool),
        trasferte_list st = Some tab ->
        exists tab',
          trasferte_list (on_change_select_all tutti st) = Some tab'
          /\ cb_select_all tab' = tutti
          /\ ids_righe tab' = ids_righe tab
          /\ Forall (fun r => cb_checked r = tutti) (righe tab')
          /\ (forall x, In x (ids_righe tab) ->
               has (selectedTrasferte (on_change_select_all tutti st)) x
               = tutti)
          /\ (forall x, ~ In x (ids_righe tab) ->
               has (selectedTrasferte (on_change_select_all tutti st)) x
               = has (selectedTrasferte st) x))
  /\ (forall (st : Stato) (lista : list Trasferta) (idx : nat),
        selectedTrasferte st = [] ->
        NoDup (map id lista) ->
        length lista = 7%nat ->
        (idx < 7)%nat ->
        let st1 :=
          gestisci ChangeSelectAll (visualizzaTutteLeTrasferte lista st) in
        let st2 := gestisci (ChangeRiga idx) st1 in
        size (selectedTrasferte st1) = 7%nat
        /\ size (selectedTrasferte st2) = 6%nat
        /\ exists tab, trasferte_list st2 = Some tab
                       /\ cb_select_all tab = false).
Proof.
  split; [|split].
  - intros evs idx tab r st Ht Hr.
    apply (on_change_riga_select_all st idx tab r); try assumption.
    apply esegui_coerente, iniziale_coerente.
  - intros st tab tutti. apply on_change_select_all_effetto.
  - intros st lista idx Hs Hn Hl Hidx.
    destruct (seleziona_tutto_poi_una lista st idx Hs Hn) as [H1 [_ [H2 H3]]];
      [lia|].
    cbn zeta. rewrite Hl in *. split; [exact H1|].
    split; [lia | exact H3].
Qed.

(** Seven trips of 2024, all selected, then the third row unticked; and
    on a table of two, a row change and a select-all. *)
Lemma casella_seleziona_tutto_witness :
  let lista := trasferte_esempio 7 1 2024 in
  let st1 :=
    gestisci ChangeSelectAll
      (visualizzaTutteLeTrasferte lista stato_iniziale) in
  let st2 := gestisci (ChangeRiga 2) st1 in
  let due := esegui [Caricate (trasferte_esempio 2 1 2024)] stato_iniziale in
  ((NoDup (map id lista) /\ length lista = 7%nat)
   /\ size (selectedTrasferte st1) = 7%nat
   /\ size (selectedTrasferte st2) = 6%nat
   /\ selectedTrasferte st2 = [1; 2; 4; 5; 6; 7]%Z
   /\ exists tab, trasferte_list st2 = Some tab /\ cb_select_all tab = false)
  /\ (exists tab',
        trasferte_list (gestisci (ChangeRiga 1) due) = Some tab'
        /\ (cb_select_all tab' = true <->
            size (selectedTrasferte (gestisci (ChangeRiga 1) due))
            = length (righe tab')))
  /\ (exists tab',
        trasferte_list (on_change_select_all true due) = Some tab'
        /\ cb_select_all tab' = true
        /\ Forall (fun r => cb_checked r = true) (righe tab')
        /\ selectedTrasferte (on_change_select_all true due) = [1; 2]%Z).
Proof.
  intros lista st1 st2 due.
  destruct casella_seleziona_tutto as [Ha [Hb H7]].
  assert (Hn : NoDup (map id lista)).
  { vm_compute. repeat constructor; simpl; intuition discriminate. }
  assert (Hi : (2 < 7)%nat) by lia.
  destruct (H7 stato_iniziale lista 2%nat eq_refl Hn eq_refl Hi)
    as [H1 [H2 H3]].
  split; [|split].
  - split; [split; [exact Hn | reflexivity]|].
    split; [exact H1|]. split; [exact H2|]. split; [reflexivity | exact H3].
  - exact (Ha [Caricate (trasferte_esempio 2 1 2024)] 1%nat
              (setupCheckboxListeners (trasferte_esempio 2 1 2024) [])
              {| data_id := 2; cb_checked := false |} eq_refl eq_refl).
  - destruct (Hb due (setupCheckboxListeners (trasferte_esempio 2 1 2024) [])
                true eq_refl) as [tab' [T1 [T2 [_ [T4 _]]]]].
    exists tab'. split; [exact T1|]. split; [exact T2|].
    split; [exact T4 | reflexivity].
Defined.

(** C6 as stated fails in both directions.  With trip 1 selected under
    another filter, select-all on the one rendered row leaves the box
    ticked with a set of size 2.  And after select-all on two rows of
    January, choosing January in the month filter re-renders both rows
    ticked, with a set of size 2 and the box unticked. *)
Lemma casella_seleziona_tutto_counterexample :
  let caricate := Caricate [trasferta_esempio 1 2023 false;
                            trasferta_esempio 2 2024 false] in
  let nascosta :=
    esegui [caricate; ChangeRiga 0; ChangeYear "2024"; ChangeSelectAll]
      stato_iniziale in
  let ridisegnata :=
    esegui [caricate; ChangeSelectAll; ChangeMonth "0"] stato_iniziale in
  (selectedTrasferte nascosta = [1; 2]%Z
   /\ trasferte_list nascosta
      = Some {| trasferte := [trasferta_esempio 2 2024 false];
                righe := [{| data_id := 2; cb_checked := true |}];
                cb_select_all := true;
                selection_counter := 2 |})
  /\ (selectedTrasferte ridisegnata = [1; 2]%Z
      /\ trasferte_list ridisegnata
         = Some {| trasferte := [trasferta_esempio 1 2023 false;
                                 trasferta_esempio 2 2024 false];
                   righe := [{| data_id := 1; cb_checked := true |};
                             {| data_id := 2; cb_checked := true |}];
                   cb_select_all := false;
                   selection_counter := 2 |}).
Proof.
  split; split; reflexivity.
Qed.

(** *** Bulk exports *)

Lemma map_nil_inv {A B} (f : A -> B) (l : list A) : map f l = [] -> l = [].
Proof. destruct l; simpl; congruence. Qed.

(** Every id sent is a selected id of a trip of the filtered list, which
    for the ZIP has an attachment. *)
Lemma ids_inviati_In a st x :
  In x (ids_inviati a st) ->
  In x (selectedTrasferte st)
  /\ exists t, In t (filteredTrasferte st) /\ id t = x
               /\ (a = download_allegati_zip -> ha_allegato t = true).
Proof.
  destruct a as [formato|]; simpl.
  - rewrite in_map_iff. intros [t [<- Ht]]. apply filter_In in Ht.
    destruct Ht as [Ht Hs]. split; [now apply has_In|].
    exists t. repeat split; [assumption | discriminate].
  - rewrite filter_In. intros [Hs Hf]. split; [assumption|].
    destruct (find _ (filteredTrasferte st)) as [t|] eqn:E; [|discriminate].
    apply find_some in E. destruct E as [Ht Hid]. apply Z.eqb_eq in Hid.
    exists t. auto.
Qed.

(** C7, as the code has it.  With an empty selection every bulk action
    shows a warning and sends nothing.  With a non-empty selection the
    request carries the ids of the selected trips that are in the filtered
    list (for the ZIP: and have an attachment); when there is none the
    action again ends in a warning with nothing sent; otherwise exactly
    one request goes to the endpoint of the action, and the returned
    binary, when the answer is a success, is saved by one download. *)
Theorem export_selezione
  (a : Azione) (risposta : Risposta) (oggi : string) (st : Stato) :
  let effetti := click_azione a risposta oggi st in
  (selectedTrasferte st = [] ->
   effetti = [mostraToast "Seleziona almeno una trasferta" warning])
  /\ (selectedTrasferte st <> [] ->
      ids_inviati a st = [] ->
      exists messaggio, effetti = [mostraToast messaggio warning])
  /\ (selectedTrasferte st <> [] ->
      ids_inviati a st <> [] ->
      richieste effetti = [fetch (endpoint_di a) (ids_inviati a st)]
      /\ (risposta = ok_blob ->
          exists nomeFile, scaricati effetti = [download nomeFile])
      /\ (risposta <> ok_blob -> scaricati effetti = []))
  /\ (forall x, In x (ids_inviati a st) ->
      In x (selectedTrasferte st)
      /\ exists t, In t (filteredTrasferte st) /\ id t = x).
Proof.
  cbv zeta. split; [|split; [|split]].
  - intros Hs. destruct a; simpl;
      unfold click_export_selezionati, click_download_zip;
      rewrite Hs; reflexivity.
  - intros Hs Hi.
    assert (Hz : (size (selectedTrasferte st) =? 0)%nat = false).
    { destruct (selectedTrasferte st); [congruence | reflexivity]. }
    destruct a as [formato|]; simpl in *.
    + unfold click_export_selezionati. rewrite Hz.
      apply map_nil_inv in Hi. rewrite Hi. simpl. eauto.
    + unfold click_download_zip, scaricaAllegatiZip. rewrite Hz, Hi. eauto.
  - intros Hs Hi.
    assert (Hz : (size (selectedTrasferte st) =? 0)%nat = false).
    { destruct (selectedTrasferte st); [congruence | reflexivity]. }
    destruct a as [formato|]; simpl in *.
    + unfold click_export_selezionati. rewrite Hz.
      destruct (filter _ (filteredTrasferte st)) as [|t l] eqn:E;
        [simpl in Hi; congruence|].
      unfold esportaSelezionate.
      destruct risposta, formato; simpl;
        (split; [reflexivity|]);
        (split; [intros ?; try discriminate; eauto
                | intros ?; try congruence; reflexivity]).
    + unfold click_download_zip, scaricaAllegatiZip. rewrite Hz.
      destruct (filter _ (selectedTrasferte st)) as [|i l] eqn:E;
        [congruence|].
      destruct risposta; simpl;
        (split; [reflexivity|]);
        (split; [intros ?; try discriminate; eauto
                | intros ?; try congruence; reflexivity]).
  - intros x Hx. apply ids_inviati_In in Hx.
    destruct Hx as [Hs [t [Ht [Hid _]]]]. eauto.
Qed.

(** Trips 1 and 2 are rendered, trip 2 has an attachment, both are
    selected; then only trip 1 is. *)
Lemma export_selezione_witness :
  let caricate := Caricate [trasferta_esempio 1 2024 false;
                            trasferta_esempio 2 2024 true] in
  let st := esegui [caricate; ChangeSelectAll] stato_iniziale in
  let una := esegui [caricate; ChangeRiga 0] stato_iniziale in
  (selectedTrasferte stato_iniziale = []
   /\ click_azione (export_selezionati pdf) ok_blob "2026-01-14"
        stato_iniziale
      = [mostraToast "Seleziona almeno una trasferta" warning])
  /\ (selectedTrasferte st <> []
      /\ ids_inviati (export_selezionati excel) st = [1; 2]%Z
      /\ richieste (click_azione (export_selezionati excel) ok_blob
                      "2026-01-14" st)
         = [fetch ESPORTA_EXCEL [1; 2]%Z]
      /\ scaricati (click_azione (export_selezionati excel) ok_blob
                      "2026-01-14" st)
         = [download "trasferte_2026-01-14.xlsx"])
  /\ (ids_inviati download_allegati_zip st = [2%Z]
      /\ richieste (click_azione download_allegati_zip (non_ok None)
                      "2026-01-14" st)
         = [fetch DOWNLOAD_ZIP [2%Z]]
      /\ scaricati (click_azione download_allegati_zip (non_ok None)
                      "2026-01-14" st)
         = []
      /\ In 2%Z (selectedTrasferte st))
  /\ (selectedTrasferte una <> []
      /\ ids_inviati download_allegati_zip una = []
      /\ exists messaggio,
          click_azione download_allegati_zip ok_blob "2026-01-14" una
          = [mostraToast messaggio warning]).
Proof.
  intros caricate st una.
  assert (Hs : selectedTrasferte st <> []) by discriminate.
  assert (Hu : selectedTrasferte una <> []) by discriminate.
  split; [split; [reflexivity|]|split; [|split]].
  - exact (proj1 (export_selezione (export_selezionati pdf) ok_blob
                    "2026-01-14" stato_iniziale) eq_refl).
  - destruct (export_selezione (export_selezionati excel) ok_blob
                "2026-01-14" st) as [_ [_ [H _]]].
    assert (Hi : ids_inviati (export_selezionati excel) st <> [])
      by discriminate.
    destruct (H Hs Hi) as [H1 _].
    split; [exact Hs|]. split; [reflexivity|]. split; [exact H1|reflexivity].
  - destruct (export_selezione download_allegati_zip (non_ok None)
                "2026-01-14" st) as [_ [_ [H H4]]].
    assert (Hi : ids_inviati download_allegati_zip st <> []) by discriminate.
    destruct (H Hs Hi) as [H1 [_ H3]].
    split; [reflexivity|]. split; [exact H1|].
    split; [apply H3; discriminate|].
    apply (H4 2%Z). left. reflexivity.
  - split; [exact Hu|]. split; [reflexivity|].
    exact (proj1 (proj2 (export_selezione download_allegati_zip ok_blob
                           "2026-01-14" una)) Hu eq_refl).
Defined.

(** C7 as stated fails for a non-empty selection.  A selected trip
    without attachment: the ZIP action sends nothing.  A trip selected
    under another filter: the Excel action sends nothing. *)
Lemma export_selezione_counterexample :
  let senza :=
    esegui [Caricate [trasferta_esempio 1 2024 false]; ChangeRiga 0]
      stato_iniziale in
  let nascosta :=
    esegui [Caricate [trasferta_esempio 1 2023 false;
                      trasferta_esempio 2 2024 false];
            ChangeRiga 0; ChangeYear "2024"] stato_iniziale in
  (selectedTrasferte senza = [1%Z]
   /\ click_azione download_allegati_zip ok_blob "2026-01-14" senza
      = [mostraToast
           "Nessun allegato disponibile nelle trasferte selezionate" warning])
  /\ (selectedTrasferte nascosta = [1%Z]
      /\ click_azione (export_selezionati excel) ok_blob "2026-01-14" nascosta
         = [mostraToast "Nessuna trasferta da esportare" warning]).
Proof.
  split; split; reflexivity.
Qed.

End ArchivioSpec.

(* ===================================================================== *)
(** ** Further properties of the address autocomplete *)
(* ===================================================================== *)

Module AutocompleteProps.
Import Js AddressAutocomplete AutocompleteVocabolario.
#[local] Open Scope list_scope.

(** *** Escaping *)

Lemma contains_char_app p (a b : string) :
  contains_char p (a ++ b)%string = contains_char p a || contains_char p b.
Proof.
  induction a as [|c r IH]; simpl; [reflexivity|].
  now rewrite IH, orb_assoc.
Qed.

Lemma escape_char_safe (c : ascii) :
  contains_char is_markup (escape_char c) = false.
Proof.
  unfold escape_char.
  destruct (Nat.eqb_spec (nat_of_ascii c) 38); [reflexivity|].
  destruct (Nat.eqb_spec (nat_of_ascii c) 60); [reflexivity|].
  destruct (Nat.eqb_spec (nat_of_ascii c) 62); [reflexivity|].
  destruct (Nat.eqb_spec (nat_of_ascii c) 34); [reflexivity|].
  destruct (Nat.eqb_spec (nat_of_ascii c) 39); [reflexivity|].
  simpl. unfold is_markup.
  repeat match goal with
         | H : _ <> _ |- _ => apply Nat.eqb_neq in H; rewrite H; clear H
         end.
  reflexivity.
Qed.

Lemma escape_safe (x : string) : contains_char is_markup (escape x) = false.
Proof.
  induction x as [|c r IH]; simpl; [reflexivity|].
  now rewrite contains_char_app, escape_char_safe, IH.
Qed.

(** X1.  Whatever value [escapeHtml] is given, it either throws (a truthy
    value that is not a string) or returns text in which none of the
    characters [<], [>], double quote and single quote occurs; falsy
    values give the empty text.  The computation touches neither console
    nor network. *)
Theorem escapeHtml_sicuro (unsafe : jsval) (w : Mondo) :
  (exists e, escapeHtml unsafe w = (Throws e, w)
             /\ falsy unsafe = false /\ forall x, unsafe <> Str x)
  \/ (exists testo_sicuro,
        escapeHtml unsafe w = (Returns testo_sicuro, w)
        /\ contains_char is_markup testo_sicuro = false
        /\ (falsy unsafe = true -> testo_sicuro = "")).
Proof.
  unfold escapeHtml. destruct (falsy unsafe) eqn:F.
  - right. exists "". repeat split.
  - destruct unsafe; try (left; eexists; repeat split; congruence).
    right. exists (escape s). split; [reflexivity|].
    split; [apply escape_safe | discriminate].
Qed.

Lemma escape_char_cases (c : ascii) :
  (escape_char c = String c EmptyString /\ nat_of_ascii c <> 38%nat)
  \/ c = ascii_of_nat 38 \/ c = ascii_of_nat 60 \/ c = ascii_of_nat 62
  \/ c = ascii_of_nat 34 \/ c = ascii_of_nat 39.
Proof.
  unfold escape_char.
  destruct (Nat.eqb_spec (nat_of_ascii c) 38) as [E|E];
    [right; left; now rewrite <- E, ascii_nat_embedding|].
  destruct (Nat.eqb_spec (nat_of_ascii c) 60) as [E1|E1];
    [right; right; left; now rewrite <- E1, ascii_nat_embedding|].
  destruct (Nat.eqb_spec (nat_of_ascii c) 62) as [E2|E2];
    [right; right; right; left; now rewrite <- E2, ascii_nat_embedding|].
  destruct (Nat.eqb_spec (nat_of_ascii c) 34) as [E3|E3];
    [do 4 right; left; now rewrite <- E3, ascii_nat_embedding|].
  destruct (Nat.eqb_spec (nat_of_ascii c) 39) as [E4|E4];
    [do 5 right; now rewrite <- E4, ascii_nat_embedding|].
  left. split; [reflexivity | assumption].
Qed.

Lemma escape_inj (a b : string) : escape a = escape b -> a = b.
Proof.
  revert b. induction a as [|c r IH]; intros [|d t] H.
  - reflexivity.
  - exfalso. simpl in H.
    destruct (escape_char_cases d) as [[E _]|[E|[E|[E|[E|E]]]]];
      [rewrite E in H | subst d ..]; simpl in H; discriminate.
  - exfalso. simpl in H.
    destruct (escape_char_cases c) as [[E _]|[E|[E|[E|[E|E]]]]];
      [rewrite E in H | subst c ..]; simpl in H; discriminate.
  - simpl in H.
    destruct (escape_char_cases c) as [[Ec Nc]|[Ec|[Ec|[Ec|[Ec|Ec]]]]];
      destruct (escape_char_cases d) as [[Ed Nd]|[Ed|[Ed|[Ed|[Ed|Ed]]]]];
      try rewrite Ec in H; try rewrite Ed in H; try subst c; try subst d;
      simpl in H;
      try discriminate;
      try (injection H as H1 H2; subst;
           first [ exfalso; apply Nc; reflexivity
                 | exfalso; apply Nd; reflexivity
                 | f_equal; now apply IH ]);
      try (injection H as H2; f_equal; now apply IH).
Qed.

(** X2.  Escaping loses nothing: two different texts never give the same
    markup, so a text that already looks escaped is escaped again rather
    than taken for the character it names. *)
Theorem escape_iniettiva (a b : string) : a <> b -> escape a <> escape b.
Proof.
  intros Hab H. apply Hab. now apply escape_inj.
Qed.

(** A less-than sign and the entity that names it stay apart. *)
Lemma escape_iniettiva_witness :
  escape "<" = "&lt;" /\ escape "&lt;" = "&amp;lt;"
  /\ escape "<" <> escape "&lt;".
Proof.
  split; [reflexivity|]. split; [reflexivity|].
  apply (escape_iniettiva "<" "&lt;"). discriminate.
Defined.

(** *** Debounce *)

Lemma on_input_pendenti valore st :
  in_attesa (on_input valore st) = in_attesa st
  /\ prossima (on_input valore st) = prossima st
  /\ debounceTimer (on_input valore st)
     = (if (String.length (trim valore) <? 2)%nat then None
        else Some (trim valore)).
Proof.
  unfold on_input.
  destruct (String.length (trim valore) <? 2)%nat; repeat split.
Qed.

Lemma raffica_pendenti options valori : forall st ultimo,
  let st' := esegui options (map Input (valori ++ [ultimo])) st in
  in_attesa st' = in_attesa st
  /\ prossima st' = prossima st
  /\ debounceTimer st'
     = (if (String.length (trim ultimo) <? 2)%nat then None
        else Some (trim ultimo)).
Proof.
  unfold esegui.
  induction valori as [|v rest IH]; intros st ultimo; simpl.
  - apply on_input_pendenti.
  - destruct (IH (on_input v st) ultimo) as [H1 [H2 H3]].
    destruct (on_input_pendenti v st) as [G1 [G2 _]].
    rewrite H1, H2, H3, G1, G2. repeat split.
Qed.

(** X3.  However many keystrokes arrive before the debounce timer runs,
    the timer then starts at most one call to the client, for the trimmed
    value of the last keystroke; it starts none when that value is shorter
    than two characters.  Calls already awaited are left alone. *)
Theorem raffica_una_chiamata
  (options : Opzioni) (valori : list string) (ultimo : string) (st : Stato) :
  let st' :=
    esegui options (map Input (valori ++ [ultimo]) ++ [DebounceScatta]) st in
  in_attesa st' = in_attesa st ++ chiamata_di ultimo (prossima st)
  /\ debounceTimer st' = None
  /\ gestisci options DebounceScatta st' = st'.
Proof.
  cbv zeta. unfold esegui. rewrite fold_left_app. simpl.
  destruct (raffica_pendenti options valori st ultimo) as [H1 [H2 H3]].
  unfold esegui in *. cbv zeta in *.
  set (s1 := fold_left _ (map Input (valori ++ [ultimo])) st) in *.
  unfold on_debounce, chiamata_di. rewrite H3.
  destruct (String.length (trim ultimo) <? 2)%nat.
  - rewrite H3, H1, app_nil_r. repeat split.
  - simpl. rewrite H1, H2. repeat split.
Qed.

(** *** Results of the client *)

Lemma normalizza_ok (r : jsval) (w : Mondo) :
  is_nullish r = false ->
  exists sug, normalizza r w = (Returns sug, w) /\ normalizzato r sug.
Proof.
  intros H.
  destruct r; try discriminate; unfold normalizza, bind, prop, ret; simpl;
    (eexists; split; [reflexivity|]; repeat split).
Qed.

Lemma normalizza_nullish (r : jsval) (w : Mondo) :
  is_nullish r = true -> exists e, normalizza r w = (Throws e, w).
Proof.
  intros H.
  destruct r; try discriminate; unfold normalizza, bind, prop, throw; simpl;
    eauto.
Qed.

Lemma mapM_normalizza_ok (elements : list jsval) (w : Mondo) :
  existsb is_nullish elements = false ->
  exists l, mapM normalizza elements w = (Returns l, w)
            /\ Forall2 normalizzato elements l.
Proof.
  induction elements as [|r rest IH]; simpl; intros H.
  - exists []. split; [reflexivity | constructor].
  - apply orb_false_iff in H. destruct H as [Hr Hrest].
    destruct (normalizza_ok r w Hr) as [sug [E N]].
    destruct (IH Hrest) as [l [El Fl]].
    exists (sug :: l). split; [|now constructor].
    unfold bind at 1. rewrite E. unfold bind at 1. rewrite El. reflexivity.
Qed.

Lemma mapM_normalizza_nullish (elements : list jsval) (w : Mondo) :
  existsb is_nullish elements = true ->
  exists e, mapM normalizza elements w = (Throws e, w).
Proof.
  induction elements as [|r rest IH]; simpl; intros H; [discriminate|].
  destruct (is_nullish r) eqn:Hr.
  - destruct (normalizza_nullish r w Hr) as [e E].
    exists e. unfold bind at 1. now rewrite E.
  - simpl in H. destruct (normalizza_ok r w Hr) as [sug [E _]].
    destruct (IH H) as [e Ee].
    exists e. unfold bind at 1. rewrite E. unfold bind at 1. now rewrite Ee.
Qed.

(** X5.  When the service answers in time with a success status and a
    JSON array without [null] entries, the client returns one suggestion
    per entry, in the order of the array: the name and the address block
    are the entry's, latitude and longitude are parsed, and a missing or
    empty type becomes [address].  One request was sent and two lines were
    logged. *)
Theorem search_risposta_valida
  (env : Scambio) (query cc : string) (w : Mondo)
  (response : Response) (elements : list jsval) :
  (2 <= String.length query)%nat ->
  (durata env <= NOMINATIM_TIMEOUT)%N ->
  esito env = risposta response ->
  ok response = true ->
  body response = json_valore (Array elements) ->
  existsb is_nullish elements = false ->
  exists l,
    addressAutocompleteSearch env query cc w
    = (Returns l,
       dopo_richiesta w query cc
         (console_log "[ADDRESS-AUTOCOMPLETE] Risultati:"))
    /\ Forall2 normalizzato elements l.
Proof.
  intros Hq Ht He Hok Hb Hn.
  destruct (mapM_normalizza_ok elements
              (dopo_richiesta w query cc
                 (console_log "[ADDRESS-AUTOCOMPLETE] Risultati:")) Hn)
    as [l [El Fl]].
  exists l. split; [|exact Fl].
  unfold addressAutocompleteSearch.
  rewrite (AddressAutocompleteSpec.guardia_lunga _ Hq).
  apply N.ltb_ge in Ht.
  unfold try_catch, bind at 1 2 3, fetch, invia, emit, ret, response_json.
  cbn. rewrite Ht, He. cbn. rewrite Hok, Hb. cbn.
  unfold bind at 1, emit. cbn.
  unfold dopo_richiesta, richiesta_di in *.
  rewrite <- app_assoc. cbn [app]. rewrite El. reflexivity.
Qed.

(** X6.  A single [null] or missing entry in the array spoils the whole
    answer: reading its name throws, the [catch] logs the error, and the
    client returns the empty list, the well-formed entries included. *)
Theorem search_voce_nulla
  (env : Scambio) (query cc : string) (w : Mondo)
  (response : Response) (elements : list jsval) :
  (2 <= String.length query)%nat ->
  (durata env <= NOMINATIM_TIMEOUT)%N ->
  esito env = risposta response ->
  ok response = true ->
  body response = json_valore (Array elements) ->
  existsb is_nullish elements = true ->
  addressAutocompleteSearch env query cc w
  = (Returns [],
     {| console := console w
                   ++ [console_log "[ADDRESS-AUTOCOMPLETE] Ricerca:";
                       console_log "[ADDRESS-AUTOCOMPLETE] Risultati:";
                       console_error "[ADDRESS-AUTOCOMPLETE] Errore:"];
        rete := rete w ++ [richiesta_di query cc] |}).
Proof.
  intros Hq Ht He Hok Hb Hn.
  unfold addressAutocompleteSearch.
  rewrite (AddressAutocompleteSpec.guardia_lunga _ Hq).
  apply N.ltb_ge in Ht.
  unfold try_catch, bind at 1 2 3, fetch, invia, emit, ret, response_json.
  cbn. rewrite Ht, He. cbn. rewrite Hok, Hb. cbn.
  unfold bind at 1, emit. cbn.
  match goal with
  | |- context [mapM normalizza elements ?w0] =>
      destruct (mapM_normalizza_nullish elements w0 Hn) as [e E]; rewrite E
  end.
  cbn. unfold bind, emit, ret.
  destruct e as [n m]. cbn.
  assert (Hname : n = "TypeError").
  { clear - E Hn. revert E.
    match goal with |- mapM _ _ ?w0 = _ -> _ => generalize w0 end.
    induction elements as [|r rest IH]; intros w0; simpl in *;
      [discriminate|].
    destruct (is_nullish r) eqn:Hr.
    - destruct r; try discriminate; unfold bind, normalizza, prop, throw;
        simpl; now intros [= <- _].
    - simpl in Hn. destruct (normalizza_ok r w0 Hr) as [sug [Es _]].
      unfold bind at 1. rewrite Es. unfold bind at 1.
      destruct (mapM normalizza rest w0) as [[l|e'] w1] eqn:Em;
        [discriminate|].
      intros [= -> ->]. eapply IH; [exact Hn | exact Em]. }
  subst n. cbn. rewrite <- !app_assoc. reflexivity.
Qed.

(** Two places and, in a second answer, a [null] between them. *)
Lemma search_risposta_valida_witness :
  let luogo nome := Object [("display_name", Str nome); ("lat", Str "45.07")] in
  let response := {| ok := true; status := 200;
                     body := json_valore
                               (Array [luogo "Via Roma"; luogo "Via Po"]) |} in
  let env := {| durata := 150; esito := risposta response |} in
  exists l,
    fst (addressAutocompleteSearch env "via" "it" mondo_vuoto) = Returns l
    /\ map name l = [Str "Via Roma"; Str "Via Po"]
    /\ map type l = [Str "address"; Str "address"].
Proof.
  intros luogo response env.
  assert (Hq : (2 <= String.length "via")%nat) by (simpl; lia).
  assert (Ht : (durata env <= NOMINATIM_TIMEOUT)%N) by discriminate.
  destruct (search_risposta_valida env "via" "it" mondo_vuoto response
              [luogo "Via Roma"; luogo "Via Po"] Hq Ht eq_refl eq_refl
              eq_refl eq_refl) as [l [E F]].
  exists l. rewrite E. split; [reflexivity|].
  inversion F as [|r1 s1 t1 l1 N1 F1]; subst.
  inversion F1 as [|r2 s2 t2 l2 N2 F2]; subst.
  inversion F2; subst.
  destruct N1 as [A1 [_ [_ [_ T1]]]]. destruct N2 as [A2 [_ [_ [_ T2]]]].
  simpl. rewrite A1, A2, T1, T2. split; reflexivity.
Defined.

Lemma search_voce_nulla_witness :
  let luogo nome := Object [("display_name", Str nome); ("lat", Str "45.07")] in
  let response := {| ok := true; status := 200;
                     body := json_valore
                               (Array [luogo "Via Roma"; Null;
                                       luogo "Via Po"]) |} in
  let env := {| durata := 150; esito := risposta response |} in
  fst (addressAutocompleteSearch env "via" "it" mondo_vuoto) = Returns [].
Proof.
  intros luogo response env.
  assert (Hq : (2 <= String.length "via")%nat) by (simpl; lia).
  assert (Ht : (durata env <= NOMINATIM_TIMEOUT)%N) by discriminate.
  rewrite (search_voce_nulla env "via" "it" mondo_vuoto response
             [luogo "Via Roma"; Null; luogo "Via Po"] Hq Ht eq_refl eq_refl
             eq_refl eq_refl).
  reflexivity.
Defined.

(** *** Choosing a suggestion *)

Lemma render_voce_valore idx r w item w' :
  render_voce idx r w = (Returns item, w') ->
  data_value item = testo (name r).
Proof.
  unfold render_voce, bind, ret.
  destruct (escapeHtml (name r) w) as [[a|e] w1]; [|discriminate].
  destruct (escapeHtml (name r) w1) as [[b|e] w2]; [|discriminate].
  destruct (escapeHtml (type r) w2) as [[c|e] w3]; [|discriminate].
  now intros [= <- _].
Qed.

Lemma render_da_allineato risultati : forall idx w items w',
  render_da idx risultati w = (Returns items, w') ->
  Forall2 (fun item r => data_value item = testo (name r)) items risultati.
Proof.
  induction risultati as [|r rest IH]; intros idx w items w'; simpl.
  - unfold ret. intros [= <- _]. constructor.
  - unfold bind at 1.
    destruct (render_voce idx r w) as [[v|e] w1] eqn:Ev; [|discriminate].
    unfold bind at 1.
    destruct (render_da (S idx) rest w1) as [[vs|e] w2] eqn:Er;
      [|discriminate].
    unfold ret. intros [= <- _]. constructor.
    + eapply render_voce_valore. exact Ev.
    + eapply IH. exact Er.
Qed.

Lemma gestisci_allineato options ev st :
  allineato st -> allineato (gestisci options ev st).
Proof.
  unfold allineato. intros H. destruct ev; simpl.
  - unfold on_input.
    destruct (String.length (trim valore) <? 2)%nat; simpl; [exact I | exact H].
  - unfold on_debounce. destruct (debounceTimer st); simpl; exact H.
  - unfold on_risolve. destruct (cerca id (in_attesa st)); [|exact H].
    destruct (fst (addressAutocompleteSearch env s (countryCode options)
                     mondo_vuoto)) as [risultati|e]; simpl; [|exact I].
    destruct (currentRequest st); simpl; [|exact H].
    destruct risultati as [|r rest]; simpl; [exact I|].
    destruct (render (r :: rest) mondo_vuoto) as [[items|e] w'] eqn:Er;
      simpl; [|exact I].
    eapply render_da_allineato. exact Er.
  - destruct (nascondi_timers st); simpl; exact H.
  - unfold on_click_voce.
    destruct (list_innerHTML st) as [| |items|] eqn:E;
      try (rewrite E; exact I).
    destruct (nth_error items idx); simpl; [exact I | now rewrite E].
  - exact H.
  - unfold on_click_voce.
    destruct (list_innerHTML st) as [| |items|] eqn:E;
      try (rewrite E; exact I).
    destruct (nth_error items 0); simpl; [exact I | now rewrite E].
Qed.

Lemma esegui_allineato options evs : forall st,
  allineato st -> allineato (esegui options evs st).
Proof.
  unfold esegui.
  induction evs as [|ev rest IH]; intros st H; simpl; [exact H|].
  apply IH. now apply gestisci_allineato.
Qed.

(** X4.  In every state the controller can reach, a click on a listed
    suggestion puts the name of the result at the same position into the
    input, empties and hides the list, hands that very result to
    [onSelect] (when one was given) and then dispatches one change
    event. *)
Theorem click_suggerimento
  (options : Opzioni) (evs : list Evento) (idx : nat)
  (items : list Voce) (item : Voce) :
  let st := esegui options evs stato_iniziale in
  list_innerHTML st = voci items ->
  nth_error items idx = Some item ->
  exists r,
    nth_error (lastResults st) idx = Some r
    /\ data_value item = testo (name r)
    /\ let st' := gestisci options (ClickVoce idx) st in
       input_value st' = testo (name r)
       /\ list_innerHTML st' = vuoto
       /\ list_show st' = false
       /\ uscite st'
          = uscite st
            ++ (if opt_onSelect options
                then [onSelect_call (testo (name r)) r] else [])
            ++ [change_event].
Proof.
  intros st Hl Hi.
  assert (Ha : allineato st).
  { apply esegui_allineato. exact I. }
  unfold allineato in Ha. rewrite Hl in Ha.
  assert (Hr : exists r, nth_error (lastResults st) idx = Some r
                         /\ data_value item = testo (name r)).
  { clear Hl. revert idx Hi.
    induction Ha as [|i0 r0 its rs H0 Hrest IH]; intros idx Hi.
    - destruct idx; discriminate.
    - destruct idx as [|n]; simpl in *.
      + injection Hi as <-. eauto.
      + now apply IH. }
  destruct Hr as [r [Hn Hv]]. exists r. split; [exact Hn|].
  split; [exact Hv|].
  simpl. unfold on_click_voce. rewrite Hl, Hi, Hn. simpl.
  rewrite Hv. destruct (opt_onSelect options); repeat split.
Qed.

(** A suggestion is shown and clicked. *)
Lemma click_suggerimento_witness :
  let env := risposta_esempio 80 "Via Roma, Torino" in
  let evs := [Input "via"; DebounceScatta; Risolve 0 env] in
  let st := esegui opzioni_esempio evs stato_iniziale in
  list_innerHTML st = voci [voce_esempio "Via Roma, Torino"]
  /\ exists r,
       nth_error (lastResults st) 0 = Some r
       /\ input_value (gestisci opzioni_esempio (ClickVoce 0) st)
          = "Via Roma, Torino"
       /\ uscite (gestisci opzioni_esempio (ClickVoce 0) st)
          = [onSelect_call "Via Roma, Torino" r; change_event].
Proof.
  intros env evs st.
  assert (Hl : list_innerHTML st = voci [voce_esempio "Via Roma, Torino"])
    by reflexivity.
  split; [exact Hl|].
  destruct (click_suggerimento opzioni_esempio evs 0
              [voce_esempio "Via Roma, Torino"]
              (voce_esempio "Via Roma, Torino") Hl eq_refl)
    as [r [Hn [Hv [H1 [_ [_ H4]]]]]].
  exists r. split; [exact Hn|]. split.
  - etransitivity; [exact H1|]. now rewrite <- Hv.
  - etransitivity; [exact H4|]. now rewrite <- Hv.
Defined.

(** *** Results that arrive after the user typed again *)

Lemma senza_debounce_currentRequest options (evs : list Evento) :
  forall st,
    Forall (fun ev => ev <> DebounceScatta) evs ->
    currentRequest st = false ->
    currentRequest (esegui options evs st) = false.
Proof.
  induction evs as [|ev rest IH]; intros st Hevs Hst; [exact Hst|].
  inversion Hevs as [|? ? Hev Hrest]; subst.
  cbn [esegui fold_left]. apply IH; [exact Hrest|].
  destruct ev as [valore| |id env| |idx| |]; cbn.
  - unfold on_input. now destruct (String.length (trim valore) <? 2)%nat.
  - now exfalso.
  - unfold on_risolve. destruct (cerca id (in_attesa st)); [|exact Hst].
    destruct (fst (addressAutocompleteSearch env s
                     (countryCode options) mondo_vuoto)) as [l|e];
      [|reflexivity].
    rewrite Hst. reflexivity.
  - destruct (nascondi_timers st); assumption.
  - unfold on_click_voce. destruct (list_innerHTML st); try assumption.
    destruct (nth_error items idx); assumption.
  - exact Hst.
  - unfold on_click_voce. destruct (list_innerHTML st); try assumption.
    destruct (nth_error items 0); assumption.
Qed.

(** X23.  Typing does cancel what is in flight, until the debounce timer
    fires again: a search that settles after an input event, with no new
    call started in between, changes nothing the user sees.  The list,
    its visibility, the text of the input, the remembered results and the
    callbacks made stay as they were, whatever the service answered. *)
Theorem risultato_scartato
  (options : Opzioni) (st : Stato) (valore : string) (evs : list Evento)
  (id : nat) (env : Scambio) :
  Forall (fun ev => ev <> DebounceScatta) evs ->
  let prima := esegui options (Input valore :: evs) st in
  let dopo := gestisci options (Risolve id env) prima in
  list_innerHTML dopo = list_innerHTML prima
  /\ list_show dopo = list_show prima
  /\ input_value dopo = input_value prima
  /\ lastResults dopo = lastResults prima
  /\ uscite dopo = uscite prima.
Proof.
  intros Hevs prima dopo.
  assert (Hc : currentRequest prima = false).
  { subst prima. cbn [esegui fold_left].
    apply senza_debounce_currentRequest; [exact Hevs|].
    cbn. unfold on_input.
    now destruct (String.length (trim valore) <? 2)%nat. }
  subst dopo. cbn [gestisci]. unfold on_risolve.
  destruct (cerca id (in_attesa prima)) as [query|];
    [|repeat split; reflexivity].
  destruct (AddressAutocompleteSpec.search_returns env query
              (countryCode options) mondo_vuoto) as [l [w' E]].
  rewrite E, Hc. cbn. repeat split; reflexivity.
Qed.

(** The user types "via r", the search starts, the user types one more
    letter and the answer to the first search arrives: the screen stays
    empty. *)
Lemma risultato_scartato_witness :
  let prima :=
    esegui opzioni_esempio [Input "via r"; DebounceScatta; Input "via ro"]
      stato_iniziale in
  let dopo :=
    gestisci opzioni_esempio (Risolve 0 (risposta_esempio 300 "Via Roma"))
      prima in
  in_attesa prima = [(0%nat, "via r")]
  /\ in_attesa dopo = []
  /\ list_innerHTML dopo = vuoto
  /\ list_show dopo = false.
Proof.
  intros prima dopo.
  split; [reflexivity|]. split; [reflexivity|].
  destruct (risultato_scartato opzioni_esempio
              (esegui opzioni_esempio [Input "via r"; DebounceScatta]
                 stato_iniziale)
              "via ro" [] 0 (risposta_esempio 300 "Via Roma")
              (Forall_nil _)) as [H1 [H2 _]].
  split; [exact H1 | exact H2].
Defined.

End AutocompleteProps.

(* ===================================================================== *)
(** ** Further properties of the trip page *)
(* ===================================================================== *)

Module TrasferteProps.
Import Js Trasferte TrasferteVocabolario.
#[local] Open Scope list_scope.

(** *** The estimate *)

Lemma aggiornaRimborso_idempotente fmt veicoli p :
  aggiornaRimborso fmt veicoli (aggiornaRimborso fmt veicoli p)
  = aggiornaRimborso fmt veicoli p.
Proof.
  unfold aggiornaRimborso at 1.
  rewrite TrasferteSpec.aggiornaRimborso_campi.
  unfold aggiornaRimborso.
  destruct (int_falsy _ || le _ _); [reflexivity|].
  destruct (find _ veicoli); reflexivity.
Qed.

(** X7.  [calcolaMRimbor] registers a fresh copy of the listener each time
    it is called (on load, and again after every distance lookup), so one
    change runs [aggiornaRimborso] several times in a row.  That is
    harmless: any number of runs leaves the page as a single run does. *)
Theorem listener_ripetuti
  (fmt : jsnum -> string) (veicoli : list Veicolo) (p : Pagina) (k : nat) :
  Nat.iter (S k) (aggiornaRimborso fmt veicoli) p
  = aggiornaRimborso fmt veicoli p.
Proof.
  induction k as [|k IH]; [reflexivity|].
  change (Nat.iter (S (S k)) (aggiornaRimborso fmt veicoli) p)
    with (aggiornaRimborso fmt veicoli
            (Nat.iter (S k) (aggiornaRimborso fmt veicoli) p)).
  rewrite IH. apply aggiornaRimborso_idempotente.
Qed.

(** *** What the create form sends *)







(** *** Opening and saving the edit dialog *)

(** A select keeps a value one of its options has, and reads back empty
    after any other. *)
Lemma select_value_presente (opzioni : list string) (valore : string) :
  In valore opzioni -> select_value opzioni valore = valore.
Proof.
  intros H. unfold select_value.
  destruct (existsb (String.eqb valore) opzioni) eqn:E; [reflexivity|].
  assert (X : existsb (String.eqb valore) opzioni = true).
  { apply existsb_exists. exists valore. split; [exact H|].
    apply String.eqb_refl. }
  congruence.
Qed.

Lemma select_value_assente (opzioni : list string) (valore : string) :
  ~ In valore opzioni -> select_value opzioni valore = "".
Proof.
  intros H. unfold select_value.
  destruct (existsb (String.eqb valore) opzioni) eqn:E; [|reflexivity].
  apply existsb_exists in E. destruct E as [x [Hin Hx]].
  apply String.eqb_eq in Hx. subst x. contradiction.
Qed.

Lemma motivo_letto (motivi : list string) (t : Trasferta) :
  (motivo_in_elenco motivi t ->
   select_value (popolaDropdownMotivi motivi) (t_motivo t) = t_motivo t)
  /\ (motivo_fuori_elenco motivi t ->
      select_value (popolaDropdownMotivi motivi) (t_motivo t) = "").
Proof.
  unfold popolaDropdownMotivi. split.
  - intros [H|H]; apply select_value_presente.
    + left. now rewrite H.
    + now right.
  - intros [H1 H2]. apply select_value_assente.
    intros [H|H]; [now apply H1 | now apply H2].
Qed.

Lemma veicolo_letto to_string (veicoli : list Veicolo) (t : Trasferta) :
  let scritto := to_string (Fin (intero64 (t_veicolo_id t) # 1)) in
  (veicolo_in_elenco veicoli t ->
   select_value (popolaDropdownVeicoli to_string veicoli) scritto = scritto)
  /\ (veicolo_fuori_elenco to_string veicoli t ->
      select_value (popolaDropdownVeicoli to_string veicoli) scritto = "").
Proof.
  intros scritto. unfold popolaDropdownVeicoli. split.
  - intros [v [Hin Hid]]. apply select_value_presente. right.
    apply in_map_iff. exists v. split; [|exact Hin].
    unfold scritto. now rewrite Hid.
  - intros [H1 H2]. apply select_value_assente.
    intros [H|H]; [now apply H1|].
    apply in_map_iff in H. destruct H as [v [Hv Hin]].
    now apply (H2 v Hin).
Qed.

(** X9.  Opening the edit dialog on a trip and saving it untouched sends
    a PUT to the record's id whenever the record has both addresses with
    five-digit postal codes and its numbers read back from the controls
    as they were written.  The reason and the vehicle are selects: when
    the reason is one of the configured reasons and the vehicle one of
    the fleet, the PUT carries the record's own date, addresses,
    distance, reason, vehicle, notes and round-trip flag; a reason that
    is not among the options goes out as the empty text, and a vehicle
    that is not among them as no number.  A record that lacks an address
    cannot be saved untouched: the postal-code check stops it. *)
Theorem modifica_senza_ritocchi
  (to_string : jsnum -> string) (veicoli : list Veicolo)
  (motivi : list string) (id : Z) (t : Trasferta)
  (p : PaginaModifica) (put : Esito unit) :
  trasferta_andata_ritorno (edit_campi p) <> None ->
  let aperta :=
    snd (apriFIenModificaTrasferta to_string veicoli motivi id (Risolta t) p)
  in
  (forall a b : Indirizzo,
      t_partenza t = Some a -> t_arrivo t = Some b ->
      five_digits (cap a) = true -> five_digits (cap b) = true ->
      rilegge_float to_string (t_chilometri t) ->
      rilegge_int to_string (t_id t) ->
      editTrasfertaModal aperta = true
      /\ (motivo_in_elenco motivi t ->
          veicolo_in_elenco veicoli t ->
          rilegge_int to_string (t_veicolo_id t) ->
          exists seguito,
            fst (submit_edit_trasferta put aperta)
            = fetch PUT (TrasfertaUrl (Some (intero64 (t_id t))))
                (Json (dati_di t a b))
                :: seguito)
      /\ (exists d seguito,
            fst (submit_edit_trasferta put aperta)
            = fetch PUT (TrasfertaUrl (Some (intero64 (t_id t)))) (Json d)
                :: seguito
            /\ (motivo_fuori_elenco motivi t -> motivo d = "")
            /\ (veicolo_fuori_elenco to_string veicoli t ->
                veicolo_id d = None)))
  /\ (t_partenza t = None \/ t_arrivo t = None ->
      bloccata (submit_edit_trasferta put aperta) aperta).
Proof.
  intros Hcb aperta. subst aperta.
  unfold apriFIenModificaTrasferta.
  destruct (trasferta_andata_ritorno (edit_campi p)) as [ar|] eqn:Ear;
    [|congruence].
  cbn [snd]. split.
  - intros a b Ha Hb Hca Hcb' Hkm Hid.
    split; [reflexivity|].
    destruct (motivo_letto motivi t) as [Hm1 Hm2].
    destruct (veicolo_letto to_string veicoli t) as [Hv1 Hv2].
    unfold rilegge_int in Hid. unfold rilegge_float in Hkm.
    assert (Hcap : valida_cap
                     (leggi_dati
                        (popola_campi to_string veicoli motivi t (edit_campi p)))
                   = None).
    { unfold valida_cap, leggi_dati, popola_campi. cbn.
      rewrite Ha, Hb. cbn. rewrite Hca, Hcb'. reflexivity. }
    split.
    + intros Hm Hv Hrv. unfold rilegge_int in Hrv.
      unfold submit_edit_trasferta.
      cbn [edit_trasferta_id edit_campi]. rewrite Hid, Hcap.
      assert (E : leggi_dati
                    (popola_campi to_string veicoli motivi t (edit_campi p))
                  = dati_di t a b).
      { unfold leggi_dati, popola_campi, dati_di. cbn.
        rewrite Ha, Hb, Ear. cbn.
        rewrite (Hm1 Hm), (Hv1 Hv), Hkm, Hrv. reflexivity. }
      rewrite E. destruct put; cbn; eauto.
    + exists (leggi_dati
                (popola_campi to_string veicoli motivi t (edit_campi p))).
      unfold submit_edit_trasferta.
      cbn [edit_trasferta_id edit_campi]. rewrite Hid, Hcap.
      destruct put; cbn; eexists; (split; [reflexivity|]); split;
        intros H; cbn; try (now apply Hm2); now rewrite (Hv2 H).
  - intros Hnone. unfold bloccata, submit_edit_trasferta, valida_cap.
    cbn [edit_campi]. unfold leggi_dati, popola_campi. cbn.
    destruct Hnone as [H|H]; rewrite H; cbn.
    + eauto.
    + destruct (five_digits (campo cap "" (t_partenza t))); cbn; eauto.
Qed.

(** Trip 12, with a configured reason and the car of the fleet, is opened
    and saved as it is.  A trip whose reason was typed by hand goes out
    without its reason, one whose car has left the fleet goes out without
    its vehicle, and a trip without addresses is stopped. *)
Lemma modifica_senza_ritocchi_witness :
  let sede := {| nome := "Sede"; via := "Via Roma 1"; citta := "Torino";
                 cap := "10121"; paese := "Italia" |} in
  let cliente := {| nome := "Cliente"; via := "Corso Italia 5";
                    citta := "Milano"; cap := "20122"; paese := "Italia" |} in
  let viaggio (n : Z) (partenza : option Indirizzo) (perche : string)
      (veicolo : Z) :=
    {| t_id := n; t_data := "2026-01-13";
       t_partenza := partenza; t_arrivo := Some cliente;
       t_chilometri := 140 # 1; t_motivo := perche;
       t_veicolo_id := veicolo; t_note := None;
       t_andata_ritorno := Some true |} in
  let t := viaggio 12%Z (Some sede) "Visita cliente" 3%Z in
  let a_mano := viaggio 14%Z (Some sede) "Sopralluogo" 3%Z in
  let venduta := viaggio 15%Z (Some sede) "Visita cliente" 9%Z in
  let senza := viaggio 13%Z None "Visita cliente" 3%Z in
  let veicoli := [{| id_veicolo := 3; tariffa_km := 42 # 100 |}] in
  let motivi := ["Visita cliente"; "Riunione"] in
  let p := {| edit_trasferta_id := ""; edit_campi := campi_vuoti;
              editTrasfertaModal := false |} in
  let salva (n : Z) (x : Trasferta) :=
    fst (submit_edit_trasferta (Risolta tt)
           (snd (apriFIenModificaTrasferta numero_esempio veicoli motivi n
                   (Risolta x) p))) in
  (motivo_in_elenco motivi t /\ veicolo_in_elenco veicoli t
   /\ exists seguito,
       salva 12%Z t
       = fetch PUT (TrasfertaUrl (Some 12%Z)) (Json (dati_di t sede cliente))
           :: seguito)
  /\ (motivo_fuori_elenco motivi a_mano
      /\ exists d seguito,
          salva 14%Z a_mano
          = fetch PUT (TrasfertaUrl (Some 14%Z)) (Json d) :: seguito
          /\ motivo d = "")
  /\ (veicolo_fuori_elenco numero_esempio veicoli venduta
      /\ exists d seguito,
          salva 15%Z venduta
          = fetch PUT (TrasfertaUrl (Some 15%Z)) (Json d) :: seguito
          /\ veicolo_id d = None)
  /\ exists messaggio, salva 13%Z senza = [mostraToast messaggio warning].
Proof.
  intros sede cliente viaggio t a_mano venduta senza veicoli motivi p salva.
  assert (Hcb : trasferta_andata_ritorno (edit_campi p) <> None)
    by discriminate.
  assert (M1 : motivo_in_elenco motivi t) by (right; left; reflexivity).
  assert (V1 : veicolo_in_elenco veicoli t).
  { eexists. split; [left; reflexivity | reflexivity]. }
  assert (M2 : motivo_fuori_elenco motivi a_mano).
  { split; [discriminate|]. intros [H|[H|[]]]; discriminate H. }
  assert (V3 : veicolo_fuori_elenco numero_esempio veicoli venduta).
  { split; [discriminate|]. intros v [<-|[]]. discriminate. }
  split; [|split; [|split]].
  - split; [exact M1|]. split; [exact V1|].
    exact (proj1 (proj2 (proj1 (modifica_senza_ritocchi numero_esempio veicoli
                                  motivi 12 t p (Risolta tt) Hcb)
                           sede cliente eq_refl eq_refl eq_refl eq_refl
                           eq_refl eq_refl))
             M1 V1 eq_refl).
  - split; [exact M2|].
    destruct (proj2 (proj2 (proj1 (modifica_senza_ritocchi numero_esempio
                                     veicoli motivi 14 a_mano p (Risolta tt)
                                     Hcb)
                              sede cliente eq_refl eq_refl eq_refl eq_refl
                              eq_refl eq_refl)))
      as (d & seguito & E & Hm & _).
    exists d, seguito. split; [exact E | exact (Hm M2)].
  - split; [exact V3|].
    destruct (proj2 (proj2 (proj1 (modifica_senza_ritocchi numero_esempio
                                     veicoli motivi 15 venduta p (Risolta tt)
                                     Hcb)
                              sede cliente eq_refl eq_refl eq_refl eq_refl
                              eq_refl eq_refl)))
      as (d & seguito & E & _ & Hv).
    exists d, seguito. split; [exact E | exact (Hv V3)].
  - exact (proj1 (proj2 (modifica_senza_ritocchi numero_esempio veicoli motivi
                           13 senza p (Risolta tt) Hcb) (or_introl eq_refl))).
Defined.

End TrasferteProps.

(* ===================================================================== *)
(** ** Properties of the distance lookup *)
(* ===================================================================== *)

Module DistanzaProps.
Import Js Trasferte Distanza.
#[local] Open Scope list_scope.

Lemma str_falsy_vuota (x : string) : str_falsy x = true <-> x = "".
Proof. destruct x; simpl; split; congruence. Qed.

Lemma incompleto_falsy (a b c : string) :
  incompleto a b c <->
  str_falsy (trim a) || str_falsy (trim b) || str_falsy (trim c) = true.
Proof.
  unfold incompleto. rewrite !orb_true_iff, !str_falsy_vuota. tauto.
Qed.

(** X10.  The distance lookup sends nothing while one of the street, city
    or postal code of either address is blank once trimmed: it shows one
    warning and leaves the page and the button alone.  With both
    addresses complete it sends exactly one request, built from the
    trimmed parts as [street, code city], and whatever the answer the
    button ends enabled with its label restored.  The page changes only
    when the answer carries no error and a non-zero distance, and then
    exactly as if the user had typed that distance: an answer of 0 km is
    treated as a failure. *)
Theorem calcola_distanza
  (fmt to_string : jsnum -> string) (veicoli : list Veicolo)
  (risposta : Esito (option Risultato)) (p : Pagina) (btn : Bottone) :
  let c := campi p in
  let partenza_incompleta :=
    incompleto (trasferta_via_partenza c) (trasferta_citta_partenza c)
      (trasferta_cap_partenza c) in
  let arrivo_incompleto :=
    incompleto (trasferta_via_arrivo c) (trasferta_citta_arrivo c)
      (trasferta_cap_arrivo c) in
  let esito := click_calcola_distanza fmt to_string veicoli risposta p btn in
  (partenza_incompleta \/ arrivo_incompleto ->
   exists messaggio,
     esito = ([mostraToast messaggio warning], p, btn))
  /\ (~ partenza_incompleta -> ~ arrivo_incompleto ->
      filter is_fetch (fst (fst esito))
      = [fetch_distanza
           (indirizzo_completo (trasferta_via_partenza c)
              (trasferta_cap_partenza c) (trasferta_citta_partenza c))
           (indirizzo_completo (trasferta_via_arrivo c)
              (trasferta_cap_arrivo c) (trasferta_citta_arrivo c))]
      /\ snd esito = {| disabled := false;
                        textContent := "📍 Calcola Distanza" |}
      /\ (snd (fst esito) = p
          \/ exists result k,
               risposta = Risolta (Some result)
               /\ truthy (result_error result) = false
               /\ km result = Some k /\ Qeq_bool k 0 = false
               /\ snd (fst esito)
                  = snd (gestisci fmt veicoli
                           (InputKm (to_string (Fin k))) p))).
Proof.
  cbv zeta. unfold click_calcola_distanza. split.
  - intros [H|H].
    + apply incompleto_falsy in H. rewrite H. eauto.
    + apply incompleto_falsy in H. rewrite H.
      match goal with
      | |- context [if ?b then _ else _] => destruct b
      end; eauto.
  - intros H1 H2.
    rewrite incompleto_falsy in H1, H2.
    apply not_true_is_false in H1. apply not_true_is_false in H2.
    rewrite H1, H2. unfold indirizzo_completo.
    destruct risposta as [[result|]|m]; cbn;
      try (repeat split; now left).
    destruct (truthy (result_error result)) eqn:Et; cbn;
      [repeat split; now left|].
    destruct (km result) as [k|] eqn:Ek; cbn; [|repeat split; now left].
    destruct (Qeq_bool k 0) eqn:Ez; cbn; [repeat split; now left|].
    repeat split. right. exists result, k. repeat split; assumption.
Qed.

(** A blank city stops the lookup; with the city filled in, an answer of
    140 km is written into the form. *)
Lemma calcola_distanza_witness :
  let c := modulo_esempio "10121" "Visita cliente" "" in
  let spazi := Trasferte.compila
                 {| trasferta_data := trasferta_data c;
                    trasferta_indirizzo_aziendale_nome := "";
                    trasferta_via_partenza := trasferta_via_partenza c;
                    trasferta_citta_partenza := "   ";
                    trasferta_cap_partenza := trasferta_cap_partenza c;
                    trasferta_paese_partenza := "Italia";
                    trasferta_cliente_nome := "";
                    trasferta_via_arrivo := trasferta_via_arrivo c;
                    trasferta_citta_arrivo := trasferta_citta_arrivo c;
                    trasferta_cap_arrivo := trasferta_cap_arrivo c;
                    trasferta_paese_arrivo := "Italia";
                    trasferta_km := "";
                    trasferta_motivo := "";
                    trasferta_veicolo := "";
                    trasferta_note := "";
                    trasferta_andata_ritorno := None |} c in
  let btn := {| disabled := false; textContent := "📍 Calcola Distanza" |} in
  let risposta :=
    Risolta (Some {| result_error := None; km := Some (140 # 1)%Q;
                     metodo := Some "osrm"; status := None |}) in
  let v := {| id_veicolo := 3; tariffa_km := 42 # 100 |} in
  (exists messaggio,
      click_calcola_distanza formato_esempio
        TrasferteVocabolario.numero_esempio [v] risposta
        (pagina_esempio spazi None) btn
      = ([mostraToast messaggio warning], pagina_esempio spazi None, btn))
  /\ (filter is_fetch
        (fst (fst (click_calcola_distanza formato_esempio
                     TrasferteVocabolario.numero_esempio [v] risposta
                     (pagina_esempio c None) btn)))
      = [fetch_distanza "Via Roma 1, 10121 Torino"
           "Corso Italia 5, 20122 Milano"]
      /\ trasferta_km
           (campi (snd (fst (click_calcola_distanza formato_esempio
                               TrasferteVocabolario.numero_esempio [v]
                               risposta (pagina_esempio c None) btn))))
         = "140"
      /\ rimborso_stimato
           (snd (fst (click_calcola_distanza formato_esempio
                        TrasferteVocabolario.numero_esempio [v]
                        risposta (pagina_esempio c None) btn)))
         = "58,80 €").
Proof.
  intros c spazi btn risposta v.
  split.
  - apply (proj1 (calcola_distanza formato_esempio
                    TrasferteVocabolario.numero_esempio [v] risposta
                    (pagina_esempio spazi None) btn)).
    left. right. left. reflexivity.
  - assert (N1 : ~ incompleto (trasferta_via_partenza c)
                     (trasferta_citta_partenza c) (trasferta_cap_partenza c)).
    { intros [H|[H|H]]; vm_compute in H; discriminate. }
    assert (N2 : ~ incompleto (trasferta_via_arrivo c)
                     (trasferta_citta_arrivo c) (trasferta_cap_arrivo c)).
    { intros [H|[H|H]]; vm_compute in H; discriminate. }
    destruct (proj2 (calcola_distanza formato_esempio
                       TrasferteVocabolario.numero_esempio [v] risposta
                       (pagina_esempio c None) btn) N1 N2) as [Hf _].
    split; [exact Hf|]. split; reflexivity.
Defined.

End DistanzaProps.

(* ===================================================================== *)
(** ** Further properties of the archive *)
(* ===================================================================== *)

Module ArchivioProps.
Import Js Archivio ArchivioVocabolario.
#[local] Open Scope list_scope.

(** *** Row checkboxes and the selection set *)

Lemma has_add (s : list Z) (x y : Z) :
  has (add s x) y = (y =? x)%Z || has s y.
Proof.
  apply eq_true_iff_eq.
  rewrite orb_true_iff, !ArchivioSpec.has_In, ArchivioSpec.add_In, Z.eqb_eq.
  tauto.
Qed.

Lemma has_delete (s : list Z) (x y : Z) :
  has (delete s x) y = negb (y =? x)%Z && has s y.
Proof.
  apply eq_true_iff_eq.
  rewrite andb_true_iff, negb_true_iff, !ArchivioSpec.has_In,
    ArchivioSpec.delete_In, Z.eqb_neq.
  tauto.
Qed.

(** Flipping one row and updating the set with its id keeps every row in
    step with the set, as long as no other row shares the id. *)
Lemma toggle_specchio (sel : list Z) (r : Riga) : forall idx l,
  NoDup (map data_id l) ->
  nth_error l idx = Some r ->
  Forall (fun x => cb_checked x = has sel (data_id x)) l ->
  let sel' := if negb (cb_checked r) then add sel (data_id r)
              else delete sel (data_id r) in
  Forall (fun x => cb_checked x = has sel' (data_id x)) (toggle_riga idx l).
Proof.
  intros idx l. revert idx.
  assert (altre : forall x : Riga,
             data_id x <> data_id r ->
             cb_checked x = has sel (data_id x) ->
             cb_checked x
             = has (if negb (cb_checked r) then add sel (data_id r)
                    else delete sel (data_id r)) (data_id x)).
  { intros x Hne Hx. apply Z.eqb_neq in Hne.
    destruct (negb (cb_checked r)).
    - now rewrite has_add, Hne.
    - now rewrite has_delete, Hne. }
  induction l as [|a rest IH]; intros [|n] Hnd Hnth Hall; simpl in *;
    try discriminate.
  - injection Hnth as ->. inversion Hnd as [|? ? Hnotin Hnd']; subst.
    inversion Hall as [|? ? Ha Hrest]; subst.
    constructor.
    + simpl. destruct (cb_checked r); simpl.
      * now rewrite has_delete, Z.eqb_refl.
      * now rewrite has_add, Z.eqb_refl.
    + rewrite Forall_forall in *. intros x Hx.
      apply altre; [|now apply Hrest].
      intros E. apply Hnotin. rewrite <- E. now apply in_map.
  - inversion Hnd as [|? ? Hnotin Hnd']; subst.
    inversion Hall as [|? ? Ha Hrest]; subst.
    constructor.
    + apply altre; [|assumption].
      intros E. apply Hnotin. rewrite E.
      apply in_map. eapply nth_error_In; eassumption.
    + now apply IH.
Qed.

(** Filtering a list of trips keeps their ids distinct. *)
Lemma filtrate_distinte (criterio : Trasferta -> bool) :
  forall lista : list Trasferta,
    NoDup (map id lista) -> NoDup (map id (filter criterio lista)).
Proof.
  intros lista. induction lista as [|t resto IH]; intros Hnd.
  - constructor.
  - apply NoDup_cons_iff in Hnd. destruct Hnd as [Hfuori Hresto].
    cbn [filter]. destruct (criterio t); [|now apply IH].
    cbn [map]. apply NoDup_cons; [|now apply IH].
    intros Hdentro. apply Hfuori.
    apply in_map_iff in Hdentro. destruct Hdentro as [u [Eu Hu]].
    apply filter_In in Hu. rewrite <- Eu. apply in_map. exact (proj1 Hu).
Qed.

Lemma visualizza_specchio lista st :
  specchio (visualizzaTutteLeTrasferte lista st).
Proof.
  unfold specchio, visualizzaTutteLeTrasferte. simpl.
  destruct lista as [|t r]; [exact I|].
  split; [|reflexivity].
  unfold setupCheckboxListeners. cbn [righe].
  apply Forall_forall. intros x Hx.
  apply in_map_iff in Hx. destruct Hx as [y [<- _]]. reflexivity.
Qed.

Lemma applicaFiltri_distinti st :
  NoDup (map id (allTrasferte st)) ->
  NoDup (map id (filteredTrasferte (applicaFiltri st))).
Proof.
  intros H. unfold applicaFiltri, visualizzaTutteLeTrasferte.
  cbn [filteredTrasferte].
  destruct (String.eqb (quick_month_select st) "");
    destruct (int_falsy _); repeat apply filtrate_distinte; assumption.
Qed.

Lemma gestisci_specchio ev st :
  ids_distinti ev ->
  coerente st ->
  NoDup (map id (allTrasferte st)) ->
  NoDup (map id (filteredTrasferte st)) ->
  specchio st ->
  let st' := gestisci ev st in
  NoDup (map id (allTrasferte st'))
  /\ NoDup (map id (filteredTrasferte st'))
  /\ specchio st'.
Proof.
  intros Hev Hco Hall Hfil Hsp.
  destruct ev as [lista|valore|valore|items|idx| | |];
    cbv zeta; unfold gestisci; simpl in Hev.
  - split; [exact Hev|]. split; [exact Hev|]. apply visualizza_specchio.
  - split; [exact Hall|].
    split; [now apply applicaFiltri_distinti | apply visualizza_specchio].
  - split; [exact Hall|].
    split; [now apply applicaFiltri_distinti | apply visualizza_specchio].
  - split; [exact Hall|]. split; [exact Hev|]. apply visualizza_specchio.
  - unfold on_change_riga, specchio in *.
    destruct (trasferte_list st) as [tab|] eqn:Et;
      [|rewrite Et; repeat split; assumption].
    destruct (nth_error (righe tab) idx) as [r|] eqn:En;
      [|rewrite Et; tauto].
    cbn. repeat split; try assumption.
    destruct Hsp as [Hrows _]. destruct Hco as [_ Hco]. rewrite Et in Hco.
    destruct Hco as [Htab Hids].
    apply (toggle_specchio (selectedTrasferte st) r idx (righe tab));
      try assumption.
    unfold ids_righe in Hids. rewrite Hids, Htab. assumption.
  - unfold specchio in *.
    destruct (trasferte_list st) as [tab|] eqn:Et;
      [|rewrite Et; repeat split; assumption].
    unfold on_change_select_all. rewrite Et. cbn.
    repeat split; try assumption.
    apply Forall_forall. intros x Hx.
    apply in_map_iff in Hx. destruct Hx as [y [<- Hy]]. cbn.
    symmetry. destruct (cb_select_all tab); cbn.
    + apply ArchivioSpec.has_false. rewrite ArchivioSpec.seleziona_In.
      intros [_ Hn]. apply Hn. now apply in_map.
    + apply ArchivioSpec.has_In. rewrite ArchivioSpec.seleziona_In.
      right. now apply in_map.
  - unfold specchio in *. unfold on_change_select_all.
    destruct (trasferte_list st) as [tab|] eqn:Et;
      [|rewrite Et; repeat split; assumption].
    cbn. repeat split; try assumption.
    apply Forall_forall. intros x Hx.
    apply in_map_iff in Hx. destruct Hx as [y [<- Hy]]. cbn.
    symmetry. apply ArchivioSpec.has_In. rewrite ArchivioSpec.seleziona_In.
    right. now apply in_map.
  - unfold specchio in *. unfold on_change_select_all.
    destruct (trasferte_list st) as [tab|] eqn:Et;
      [|rewrite Et; repeat split; assumption].
    cbn. repeat split; try assumption.
    apply Forall_forall. intros x Hx.
    apply in_map_iff in Hx. destruct Hx as [y [<- Hy]]. cbn.
    symmetry. apply ArchivioSpec.has_false. rewrite ArchivioSpec.seleziona_In.
    intros [_ Hn]. apply Hn. now apply in_map.
Qed.

Lemma esegui_specchio (evs : list Evento) : forall st,
  Forall ids_distinti evs ->
  coerente st ->
  NoDup (map id (allTrasferte st)) ->
  NoDup (map id (filteredTrasferte st)) ->
  specchio st ->
  specchio (esegui evs st).
Proof.
  induction evs as [|ev r IH]; intros st Hevs Hco Hall Hfil Hsp;
    [exact Hsp|].
  inversion Hevs as [|? ? Hev Hr]; subst.
  destruct (gestisci_specchio ev st Hev Hco Hall Hfil Hsp) as [H1 [H2 H3]].
  simpl. apply IH; try assumption.
  now apply ArchivioSpec.gestisci_coerente.
Qed.

(** X11.  However the archive page is used, the table stays in step with
    the selection set: a row checkbox is ticked exactly when its trip id is
    in the set, and the counter shows the size of the set.  This holds
    through loads, searches, filter changes, row clicks and the select-all
    controls, provided the lists received hold each trip id once. *)
Theorem caselle_specchio (evs : list Evento) :
  Forall ids_distinti evs ->
  specchio (esegui evs stato_iniziale).
Proof.
  intros Hevs. apply esegui_specchio; try assumption.
  - apply ArchivioSpec.iniziale_coerente.
  - constructor.
  - constructor.
  - exact I.
Qed.

(** Two trips are loaded, the first is ticked, the year filter hides it,
    everything shown is selected and the filter is removed: both rows are
    ticked and the counter shows 2. *)
Lemma caselle_specchio_witness :
  let evs := [Caricate [trasferta_esempio 1 2023 false;
                        trasferta_esempio 2 2024 false];
              ChangeRiga 0; ChangeYear "2024"; ClickSelectAll;
              ChangeYear ""] in
  specchio (esegui evs stato_iniziale)
  /\ option_map righe (trasferte_list (esegui evs stato_iniziale))
     = Some [{| data_id := 1; cb_checked := true |};
             {| data_id := 2; cb_checked := true |}]
  /\ option_map selection_counter
       (trasferte_list (esegui evs stato_iniziale)) = Some 2%nat.
Proof.
  intros evs. split; [|split; reflexivity].
  apply (caselle_specchio evs).
  repeat constructor; simpl; intros H;
    repeat (destruct H as [H|H]; try discriminate); exact H.
Defined.

(** *** Select all, deselect all *)

Lemma seleziona_false_filter (righe : list Riga) : forall s,
  seleziona false righe s
  = filter (fun x => negb (existsb (Z.eqb x) (map data_id righe))) s.
Proof.
  unfold seleziona.
  induction righe as [|r rest IH]; intros s; cbn.
  - symmetry. induction s as [|a t IHs]; cbn; [reflexivity|].
    now rewrite IHs.
  - rewrite IH. unfold delete.
    induction s as [|a t IHs]; cbn; [reflexivity|].
    rewrite (Z.eqb_sym a (data_id r)).
    destruct (data_id r =? a)%Z eqn:E; cbn.
    + exact IHs.
    + destruct (existsb (Z.eqb a) (map data_id rest)); cbn;
        [exact IHs | now rewrite IHs].
Qed.

Lemma filter_seleziona_true (P : Z -> bool) (righe : list Riga) : forall s,
  (forall r, In r righe -> P (data_id r) = false) ->
  filter P (seleziona true righe s) = filter P s.
Proof.
  unfold seleziona.
  induction righe as [|r rest IH]; intros s HP; cbn; [reflexivity|].
  rewrite IH by (intros x Hx; apply HP; now right).
  unfold add. destruct (has s (data_id r)); [reflexivity|].
  rewrite filter_app. cbn. rewrite (HP r) by now left.
  apply app_nil_r.
Qed.

Lemma filter_tutti (P : Z -> bool) (l : list Z) :
  (forall x, In x l -> P x = true) -> filter P l = l.
Proof.
  induction l as [|a t IH]; intros H; cbn; [reflexivity|].
  rewrite (H a) by now left.
  f_equal. apply IH. intros x Hx. apply H. now right.
Qed.

Lemma on_change_select_all_selezione tutti st tab :
  trasferte_list st = Some tab ->
  exists tab',
    trasferte_list (on_change_select_all tutti st) = Some tab'
    /\ righe tab' = map (set_checked tutti) (righe tab)
    /\ selectedTrasferte (on_change_select_all tutti st)
       = seleziona tutti (righe tab) (selectedTrasferte st).
Proof.
  intros Et. unfold on_change_select_all. rewrite Et.
  eexists. split; [reflexivity|]. split; reflexivity.
Qed.

(** X20.  Selecting everything and then deselecting everything leaves in
    the selection exactly the ids that were selected and are not among
    the rendered rows, in their order.  So when no rendered row was
    selected beforehand the selection is back to what it was, and the
    selections hidden by a filter survive both buttons. *)
Theorem seleziona_deseleziona (st : Stato) (tab : Tabella) :
  trasferte_list st = Some tab ->
  let dopo := gestisci ClickDeselectAll (gestisci ClickSelectAll st) in
  selectedTrasferte dopo = selezione_nascosta tab (selectedTrasferte st)
  /\ ((forall r, In r (righe tab) ->
       has (selectedTrasferte st) (data_id r) = false) ->
      selectedTrasferte dopo = selectedTrasferte st).
Proof.
  intros Et. cbv zeta.
  assert (E : selectedTrasferte
                (gestisci ClickDeselectAll (gestisci ClickSelectAll st))
              = selezione_nascosta tab (selectedTrasferte st)).
  { unfold gestisci.
    destruct (on_change_select_all_selezione true st tab Et)
      as [tab1 [Et1 [Er1 Es1]]].
    destruct (on_change_select_all_selezione false _ tab1 Et1)
      as [tab2 [_ [_ Es2]]].
    rewrite Es2, Es1, Er1, seleziona_false_filter.
    replace (map data_id (map (set_checked true) (righe tab)))
      with (map data_id (righe tab))
      by (rewrite map_map; apply map_ext; reflexivity).
    unfold selezione_nascosta, ids_righe.
    apply filter_seleziona_true.
    intros r Hr. apply negb_false_iff. apply existsb_exists.
    exists (data_id r). split; [now apply in_map | apply Z.eqb_refl]. }
  split; [exact E|].
  intros Hnone. rewrite E. unfold selezione_nascosta, ids_righe.
  assert (Hall : forall x, In x (selectedTrasferte st) ->
                 negb (existsb (Z.eqb x) (map data_id (righe tab))) = true).
  { intros x Hx. apply negb_true_iff.
    destruct (existsb (Z.eqb x) (map data_id (righe tab))) eqn:Ex;
      [|reflexivity].
    apply existsb_exists in Ex. destruct Ex as [y [Hy Exy]].
    apply Z.eqb_eq in Exy. subst y.
    apply in_map_iff in Hy. destruct Hy as [r [Er Hr]].
    specialize (Hnone r Hr). rewrite Er in Hnone.
    apply ArchivioSpec.has_false in Hnone. contradiction. }
  now apply filter_tutti.
Qed.

(** Trip 1 is selected and then hidden by the year filter; both buttons
    are pressed on the one row that is left. *)
Lemma seleziona_deseleziona_witness :
  let st := esegui [Caricate [trasferta_esempio 1 2023 false;
                              trasferta_esempio 2 2024 false];
                    ChangeRiga 0; ChangeYear "2024"] stato_iniziale in
  selectedTrasferte st = [1%Z]
  /\ selectedTrasferte (gestisci ClickSelectAll st) = [1%Z; 2%Z]
  /\ selectedTrasferte
       (gestisci ClickDeselectAll (gestisci ClickSelectAll st)) = [1%Z].
Proof.
  intros st. split; [reflexivity|]. split; [reflexivity|].
  apply (proj2 (seleziona_deseleziona st
                  {| trasferte := [trasferta_esempio 2 2024 false];
                     righe := [{| data_id := 2; cb_checked := false |}];
                     cb_select_all := false;
                     selection_counter := 1 |} eq_refl)).
  cbn. intros r [<-|[]]. reflexivity.
Defined.

(** *** Quick filters *)

Lemma filter_filter {A} (p q : A -> bool) (l : list A) :
  filter q (filter p l) = filter (fun x => p x && q x) l.
Proof.
  induction l as [|a r IH]; simpl; [reflexivity|].
  destruct (p a); simpl; [destruct (q a)|]; now rewrite IH.
Qed.

Lemma filter_true {A} (l : list A) : filter (fun _ => true) l = l.
Proof. induction l as [|a r IH]; simpl; [reflexivity | now rewrite IH]. Qed.

Lemma applicaFiltri_elenco st :
  filteredTrasferte (applicaFiltri st)
  = filter (corrisponde (quick_year_select st) (quick_month_select st))
           (allTrasferte st).
Proof.
  unfold applicaFiltri, visualizzaTutteLeTrasferte, corrisponde.
  cbn [filteredTrasferte].
  destruct (if str_falsy (quick_year_select st) then None
            else parseInt (quick_year_select st)) as [a|]; cbn [int_falsy].
  - destruct (a =? 0)%Z;
      destruct (String.eqb (quick_month_select st) "");
      rewrite ?filter_filter; cbn; try reflexivity.
    + symmetry. apply filter_true.
    + apply filter_ext. intros t. now rewrite andb_true_r.
  - destruct (String.eqb (quick_month_select st) ""); cbn; [|reflexivity].
    symmetry. apply filter_true.
Qed.

(** X12.  A quick filter always works on the whole loaded list: after a
    change of the year or the month select, the page shows the loaded
    trips of that year and month, in load order, whatever it showed
    before.  In particular the result of an advanced search does not
    survive the next quick-filter change. *)
Theorem filtro_rapido (st : Stato) (valore : string) :
  filteredTrasferte (gestisci (ChangeYear valore) st)
  = filter (corrisponde valore (quick_month_select st)) (allTrasferte st)
  /\ filteredTrasferte (gestisci (ChangeMonth valore) st)
     = filter (corrisponde (quick_year_select st) valore) (allTrasferte st)
  /\ forall items : list Trasferta,
       gestisci (ChangeYear valore) (gestisci (RicercaAvanzata items) st)
       = gestisci (ChangeYear valore) st
       /\ gestisci (ChangeMonth valore) (gestisci (RicercaAvanzata items) st)
          = gestisci (ChangeMonth valore) st.
Proof.
  split; [|split].
  - unfold gestisci. now rewrite applicaFiltri_elenco.
  - unfold gestisci. now rewrite applicaFiltri_elenco.
  - intros items. split; reflexivity.
Qed.

End ArchivioProps.

(* ===================================================================== *)
(** ** Properties of the address fill-in *)
(* ===================================================================== *)

Module PopolaProps.
Import Js AddressAutocomplete Trasferte Popola.
#[local] Open Scope list_scope.

Lemma senza_cap_vuoto to_string result :
  senza_cap result -> cap (estrai to_string result) = "".
Proof.
  unfold senza_cap, estrai. cbn [cap]. intros H.
  unfold oppure at 1. now rewrite H.
Qed.

Lemma distanza_cap_vuoto fmt num veicoli risposta p btn :
  trasferta_cap_partenza (campi p) = ""
  \/ trasferta_cap_arrivo (campi p) = "" ->
  exists messaggio,
    Distanza.click_calcola_distanza fmt num veicoli risposta p btn
    = ([Distanza.mostraToast messaggio warning], p, btn).
Proof.
  intros H. unfold Distanza.click_calcola_distanza.
  destruct H as [H|H]; rewrite H; cbn [trim drop_white trim_start str_falsy];
    rewrite ?orb_true_r.
  - eauto.
  - match goal with
    | |- context [if ?b then _ else _] => destruct b
    end; eauto.
Qed.

Lemma submit_cap_vuoto post upload oggi p :
  trasferta_cap_partenza (campi p) = ""
  \/ trasferta_cap_arrivo (campi p) = "" ->
  bloccata (submit_trasferta post upload oggi p) p.
Proof.
  intros H. unfold bloccata, submit_trasferta.
  assert (E : campi_mancanti (leggi_dati (campi p)) = true).
  { unfold campi_mancanti, leggi_dati. cbn.
    destruct H as [H|H]; rewrite H; cbn; rewrite ?orb_true_r; reflexivity. }
  rewrite E. cbn. eauto.
Qed.

(** X13.  Choosing a suggestion that carries no postal code blanks the
    postal-code field of that address, whatever it held, and until the
    user types one the form can neither be submitted nor used to look up
    the distance: both answer with a warning and send nothing. *)
Theorem suggerimento_senza_cap
  (to_string : jsval -> string) (fmt num : jsnum -> string)
  (veicoli : list Veicolo) (result : Suggestion) (p : Pagina)
  (post : Esito Z) (upload : Esito unit) (oggi : string)
  (risposta : Esito (option Distanza.Risultato)) (btn : Distanza.Bottone) :
  senza_cap result ->
  let partenza :=
    set_campi (populateTrasfertaPartenza to_string result (campi p)) p in
  let arrivo :=
    set_campi (populateTrasfertaArrivo to_string result (campi p)) p in
  trasferta_cap_partenza (campi partenza) = ""
  /\ trasferta_cap_arrivo (campi arrivo) = ""
  /\ bloccata (submit_trasferta post upload oggi partenza) partenza
  /\ bloccata (submit_trasferta post upload oggi arrivo) arrivo
  /\ (exists messaggio,
        Distanza.click_calcola_distanza fmt num veicoli risposta partenza btn
        = ([Distanza.mostraToast messaggio warning], partenza, btn))
  /\ (exists messaggio,
        Distanza.click_calcola_distanza fmt num veicoli risposta arrivo btn
        = ([Distanza.mostraToast messaggio warning], arrivo, btn)).
Proof.
  intros H partenza arrivo.
  assert (E1 : trasferta_cap_partenza (campi partenza) = "")
    by (cbn; now apply senza_cap_vuoto).
  assert (E2 : trasferta_cap_arrivo (campi arrivo) = "")
    by (cbn; now apply senza_cap_vuoto).
  split; [exact E1|]. split; [exact E2|].
  split; [apply submit_cap_vuoto; now left|].
  split; [apply submit_cap_vuoto; now right|].
  split; apply distanza_cap_vuoto; [now left | now right].
Qed.

(** A street of Turin found without its postal code is chosen as the
    departure of a form that was complete. *)
Lemma suggerimento_senza_cap_witness :
  let result :=
    suggerimento_esempio
      (Object [("road", Str "Via Roma"); ("city", Str "Torino");
               ("country", Str "Italia")]) in
  let p := pagina_esempio (modulo_esempio "10121" "Visita cliente" "140")
             None in
  let scelta :=
    set_campi
      (populateTrasfertaPartenza TrasferteVocabolario.numero_jsval
         result (campi p)) p in
  trasferta_via_partenza (campi scelta) = "Via Roma"
  /\ trasferta_citta_partenza (campi scelta) = "Torino"
  /\ trasferta_cap_partenza (campi scelta) = ""
  /\ bloccata (submit_trasferta (Risolta 12%Z) (Risolta tt) "2026-01-14"
                 scelta) scelta.
Proof.
  intros result p scelta.
  split; [reflexivity|]. split; [reflexivity|]. split; [reflexivity|].
  assert (H : senza_cap result) by reflexivity.
  exact (proj1 (proj2 (proj2
    (suggerimento_senza_cap TrasferteVocabolario.numero_jsval
       formato_esempio TrasferteVocabolario.numero_esempio []
       result p (Risolta 12%Z) (Risolta tt) "2026-01-14"
       (Risolta None)
       {| Distanza.disabled := false; Distanza.textContent := "" |} H)))).
Defined.

End PopolaProps.

(* ===================================================================== *)
(** ** Properties of the JSON client and of the bottom bar *)
(* ===================================================================== *)

Module AppProps.
Import Js AddressAutocomplete App.
#[local] Open Scope list_scope.

(** *** [fetchApi] *)

Ltac svolgi :=
  unfold fetchApi, try_catch, bind, ret, throw, emit, response_json, prop;
  cbn.

(** X14.  [fetchApi] resolves only for a response with a success status,
    with the parsed body or the response itself, and then logs nothing.
    Every other outcome is a rejection that is logged exactly once and
    thrown on: a network error passes through unchanged, and a response
    with an error status always rejects. *)
Theorem fetchApi_esiti
  (to_string : jsval -> string) (esito : EsitoFetch) (w : Mondo) :
  let r := fetchApi to_string esito w in
  (forall v, fst r = Returns v ->
     console (snd r) = console w
     /\ exists resp,
         esito = risposta resp /\ ok resp = true
         /\ (v = grezza resp
             \/ exists j, body resp = json_valore j /\ v = dati j))
  /\ (forall e, fst r = Throws e ->
      console (snd r) = console w ++ [console_error "API Error:"]
      /\ forall e0, esito = rete_errore e0 -> e = e0)
  /\ (forall resp, esito = risposta resp -> ok resp = false ->
      exists e, fst r = Throws e).
Proof.
  cbv zeta.
  assert (risolve : forall (resp : Response) (v : Valore),
             ok resp = true ->
             (v = grezza resp
              \/ exists j, body resp = json_valore j /\ v = dati j) ->
             let r := (Returns v, w) in
             (forall v0, fst r = Returns v0 ->
                console (snd r) = console w
                /\ exists resp0,
                    risposta resp = risposta resp0 /\ ok resp0 = true
                    /\ (v0 = grezza resp0
                        \/ exists j, body resp0 = json_valore j
                                     /\ v0 = dati j))
             /\ (forall e, fst r = Throws e ->
                 console (snd r)
                 = console w ++ [console_error "API Error:"]
                 /\ forall e0, risposta resp = rete_errore e0 -> e = e0)
             /\ (forall resp0, risposta resp = risposta resp0 ->
                 ok resp0 = false -> exists e, fst r = Throws e)).
  { intros resp v Hok Hv. cbn. split; [|split].
    - intros v0 H. injection H as <-. split; [reflexivity|].
      exists resp. auto.
    - intros e H. discriminate.
    - intros resp0 E Hno. injection E as <-. congruence. }
  assert (rifiuta : forall (e : Errore) (es : EsitoFetch),
             (forall e0, es = rete_errore e0 -> e = e0) ->
             let r := (Throws (A := Valore) e,
                       {| console := console w ++ [console_error "API Error:"];
                          rete := rete w |}) in
             (forall v0, fst r = Returns v0 ->
                console (snd r) = console w
                /\ exists resp0,
                    es = risposta resp0 /\ ok resp0 = true
                    /\ (v0 = grezza resp0
                        \/ exists j, body resp0 = json_valore j
                                     /\ v0 = dati j))
             /\ (forall e1, fst r = Throws e1 ->
                 console (snd r)
                 = console w ++ [console_error "API Error:"]
                 /\ forall e0, es = rete_errore e0 -> e1 = e0)
             /\ (forall resp0, es = risposta resp0 -> ok resp0 = false ->
                 exists e1, fst r = Throws e1)).
  { intros e es He. cbn. split; [|split].
    - intros v0 H. discriminate.
    - intros e1 H. injection H as <-. split; [reflexivity | exact He].
    - intros resp0 _ _. eauto. }
  destruct esito as [e0|[o st ct b]].
  - svolgi. apply rifiuta. intros e1 E. congruence.
  - destruct o.
    + destruct ct as [c|].
      * svolgi.
        destruct (negb (str_falsy c) && includes c "application/json");
          [destruct b as [|j]|]; cbn.
        -- apply rifiuta. intros e1 E. discriminate.
        -- apply risolve; [reflexivity|].
           right. exists j. split; reflexivity.
        -- apply risolve; [reflexivity | now left].
      * svolgi. apply risolve; [reflexivity | now left].
    + svolgi.
      destruct b as [|j]; cbn; [|destruct j; cbn];
        apply rifiuta; intros e1 E; discriminate.
Qed.

(** *** The bottom bar *)

Lemma Qlt_bool_iff (x y : Q) : Qlt_bool x y = true <-> (x < y)%Q.
Proof.
  unfold Qlt_bool. rewrite negb_true_iff. split.
  - intros H. apply Qnot_le_lt. intros Hle.
    apply Qle_bool_iff in Hle. congruence.
  - intros H. destruct (Qle_bool y x) eqn:E; [|reflexivity].
    apply Qle_bool_iff in E. exfalso. now apply (Qlt_not_le x y).
Qed.

(** X15.  On a narrow window the bottom bar is hidden only while the page
    is more than 50 pixels down and was not just scrolled up: at 50 pixels
    or less a scroll always leaves it shown.  The remembered position is
    never negative, and the device vibrates only when a scroll up brings a
    hidden bar back. *)
Theorem barra_inferiore
  (innerWidth scrollY : Q) (puo_vibrare wasHidden : bool) (b : Barra) :
  bottom_nav b = Some wasHidden ->
  (innerWidth <= 768 # 1)%Q ->
  let r := on_scroll innerWidth scrollY puo_vibrare b in
  (bottom_nav (snd r) = Some true ->
   (50 # 1 < scrollY)%Q /\ (lastScrollTop b <= scrollY)%Q)
  /\ ((scrollY <= 50 # 1)%Q -> bottom_nav (snd r) = Some false)
  /\ (0 <= lastScrollTop (snd r))%Q
  /\ (fst r <> [] ->
      fst r = [vibrate 10] /\ wasHidden = true /\ puo_vibrare = true
      /\ (scrollY < lastScrollTop b)%Q
      /\ bottom_nav (snd r) = Some false).
Proof.
  intros Hb Hw. cbv zeta. unfold on_scroll. rewrite Hb.
  assert (Ew : Qlt_bool (768 # 1) innerWidth = false).
  { destruct (Qlt_bool (768 # 1) innerWidth) eqn:E; [|reflexivity].
    apply Qlt_bool_iff in E. exfalso. now apply (Qlt_not_le _ _ E). }
  rewrite Ew.
  assert (Hpos : (0 <= (if Qle_bool scrollY 0 then 0%Q else scrollY))%Q).
  { destruct (Qle_bool scrollY 0) eqn:E; [apply Qle_refl|].
    destruct (Qlt_le_dec 0 scrollY) as [H|H]; [now apply Qlt_le_weak|].
    apply Qle_bool_iff in H. congruence. }
  destruct (Qlt_bool (lastScrollTop b) scrollY) eqn:E1;
    destruct (Qlt_bool (50 # 1) scrollY) eqn:E2;
    destruct (Qlt_bool scrollY (lastScrollTop b)) eqn:E3;
    destruct (Qle_bool scrollY (50 # 1)) eqn:E4;
    cbn [andb fst snd bottom_nav lastScrollTop];
    try (apply Qlt_bool_iff in E1); try (apply Qlt_bool_iff in E2);
    try (apply Qlt_bool_iff in E3); try (apply Qle_bool_iff in E4);
    try (exfalso; apply (Qlt_not_le _ _ E2); exact E4);
    try (exfalso; apply (Qlt_irrefl scrollY);
         eapply Qlt_trans; eassumption).
  all: repeat match goal with
              | |- _ /\ _ => split
              end;
    try exact Hpos;
    try (intros H; discriminate H);
    try (intros H; reflexivity);
    try (intros H; split; [exact E2 | now apply Qlt_le_weak]);
    try (intros H; exfalso; now apply H).
  all: try (destruct wasHidden, puo_vibrare; cbn;
            intros H; try (exfalso; now apply H);
            repeat split; try reflexivity; assumption).
  all: try (intros H; cbn in H; injection H as ->;
            split; [exact E2|];
            destruct (Qlt_le_dec scrollY (lastScrollTop b)) as [L|L];
            [apply Qlt_bool_iff in L; congruence | exact L]).
  all: try (intros H; apply Qle_bool_iff in H; congruence).
  all: exfalso; destruct (Qlt_le_dec (50 # 1) scrollY) as [L|L];
    [apply Qlt_bool_iff in L | apply Qle_bool_iff in L]; congruence.
Qed.

(** A phone scrolls down to 300 pixels with the bar shown, then back up
    to 120. *)
Lemma barra_inferiore_witness :
  let b := {| bottom_nav := Some false; lastScrollTop := 0 |} in
  let giu := on_scroll (390 # 1) (300 # 1) true b in
  let su := on_scroll (390 # 1) (120 # 1) true (snd giu) in
  bottom_nav (snd giu) = Some true
  /\ fst su = [vibrate 10]
  /\ bottom_nav (snd su) = Some false
  /\ (0 <= lastScrollTop (snd su))%Q.
Proof.
  intros b giu su.
  split; [reflexivity|]. split; [reflexivity|]. split; [reflexivity|].
  assert (Hb : bottom_nav (snd giu) = Some true) by reflexivity.
  assert (Hw : (390 # 1 <= 768 # 1)%Q) by (vm_compute; discriminate).
  exact (proj1 (proj2 (proj2
           (barra_inferiore (390 # 1) (120 # 1) true true (snd giu) Hb Hw)))).
Defined.

End AppProps.

(* ===================================================================== *)
(** ** Properties of the vehicle forms *)
(* ===================================================================== *)

Module VeicoliProps.
Import Js AddressAutocomplete App Veicoli.
#[local] Open Scope list_scope.

Lemma positivo_iff (x : jsnum) :
  gt x (Fin 0) = true <-> num_falsy x = false /\ le x (Fin 0) = false.
Proof.
  destruct x as [|[n d]|[|]|]; cbn.
  - split; [discriminate | intros [H _]; discriminate].
  - rewrite negb_true_iff. unfold Qeq_bool, Qle_bool. cbn.
    split; [|tauto].
    intros H. split; [|exact H].
    apply Z.leb_gt in H. apply Z.eqb_neq. lia.
  - split; [discriminate | intros [_ H]; discriminate].
  - split; auto.
  - split; [discriminate | intros [H _]; discriminate].
Qed.

Lemma non_vuoto (x : string) : str_falsy x = false <-> x <> "".
Proof. destruct x; cbn; split; congruence. Qed.




(** X17.  The edit form of a vehicle checks the rate only: it refuses a
    rate that parses to zero or less and sends everything else.  So every
    form the create handler would accept is sent, and so is a form whose
    rate does not parse to a number, with make and model blank or not. *)
Theorem veicolo_modifica
  (risposta : Completion Valore) (edit_veicolo_id : string) (m : Modulo) :
  (le (parseFloat (veicolo_tariffa m)) (Fin 0) = true ->
   exists messaggio,
     submit_edit_veicolo risposta edit_veicolo_id m
     = [mostraToast messaggio Trasferte.warning])
  /\ (veicolo_valido m \/ parseFloat (veicolo_tariffa m) = NaN ->
      exists seguito,
        submit_edit_veicolo risposta edit_veicolo_id m
        = fetch Trasferte.PUT (VeicoloUrl (parseInt edit_veicolo_id))
            (Some (leggi_dati m)) :: seguito).
Proof.
  unfold submit_edit_veicolo. cbn [tariffa_km leggi_dati]. split.
  - intros H. rewrite H. eauto.
  - intros [H|H].
    + destruct H as [_ [_ [_ H]]]. apply positivo_iff in H.
      destruct H as [_ H]. rewrite H. destruct risposta; eauto.
    + rewrite H. cbn. destruct risposta; eauto.
Qed.

(** Vehicle 3 is saved with every field blank, and with a rate of 0.5.
    A rate of zero is refused, and so is one written as 1e-400, which
    parses to zero. *)
Lemma veicolo_modifica_witness :
  let vuoto := {| veicolo_marca := ""; veicolo_modello := "";
                  veicolo_alimentazione := ""; veicolo_tariffa := "" |} in
  let con (tariffa : string) :=
    {| veicolo_marca := "Fiat"; veicolo_modello := "Panda";
       veicolo_alimentazione := "Benzina"; veicolo_tariffa := tariffa |} in
  (exists seguito,
      submit_edit_veicolo (Returns (dati Null)) "3" vuoto
      = fetch Trasferte.PUT (VeicoloUrl (Some 3%Z))
          (Some {| marca := ""; modello := ""; alimentazione := "";
                   tariffa_km := NaN |}) :: seguito)
  /\ (veicolo_valido (con "0.5")
      /\ exists seguito,
          submit_edit_veicolo (Returns (dati Null)) "3" (con "0.5")
          = fetch Trasferte.PUT (VeicoloUrl (Some 3%Z))
              (Some {| marca := "Fiat"; modello := "Panda";
                       alimentazione := "Benzina";
                       tariffa_km := Fin (1 # 2) |}) :: seguito)
  /\ (exists messaggio,
        submit_edit_veicolo (Returns (dati Null)) "3" (con "0")
        = [mostraToast messaggio Trasferte.warning])
  /\ (le (parseFloat "1e-400") (Fin 0) = true
      /\ exists messaggio,
          submit_edit_veicolo (Returns (dati Null)) "3" (con "1e-400")
          = [mostraToast messaggio Trasferte.warning]).
Proof.
  intros vuoto con.
  assert (H : veicolo_valido (con "0.5")).
  { repeat split; try discriminate. }
  split; [|split; [|split]].
  - exact (proj2 (veicolo_modifica (Returns (dati Null)) "3" vuoto)
             (or_intror eq_refl)).
  - split; [exact H|].
    exact (proj2 (veicolo_modifica (Returns (dati Null)) "3" (con "0.5"))
             (or_introl H)).
  - exact (proj1 (veicolo_modifica (Returns (dati Null)) "3" (con "0"))
             eq_refl).
  - split; [reflexivity|].
    exact (proj1 (veicolo_modifica (Returns (dati Null)) "3" (con "1e-400"))
             eq_refl).
Defined.

(** *** Deleting a vehicle *)

Lemma includes_http (s : string) :
  includes ("HTTP " ++ s) "409" = includes s "409".
Proof. reflexivity. Qed.

Lemma fetchApi_errore_testo to_string resp fields testo w :
  ok resp = false ->
  body resp = json_valore (Object fields) ->
  lookup "error" fields = Str testo ->
  testo <> "" ->
  fst (fetchApi to_string (risposta resp) w) = Throws (Error testo).
Proof.
  intros Hok Hb He Hne.
  unfold fetchApi, try_catch, bind, ret, throw, emit, response_json, prop.
  cbn. rewrite Hok, Hb. cbn. rewrite He. cbn.
  apply non_vuoto in Hne. now rewrite Hne.
Qed.

Lemma fetchApi_errore_stato to_string resp w :
  ok resp = false ->
  body resp = json_invalido
  \/ (exists fields, body resp = json_valore (Object fields)
                     /\ falsy (lookup "error" fields) = true) ->
  fst (fetchApi to_string (risposta resp) w)
  = Throws (Error ("HTTP " ++ status_to_string (status resp))).
Proof.
  intros Hok Hb.
  unfold fetchApi, try_catch, bind, ret, throw, emit, response_json, prop.
  cbn. rewrite Hok.
  destruct Hb as [Hb|[fields [Hb Hf]]]; rewrite Hb; cbn.
  - reflexivity.
  - now rewrite Hf.
Qed.

Lemma avviso_associate_In (id : option Z) (e : Errore) :
  In avviso_associate (eliminaVeicolo true (Throws e) id)
  <-> includes (err_message e) "409" = true.
Proof.
  unfold eliminaVeicolo, avviso_associate. cbn.
  destruct (includes (err_message e) "409"); split; intros H;
    try reflexivity; try discriminate.
  - right. left. reflexivity.
  - destruct H as [H|[H|[]]]; discriminate.
Qed.

(** X18.  Nothing is deleted without the user's confirmation.  When the
    backend refuses a confirmed deletion, the warning about associated
    trips is chosen by the text of the error [fetchApi] throws: if the
    answer carries an error text, the warning appears exactly when that
    text contains 409, whatever the status; if it carries none, exactly
    when the digits of the status code do. *)
Theorem elimina_conflitto
  (to_string : jsval -> string) (resp : Response) (id : option Z)
  (w : Mondo) :
  ok resp = false ->
  let rifiuto := fst (fetchApi to_string (risposta resp) w) in
  eliminaVeicolo false rifiuto id = []
  /\ (forall fields testo,
        body resp = json_valore (Object fields) ->
        lookup "error" fields = Str testo -> testo <> "" ->
        (In avviso_associate (eliminaVeicolo true rifiuto id)
         <-> includes testo "409" = true))
  /\ (body resp = json_invalido
      \/ (exists fields, body resp = json_valore (Object fields)
                         /\ falsy (lookup "error" fields) = true) ->
      (In avviso_associate (eliminaVeicolo true rifiuto id)
       <-> includes (status_to_string (status resp)) "409" = true)).
Proof.
  intros Hok rifiuto. split; [reflexivity|]. split.
  - intros fields testo Hb He Hne. subst rifiuto.
    rewrite (fetchApi_errore_testo to_string resp fields testo w Hok Hb He Hne).
    apply avviso_associate_In.
  - intros Hb. subst rifiuto.
    rewrite (fetchApi_errore_stato to_string resp w Hok Hb).
    rewrite avviso_associate_In. cbn [err_message Error].
    now rewrite includes_http.
Qed.

(** A 409 answer without a body gives the warning; a 409 answer that
    explains itself in words gives the generic error. *)
Lemma elimina_conflitto_witness :
  let muta := {| ok := false; status := 409;
                 content_type := Some "text/html"; body := json_invalido |} in
  let parlante :=
    {| ok := false; status := 409;
       content_type := Some "application/json";
       body := json_valore
                 (Object [("error", Str "Veicolo con trasferte associate")])
    |} in
  In avviso_associate
    (eliminaVeicolo true
       (fst (fetchApi TrasferteVocabolario.numero_jsval (risposta muta)
               mondo_vuoto)) (Some 3%Z))
  /\ ~ In avviso_associate
        (eliminaVeicolo true
           (fst (fetchApi TrasferteVocabolario.numero_jsval
                   (risposta parlante) mondo_vuoto)) (Some 3%Z)).
Proof.
  intros muta parlante. split.
  - apply (proj2 (proj2 (elimina_conflitto TrasferteVocabolario.numero_jsval
                           muta (Some 3%Z) mondo_vuoto eq_refl))).
    + left. reflexivity.
    + reflexivity.
  - intros H.
    apply (proj1 (proj2 (elimina_conflitto TrasferteVocabolario.numero_jsval
                           parlante (Some 3%Z) mondo_vuoto eq_refl))
             [("error", Str "Veicolo con trasferte associate")]
             "Veicolo con trasferte associate" eq_refl eq_refl) in H.
    + vm_compute in H. discriminate.
    + discriminate.
Defined.

End VeicoliProps.

(* ===================================================================== *)
(** ** Properties of the arrow-key navigation *)
(* ===================================================================== *)

Module AccessibilityProps.
Import Accessibility.
#[local] Open Scope list_scope.
#[local] Open Scope Z_scope.

(** What every key press keeps when there is at least one item: the index
    is a number between -1 and the last position. *)
Lemma keydown_indice (n : nat) (key : string) (i : Z) :
  (0 < n)%nat -> -1 <= i < Z.of_nat n ->
  exists j,
    fst (keydown n key (Some i)) = Some j
    /\ -1 <= j < Z.of_nat n
    /\ snd (keydown n key (Some i)) <> TypeError.
Proof.
  intros Hn Hi. unfold keydown. cbn [existsb].
  destruct (String.eqb key "ArrowUp") eqn:Eu;
    [apply String.eqb_eq in Eu; subst key; cbn|].
  { assert (Hb : (Z.of_nat n =? 0) = false) by (apply Z.eqb_neq; lia).
    rewrite Hb. cbn.
    assert (Hr : 0 <= Z.rem (i + -1 + Z.of_nat n) (Z.of_nat n) < Z.of_nat n).
    { destruct (Z.eq_dec i (-1)) as [->|Hne].
      - destruct (Z.eq_dec (Z.of_nat n) 1) as [E|E].
        + rewrite E. cbn. lia.
        + apply Z.rem_bound_pos; lia.
      - apply Z.rem_bound_pos; lia. }
    eexists. split; [reflexivity|]. split; [lia|].
    destruct Hr as [H0 H1].
    apply Z.leb_le in H0. apply Z.ltb_lt in H1. rewrite H0, H1.
    discriminate. }
  destruct (String.eqb key "ArrowDown") eqn:Ed;
    [apply String.eqb_eq in Ed; subst key; cbn|].
  { assert (Hb : (Z.of_nat n =? 0) = false) by (apply Z.eqb_neq; lia).
    rewrite Hb. cbn.
    assert (Hr : 0 <= Z.rem (i + 1) (Z.of_nat n) < Z.of_nat n)
      by (apply Z.rem_bound_pos; lia).
    eexists. split; [reflexivity|]. split; [lia|].
    destruct Hr as [H0 H1].
    apply Z.leb_le in H0. apply Z.ltb_lt in H1. rewrite H0, H1.
    discriminate. }
  destruct (String.eqb key "Home") eqn:Eh.
  { cbn. exists 0. split; [reflexivity|]. split; [lia|].
    assert (H1 : (0 <? Z.of_nat n) = true) by (apply Z.ltb_lt; lia).
    rewrite H1. discriminate. }
  destruct (String.eqb key "End") eqn:Ee.
  { cbn. exists (Z.of_nat n - 1). split; [reflexivity|]. split; [lia|].
    assert (H0 : (0 <=? Z.of_nat n - 1) = true) by (apply Z.leb_le; lia).
    assert (H1 : (Z.of_nat n - 1 <? Z.of_nat n) = true)
      by (apply Z.ltb_lt; lia).
    rewrite H0, H1. discriminate. }
  cbn. exists i. split; [reflexivity|]. split; [lia | discriminate].
Qed.

Lemma naviga_sicura (n : nat) (keys : list string) : forall i,
  (0 < n)%nat -> -1 <= i < Z.of_nat n ->
  Forall (fun a => a <> TypeError) (snd (naviga n keys (Some i))).
Proof.
  induction keys as [|key rest IH]; intros i Hn Hi; cbn; [constructor|].
  destruct (keydown_indice n key i Hn Hi) as [j [Ej [Hj Ha]]].
  destruct (keydown n key (Some i)) as [indice azione]. cbn in Ej, Ha.
  subst indice.
  specialize (IH j Hn Hj).
  destruct (naviga n rest (Some j)) as [finale azioni]. cbn in *.
  constructor; assumption.
Qed.

(** X19.  In a container with at least one item the arrow-key listener
    never reaches for an item that does not exist, whatever keys are
    pressed and in whatever order.  From an item, the down arrow moves to
    the next one and from the last to the first, the up arrow moves to the
    previous one and from the first to the last, so that up undoes
    down. *)
Theorem frecce (n : nat) (keys : list string) (i : Z) :
  (0 < n)%nat -> 0 <= i < Z.of_nat n ->
  Forall (fun a => a <> TypeError) (snd (naviga n keys indice_iniziale))
  /\ keydown n "ArrowDown" (Some i)
     = (Some ((i + 1) mod Z.of_nat n),
        focus (Z.to_nat ((i + 1) mod Z.of_nat n)))
  /\ keydown n "ArrowUp" (Some i)
     = (Some ((i - 1) mod Z.of_nat n),
        focus (Z.to_nat ((i - 1) mod Z.of_nat n)))
  /\ fst (keydown n "ArrowUp" (fst (keydown n "ArrowDown" (Some i))))
     = Some i.
Proof.
  intros Hn Hi.
  assert (Hb : (Z.of_nat n =? 0) = false) by (apply Z.eqb_neq; lia).
  assert (giu : keydown n "ArrowDown" (Some i)
                = (Some ((i + 1) mod Z.of_nat n),
                   focus (Z.to_nat ((i + 1) mod Z.of_nat n)))).
  { unfold keydown. cbn. rewrite Hb. cbn.
    rewrite Z.rem_mod_nonneg by lia.
    assert (Hr : 0 <= (i + 1) mod Z.of_nat n < Z.of_nat n)
      by (apply Z.mod_pos_bound; lia).
    destruct Hr as [H0 H1].
    apply Z.leb_le in H0. apply Z.ltb_lt in H1. now rewrite H0, H1. }
  assert (su : forall k, 0 <= k < Z.of_nat n ->
               keydown n "ArrowUp" (Some k)
               = (Some ((k - 1) mod Z.of_nat n),
                  focus (Z.to_nat ((k - 1) mod Z.of_nat n)))).
  { intros k Hk. unfold keydown. cbn. rewrite Hb. cbn.
    rewrite Z.rem_mod_nonneg by lia.
    replace ((k + -1 + Z.of_nat n) mod Z.of_nat n)
      with ((k - 1) mod Z.of_nat n).
    2:{ replace (k + -1 + Z.of_nat n) with (k - 1 + 1 * Z.of_nat n) by lia.
        now rewrite Z.mod_add by lia. }
    assert (Hr : 0 <= (k - 1) mod Z.of_nat n < Z.of_nat n)
      by (apply Z.mod_pos_bound; lia).
    destruct Hr as [H0 H1].
    apply Z.leb_le in H0. apply Z.ltb_lt in H1. now rewrite H0, H1. }
  split; [apply naviga_sicura; [exact Hn | lia]|].
  split; [exact giu|]. split; [now apply su|].
  rewrite giu. cbn [fst].
  rewrite su by (apply Z.mod_pos_bound; lia). cbn [fst]. f_equal.
  destruct (Z.eq_dec (i + 1) (Z.of_nat n)) as [E|E].
  - rewrite E, Z.mod_same by lia.
    replace (0 - 1) with (-1 + 1 * Z.of_nat n - Z.of_nat n) by lia.
    replace (-1 + 1 * Z.of_nat n - Z.of_nat n)
      with (Z.of_nat n - 1 + (-1) * Z.of_nat n) by lia.
    rewrite Z.mod_add by lia. rewrite Z.mod_small by lia. lia.
  - rewrite (Z.mod_small (i + 1)) by lia.
    replace (i + 1 - 1) with i by lia. apply Z.mod_small. lia.
Qed.

(** Three items: End, Down, Down, Up, Up and a letter. *)
Lemma frecce_witness :
  naviga 3 ["End"; "ArrowDown"; "ArrowDown"; "ArrowUp"; "ArrowUp"; "a"]
    indice_iniziale
  = (Some 2, [focus 2; focus 0; focus 1; focus 0; focus 2; ignorato])
  /\ Forall (fun a => a <> TypeError)
       (snd (naviga 3 ["ArrowUp"; "ArrowUp"] indice_iniziale))
  /\ keydown 3 "ArrowDown" (Some 2) = (Some 0, focus 0).
Proof.
  split; [reflexivity|].
  assert (Hn : (0 < 3)%nat) by lia.
  assert (Hi : 0 <= 2 < Z.of_nat 3) by lia.
  split.
  - exact (proj1 (frecce 3 ["ArrowUp"; "ArrowUp"] 2 Hn Hi)).
  - exact (proj1 (proj2 (frecce 3 ["ArrowUp"; "ArrowUp"] 2 Hn Hi))).
Defined.

End AccessibilityProps.

(* ===================================================================== *)
(** ** Properties of the client page *)
(* ===================================================================== *)

Module ClientiProps.
Import Js AddressAutocomplete Clienti.
#[local] Open Scope list_scope.

(** *** Saving a client *)

(** The page after a session, event by event. *)
Lemma esegui_stato to_string predefiniti (evs : list Evento) :
  forall acc : list Effetto * Stato,
    snd (fold_left
           (fun acc ev =>
              let (effetti, st') :=
                gestisci to_string predefiniti ev (snd acc) in
              (fst acc ++ effetti, st'))
           evs acc)
    = fold_left (fun st ev => snd (gestisci to_string predefiniti ev st))
        evs (snd acc).
Proof.
  induction evs as [|ev rest IH]; intros acc; cbn [fold_left];
    [reflexivity|].
  rewrite IH. f_equal.
  destruct (gestisci to_string predefiniti ev (snd acc)). reflexivity.
Qed.

(** Typing, Escape and requests being sent leave [currentEditId] alone. *)
Lemma lascia_id_conserva to_string predefiniti (evs : list Evento) :
  Forall lascia_id evs ->
  forall st : Stato,
    currentEditId
      (fold_left (fun st ev => snd (gestisci to_string predefiniti ev st))
         evs st)
    = currentEditId st.
Proof.
  induction 1 as [|ev rest Hev _ IH]; intros st; cbn [fold_left];
    [reflexivity|].
  rewrite IH. destruct ev; cbn in Hev; try contradiction; reflexivity.
Qed.

(** With no client under edit, only the answer to an edit request can put
    one there. *)
Lemma senza_risposte_nullo to_string predefiniti (evs : list Evento) :
  Forall non_risposta_edit evs ->
  forall st : Stato,
    currentEditId st = None ->
    currentEditId
      (fold_left (fun st ev => snd (gestisci to_string predefiniti ev st))
         evs st)
    = None.
Proof.
  induction 1 as [|ev rest Hev _ IH]; intros st Hst; cbn [fold_left];
    [exact Hst|].
  apply IH. destruct ev as [|i|i es| | |m| |es]; cbn in Hev;
    try contradiction; cbn; try exact Hst; try reflexivity.
  unfold submitForm_then. destruct es as [e|r]; [exact Hst|].
  destruct (negb (ok r)); [exact Hst|].
  destruct (body r); [exact Hst | reflexivity].
Qed.

Lemma campo_vuoto_falsy (m : Modulo) :
  campo_vuoto m <->
  str_falsy (nome (leggi_dati m)) || str_falsy (via (leggi_dati m))
  || str_falsy (citta (leggi_dati m)) || str_falsy (cap (leggi_dati m))
  || str_falsy (paese (leggi_dati m)) = true.
Proof.
  unfold campo_vuoto, leggi_dati. cbn.
  rewrite !orb_true_iff.
  assert (V : forall x : string, str_falsy x = true <-> x = "")
    by (intros x; destruct x; cbn; split; congruence).
  rewrite !V. tauto.
Qed.

Lemma submitForm_richiesta st :
  ~ campo_vuoto (clienteForm st) ->
  submitForm st
  = [salvataggio (currentEditId st) (leggi_dati (clienteForm st))].
Proof.
  intros H. rewrite campo_vuoto_falsy in H.
  apply not_true_is_false in H.
  unfold submitForm. now rewrite H.
Qed.

Lemma submitForm_bloccata st :
  campo_vuoto (clienteForm st) ->
  submitForm st = [showError "Compilare tutti i campi"].
Proof.
  intros H. apply campo_vuoto_falsy in H.
  unfold submitForm. now rewrite H.
Qed.

(** X21.  A save goes to the client whose record was the last to arrive.
    After "Add", as long as no answer to an edit request comes in, a save
    is a POST of the trimmed fields to the collection and never a PUT.
    Once the answer to an edit request of a client has come in with a
    JSON object, and until the dialog is opened for adding or closed by
    the script or another answer comes in, a save is a PUT of the trimmed
    fields on that client: also when "Add" was pressed while that request
    was still in flight.  In every case a field that is blank once
    trimmed stops the save with one message and no request. *)
Theorem cliente_salva
  (to_string : jsval -> string) (predefiniti : Modulo) (st : Stato) :
  (forall evs : list Evento,
      Forall non_risposta_edit evs ->
      let aggiunta :=
        snd (esegui to_string predefiniti (ClickAdd :: evs) st) in
      (forall e, In e (submitForm aggiunta) -> is_put e = false)
      /\ (~ campo_vuoto (clienteForm aggiunta) ->
          submitForm aggiunta
          = [fetch Trasferte.POST API_CLIENTI
               (Json (leggi_dati (clienteForm aggiunta)))]))
  /\ (forall (prima dopo : list Evento) (id : Z) (r : Response)
        (fields : list (string * jsval)),
        id <> 0%Z ->
        body r = json_valore (Object fields) ->
        Forall lascia_id dopo ->
        let modifica :=
          snd (esegui to_string predefiniti
                 (prima ++ EditRisolve id (risposta r) :: dopo) st) in
        ~ campo_vuoto (clienteForm modifica) ->
        submitForm modifica
        = [fetch Trasferte.PUT (ClienteUrl id)
             (Json (leggi_dati (clienteForm modifica)))])
  /\ (forall st' : Stato,
        campo_vuoto (clienteForm st') ->
        submitForm st' = [showError "Compilare tutti i campi"]).
Proof.
  split; [|split].
  - intros evs Hevs aggiunta.
    assert (Eadd : currentEditId aggiunta = None).
    { unfold aggiunta, esegui. rewrite esegui_stato. cbn [fold_left snd].
      now apply senza_risposte_nullo. }
    split.
    + intros e He. unfold submitForm in He. rewrite Eadd in He.
      destruct (str_falsy _ || str_falsy _ || str_falsy _ || str_falsy _
                || str_falsy _) in He;
        destruct He as [<-|[]]; reflexivity.
    + intros H. rewrite (submitForm_richiesta _ H), Eadd. reflexivity.
  - intros prima dopo id r fields Hid Hb Hdopo modifica H.
    rewrite (submitForm_richiesta _ H). f_equal.
    assert (E : currentEditId modifica = Some id).
    { unfold modifica, esegui. rewrite esegui_stato, fold_left_app.
      cbn [fold_left]. rewrite (lascia_id_conserva _ _ dopo Hdopo).
      cbn [gestisci]. unfold editCliente_then. rewrite Hb. reflexivity. }
    rewrite E. unfold salvataggio. cbn [int_falsy].
    apply Z.eqb_neq in Hid. now rewrite Hid.
  - intros st' H. now apply submitForm_bloccata.
Qed.

(** Client 7 is opened, its record arrives and the dialog is left with
    Escape: a client added afterwards is posted, not written over client
    7, also while an edit request of client 9 is in flight.  But when
    "Add" is pressed before the record of client 7 has arrived, the
    record arrives into the open dialog, and what is typed over it is put
    on client 7. *)
Lemma cliente_salva_witness :
  let st := {| currentEditId := None; clienteForm := modulo_vuoto;
               clienteModal := false |} in
  let rossi := {| nomecliente := " Rossi Srl"; viacliente := "Via Po 3";
                  citycliente := "Torino"; capcliente := "10123";
                  paesecliente := "Italia" |} in
  let dati_rossi := {| nome := "Rossi Srl"; via := "Via Po 3";
                       citta := "Torino"; cap := "10123";
                       paese := "Italia" |} in
  let scheda := {| ok := true; status := 200;
                   body := json_valore
                             (Object [("id", Number (7 # 1));
                                      ("nome", Str "Bianchi Spa")]) |} in
  let dopo (evs : list Evento) (x : Stato) :=
    snd (esegui TrasferteVocabolario.numero_jsval modulo_vuoto evs x) in
  let aperto := dopo [EditCliente 7; EditRisolve 7 (risposta scheda); Annulla]
                  st in
  (currentEditId aperto = Some 7%Z
   /\ submitForm (dopo [ClickAdd; EditCliente 9; Compila rossi] aperto)
      = [fetch Trasferte.POST API_CLIENTI (Json dati_rossi)])
  /\ submitForm
       (dopo ([EditCliente 7; ClickAdd]
              ++ EditRisolve 7 (risposta scheda) :: [Compila rossi]) st)
     = [fetch Trasferte.PUT (ClienteUrl 7) (Json dati_rossi)].
Proof.
  intros st rossi dati_rossi scheda dopo aperto.
  assert (V : ~ campo_vuoto rossi).
  { intros [H|[H|[H|[H|H]]]]; vm_compute in H; discriminate H. }
  assert (F1 : Forall non_risposta_edit [EditCliente 9; Compila rossi])
    by (repeat constructor).
  assert (F2 : Forall lascia_id [Compila rossi]) by (repeat constructor).
  split; [split; [reflexivity|]|].
  - apply (proj2 (proj1 (cliente_salva TrasferteVocabolario.numero_jsval
                           modulo_vuoto aperto)
                    [EditCliente 9; Compila rossi] F1)).
    exact V.
  - apply (proj1 (proj2 (cliente_salva TrasferteVocabolario.numero_jsval
                           modulo_vuoto st))
             [EditCliente 7; ClickAdd] [Compila rossi] 7%Z scheda
             [("id", Number (7 # 1)); ("nome", Str "Bianchi Spa")]).
    + discriminate.
    + reflexivity.
    + exact F2.
    + exact V.
Defined.

(** *** Importing a CSV file *)

(** X22.  The import request is sent only for the chosen file, and only
    when its name ends in [.csv], in lower case, and its size is at most
    5 MiB.  A file that is refused leaves the file input empty and sends
    nothing.  Once a request was sent, the import button, when the page
    has one, ends enabled with its label restored, whatever the
    outcome. *)
Theorem importa_csv
  (number_to_string : jsnum -> string)
  (esito : EsitoImport) (p : PaginaImport) :
  let r := handleCsvUpload number_to_string esito p in
  (forall e, In e (fst r) -> is_fetch e = true ->
     exists file,
       csvFileInput p = Some file
       /\ endsWith (Trasferte.name file) ".csv" = true
       /\ (Trasferte.size file <= MAX_CSV)%N
       /\ (e = importa file
           \/ e = fetch Trasferte.GET API_CLIENTI NessunCorpo))
  /\ (filter is_fetch (fst r) = [] -> csvFileInput (snd r) = None)
  /\ (filter is_fetch (fst r) <> [] ->
      (exists file, csvFileInput p = Some file /\ In (importa file) (fst r))
      /\ forall b, importCsvBtn p = Some b ->
         importCsvBtn (snd r)
         = Some {| disabled := false;
                   textContent := "📤 Importa da CSV" |}).
Proof.
  cbv zeta. unfold handleCsvUpload.
  destruct (csvFileInput p) as [file|] eqn:Ef.
  2:{ cbn. split; [intros e []|]. split; [intros _; exact Ef|].
      intros H. now exfalso. }
  destruct (endsWith (Trasferte.name file) ".csv") eqn:En; cbn [negb].
  2:{ cbn. split; [intros e [<-|[]]; discriminate|].
      split; [reflexivity|]. intros H. now exfalso. }
  destruct (MAX_CSV <? Trasferte.size file)%N eqn:Es.
  { cbn. split; [intros e [<-|[]]; discriminate|].
    split; [reflexivity|]. intros H. now exfalso. }
  apply N.ltb_ge in Es.
  assert (bottone : forall b, importCsvBtn p = Some b ->
            match importCsvBtn p with
            | Some _ => Some {| disabled := false;
                                textContent := "📤 Importa da CSV" |}
            | None => None
            end
            = Some {| disabled := false;
                      textContent := "📤 Importa da CSV" |})
    by (intros b ->; reflexivity).
  destruct esito as [e0|stato| |result]; cbn;
    try destruct (Qle_bool (imported result) 0).
  all: split;
    [ intros e He Hf; exists file; repeat split; try assumption;
      repeat (destruct He as [<-|He];
              [first [ now left | now right | discriminate Hf ]|]);
      destruct He
    | split;
      [ intros H; discriminate H
      | intros _; split;
        [exists file; split; [reflexivity | now left] | exact bottone] ] ].
Qed.

(** A file named in capitals is refused and the input emptied; the same
    content under a lower-case name is uploaded. *)
Lemma importa_csv_witness :
  let maiuscolo := {| Trasferte.name := "CLIENTI.CSV";
                      Trasferte.size := 2048 |} in
  let minuscolo := {| Trasferte.name := "clienti.csv";
                      Trasferte.size := 2048 |} in
  let btn := Some {| disabled := false;
                     textContent := "📤 Importa da CSV" |} in
  let esito := import_risultato {| imported := 3 # 1; errors := [] |} in
  handleCsvUpload TrasferteVocabolario.numero_esempio esito
    {| csvFileInput := Some maiuscolo; importCsvBtn := btn |}
  = ([showError "❌ File must be CSV format"],
     {| csvFileInput := None; importCsvBtn := btn |})
  /\ In (importa minuscolo)
       (fst (handleCsvUpload TrasferteVocabolario.numero_esempio esito
               {| csvFileInput := Some minuscolo; importCsvBtn := btn |})).
Proof.
  intros maiuscolo minuscolo btn esito. split; [reflexivity|].
  assert (H : filter is_fetch
                (fst (handleCsvUpload TrasferteVocabolario.numero_esempio
                        esito {| csvFileInput := Some minuscolo;
                                 importCsvBtn := btn |})) <> [])
    by discriminate.
  destruct (proj2 (proj2 (importa_csv TrasferteVocabolario.numero_esempio
                            esito {| csvFileInput := Some minuscolo;
                                     importCsvBtn := btn |})) H)
    as [[file [Ef Hin]] _].
  injection Ef as <-. exact Hin.
Defined.

End ClientiProps.
